(** * An S3-like object store: metadata layer, storage manager,
    permission manager and search engine

  Shallow embedding of [backend/config.py], [backend/database.py],
  [backend/permissions.py], [backend/storage.py] and
  [backend/search.py], followed by the properties established about
  them.

  Modelling conventions.
  - The four JSON files are insertion-ordered dictionaries with string
    keys ([dict]), exactly what [json.load] returns.
  - [_write_json] returns [False] when the underlying [open]/[dump]
    raises.  Whether a given write fails is decided by the environment;
    the state carries the outcomes of the forthcoming writes.
  - [datetime.now()] and [uuid.uuid4()] are inputs of the operations that
    call them; one operation reads the clock once.
  - Exceptions other than those of [_write_json] (a full disk while the
    bytes of an upload are saved, an unreadable directory) are not part of
    the model.
  - Strings are byte strings; case mapping and white space are the ASCII
    ones. *)

From Stdlib Require Import ZArith Ascii String.
From stdpp Require Import base tactics option list strings sorting.

#[local] Set Warnings "-clear-no-such-hyp".
#[local] Open Scope Z_scope.

(** ** Python string primitives *)

Module Str.

Definition is_upper (c : ascii) : bool :=
  let n := nat_of_ascii c in (65 <=? n)%nat && (n <=? 90)%nat.

Definition lower_char (c : ascii) : ascii :=
  if is_upper c then ascii_of_nat (nat_of_ascii c + 32) else c.

(** [str.lower()] *)
Fixpoint lower (s : string) : string :=
  match s with
  | EmptyString => EmptyString
  | String c s' => String (lower_char c) (lower s')
  end.

(** [s.startswith(p)] *)
Definition startswith (s p : string) : bool := String.prefix p s.

(** [sub in s] *)
Fixpoint contains (sub s : string) : bool :=
  String.prefix sub s ||
  match s with
  | EmptyString => false
  | String _ s' => contains sub s'
  end.

(** [a == b] on strings *)
Definition eqb (a b : string) : bool := String.eqb a b.

(** [bool(s)]: a string is truthy when it is not empty. *)
Definition truthy (s : string) : bool :=
  match s with EmptyString => false | _ => true end.

Fixpoint split_first (sep : ascii) (s : string) : option (string * string) :=
  match s with
  | EmptyString => None
  | String c s' =>
      if Ascii.eqb c sep then Some (EmptyString, s')
      else match split_first sep s' with
           | Some (a, b) => Some (String c a, b)
           | None => None
           end
  end.

(** [s.split(sep, 1)] *)
Definition split1 (sep : ascii) (s : string) : list string :=
  match split_first sep s with
  | Some (a, b) => [a; b]
  | None => [s]
  end.

(** [str.isspace] on one ASCII character: TAB, LF, VT, FF, CR, the four
    separators FS, GS, RS, US and the blank. *)
Definition is_space (c : ascii) : bool :=
  let n := nat_of_ascii c in
  ((9 <=? n)%nat && (n <=? 13)%nat) || ((28 <=? n)%nat && (n <=? 32)%nat).

Fixpoint lstrip (s : string) : string :=
  match s with
  | EmptyString => EmptyString
  | String c s' => if is_space c then lstrip s' else s
  end.

Fixpoint rstrip (s : string) : string :=
  match s with
  | EmptyString => EmptyString
  | String c s' =>
      match rstrip s' with
      | EmptyString => if is_space c then EmptyString else String c EmptyString
      | r => String c r
      end
  end.

(** [s.strip()] *)
Definition strip (s : string) : string := rstrip (lstrip s).

(** [s.replace('Z', '+00:00')] *)
Fixpoint replace_Z (s : string) : string :=
  match s with
  | EmptyString => EmptyString
  | String c s' =>
      if Ascii.eqb c "Z"%char then "+00:00" +:+ replace_Z s'
      else String c (replace_Z s')
  end.

(** [a <= b] on strings (code-point order). *)
Definition leb (a b : string) : bool := String.leb a b.

(** [c not in s] for a character. *)
Fixpoint has_char (c : ascii) (s : string) : bool :=
  match s with
  | EmptyString => false
  | String c' s' => Ascii.eqb c' c || has_char c s'
  end.

End Str.

(** ** Insertion-ordered dictionaries with string keys *)

Definition dict (V : Type) : Type := list (string * V).

Section Dict.
Context {V : Type}.

(** [d.get(k)] *)
Fixpoint dict_get (k : string) (d : dict V) : option V :=
  match d with
  | [] => None
  | (k', v) :: d' => if Str.eqb k' k then Some v else dict_get k d'
  end.

(** [k in d] *)
Definition dict_mem (k : string) (d : dict V) : bool :=
  match dict_get k d with Some _ => true | None => false end.

(** [d[k] = v]: an existing key keeps its position, a new key goes last. *)
Fixpoint dict_set (k : string) (v : V) (d : dict V) : dict V :=
  match d with
  | [] => [(k, v)]
  | (k', v') :: d' =>
      if Str.eqb k' k then (k, v) :: d' else (k', v') :: dict_set k v d'
  end.

(** [del d[k]] *)
Fixpoint dict_del (k : string) (d : dict V) : dict V :=
  match d with
  | [] => []
  | (k', v') :: d' =>
      if Str.eqb k' k then dict_del k d' else (k', v') :: dict_del k d'
  end.

(** [d.keys()], [d.values()]; [d.items()] is [d] itself. *)
Definition dict_keys (d : dict V) : list string := d.*1.
Definition dict_values (d : dict V) : list V := d.*2.

(** Keys of a Python dictionary are pairwise distinct. *)
Definition dict_ok (d : dict V) : Prop := NoDup (dict_keys d).

End Dict.

(** ** Naive date-times ([datetime.datetime])

  Calendar arithmetic follows CPython's [datetime.py]: proleptic
  Gregorian ordinals, and a difference whose [days] component is the
  floor of the elapsed time divided by one day. *)

Module DT.

Record datetime : Type := mk {
  year : Z; month : Z; day : Z;
  hour : Z; minute : Z; second : Z; microsecond : Z
}.

Definition is_leap (y : Z) : bool :=
  (y mod 4 =? 0) && (negb (y mod 100 =? 0) || (y mod 400 =? 0)).

Definition days_before_year (y : Z) : Z :=
  let y := y - 1 in y * 365 + y / 4 - y / 100 + y / 400.

Definition days_in_month (y m : Z) : Z :=
  if (m =? 2) && is_leap y then 29
  else nth (Z.to_nat m) [0; 31; 28; 31; 30; 31; 30; 31; 31; 30; 31; 30; 31] 0.

Definition days_before_month (y m : Z) : Z :=
  nth (Z.to_nat m) [0; 0; 31; 59; 90; 120; 151; 181; 212; 243; 273; 304; 334] 0
  + (if (2 <? m) && is_leap y then 1 else 0).

(** [d.toordinal()] *)
Definition toordinal (d : datetime) : Z :=
  days_before_year (year d) + days_before_month (year d) (month d) + day d.

Definition us_per_day : Z := 86400 * 1000000.

Definition total_us (d : datetime) : Z :=
  (toordinal d * 86400 + hour d * 3600 + minute d * 60 + second d) * 1000000
  + microsecond d.

(** [(a - b).days] *)
Definition sub_days (a b : datetime) : Z := (total_us a - total_us b) / us_per_day.

(** [a.date() == b.date()] *)
Definition same_date (a b : datetime) : bool :=
  (year a =? year b) && (month a =? month b) && (day a =? day b).

Definition valid (d : datetime) : bool :=
  (1 <=? year d) && (year d <=? 9999) && (1 <=? month d) && (month d <=? 12)
  && (1 <=? day d) && (day d <=? days_in_month (year d) (month d))
  && (0 <=? hour d) && (hour d <? 24) && (0 <=? minute d) && (minute d <? 60)
  && (0 <=? second d) && (second d <? 60)
  && (0 <=? microsecond d) && (microsecond d <? 1000000).

(** *** Text form *)

Definition digit_of (c : ascii) : option Z :=
  let n := nat_of_ascii c in
  if (48 <=? n)%nat && (n <=? 57)%nat then Some (Z.of_nat n - 48) else None.

Definition char_of_digit (z : Z) : ascii := ascii_of_nat (48 + Z.to_nat z).

(** Exactly [n] decimal digits. *)
Fixpoint digits (n : nat) (acc : Z) (s : string) : option (Z * string) :=
  match n with
  | O => Some (acc, s)
  | S n' =>
      match s with
      | String c s' =>
          match digit_of c with
          | Some v => digits n' (acc * 10 + v) s'
          | None => None
          end
      | EmptyString => None
      end
  end.

(** The literal character [c]. *)
Definition expect (c : ascii) (s : string) : option string :=
  match s with
  | String c' s' => if Ascii.eqb c' c then Some s' else None
  | EmptyString => None
  end.

(** An optional [c]-prefixed field of [n] digits. *)
Definition opt_field (c : ascii) (n : nat) (s : string) : option (option Z * string) :=
  match s with
  | String c' s' =>
      if Ascii.eqb c' c then
        match digits n 0 s' with
        | Some (v, r) => Some (Some v, r)
        | None => None
        end
      else Some (None, s)
  | EmptyString => Some (None, s)
  end.

(** Fraction of a second: [.fff] or [.ffffff]. *)
Definition opt_fraction (s : string) : option (Z * string) :=
  match s with
  | String "."%char s' =>
      match digits 6 0 s' with
      | Some (v, r) => Some (v, r)
      | None =>
          match digits 3 0 s' with
          | Some (v, r) => Some (v * 1000, r)
          | None => None
          end
      end
  | _ => Some (0, s)
  end.

(** UTC offset [+HH:MM] or [-HH:MM], optionally with seconds. *)
Definition offset (s : string) : option unit :=
  match s with
  | String c s' =>
      if Ascii.eqb c "+"%char || Ascii.eqb c "-"%char then
        '(h, r) ← digits 2 0 s';
        r ← expect ":"%char r;
        '(m, r) ← digits 2 0 r;
        '(sec, r) ← opt_field ":"%char 2 r;
        '(_, r) ← (if sec is Some _ then opt_fraction r else Some (0, r));
        if Str.eqb r "" && (h <? 24) && (m <? 60) && (default 0 sec <? 60)
        then Some tt else None
      else None
  | EmptyString => None
  end.

(** [datetime.fromisoformat(s)] on the grammar
    [YYYY-MM-DD[*HH[:MM[:SS[.fff[fff]]]][+HH:MM[:SS[.ffffff]]]]]; the
    Boolean tells whether the result is time-zone aware.  [None] stands
    for [ValueError]. *)
Definition fromisoformat (s : string) : option (datetime * bool) :=
  '(y, r) ← digits 4 0 s;
  r ← expect "-"%char r;
  '(mo, r) ← digits 2 0 r;
  r ← expect "-"%char r;
  '(d, r) ← digits 2 0 r;
  match r with
  | EmptyString =>
      let dt := mk y mo d 0 0 0 0 in
      if valid dt then Some (dt, false) else None
  | String _ r =>
      '(h, r) ← digits 2 0 r;
      '(mi, r) ← opt_field ":"%char 2 r;
      '(sec, r) ← (if mi is Some _ then opt_field ":"%char 2 r else Some (None, r));
      '(us, r) ← (if sec is Some _ then opt_fraction r else Some (0, r));
      let dt := mk y mo d h (default 0 mi) (default 0 sec) us in
      if negb (valid dt) then None
      else match r with
           | EmptyString => Some (dt, false)
           | _ => _ ← offset r; Some (dt, true)
           end
  end.

Fixpoint pad (n : nat) (z : Z) : string :=
  match n with
  | O => EmptyString
  | S n' => pad n' (z / 10) +:+ String (char_of_digit (z mod 10)) EmptyString
  end.

(** [d.isoformat()] of a naive date-time. *)
Definition isoformat (d : datetime) : string :=
  pad 4 (year d) +:+ "-" +:+ pad 2 (month d) +:+ "-" +:+ pad 2 (day d) +:+ "T"
  +:+ pad 2 (hour d) +:+ ":" +:+ pad 2 (minute d) +:+ ":" +:+ pad 2 (second d)
  +:+ (if microsecond d =? 0 then "" else "." +:+ pad 6 (microsecond d)).

End DT.


(** ** [pathlib.Path] on file names *)

Module Path.

(** Final path component. *)
Fixpoint name (s : string) : string :=
  match s with
  | EmptyString => EmptyString
  | String c s' =>
      if Str.has_char "/"%char s' then name s'
      else if Ascii.eqb c "/"%char then s' else s
  end.

(** Splits at the last dot: the text before it, and the text from it on. *)
Fixpoint rsplit_dot (s : string) : option (string * string) :=
  match s with
  | EmptyString => None
  | String c s' =>
      match rsplit_dot s' with
      | Some (a, b) => Some (String c a, b)
      | None => if Ascii.eqb c "."%char then Some (EmptyString, s) else None
      end
  end.

(** [Path(p).suffix]: with [i = name.rfind('.')], the text [name[i:]] when
    [0 < i < len(name) - 1], the empty string otherwise. *)
Definition suffix (p : string) : string :=
  match rsplit_dot (name p) with
  | Some (a, b) => if Str.truthy a && (1 <? String.length b)%nat then b else EmptyString
  | None => EmptyString
  end.

End Path.

(** ** [werkzeug.utils.secure_filename]

    The storage manager is parametric in this third-party function.  The
    definition below describes it on ASCII names under POSIX: path
    separators become blanks, blank-separated words are joined by
    underscores, characters outside [A-Za-z0-9_.-] are dropped, and leading
    and trailing dots and underscores are stripped. *)

Module Werkzeug.

Definition is_safe (c : ascii) : bool :=
  let n := nat_of_ascii c in
  ((65 <=? n)%nat && (n <=? 90)%nat) || ((97 <=? n)%nat && (n <=? 122)%nat)
  || ((48 <=? n)%nat && (n <=? 57)%nat)
  || Ascii.eqb c "_"%char || Ascii.eqb c "."%char || Ascii.eqb c "-"%char.

Definition is_sep (c : ascii) : bool := Str.is_space c || Ascii.eqb c "/"%char.

(** ["_".join(s.replace("/", " ").split())] followed by the removal of the
    unsafe characters; [pending] tells that a word has been emitted and a
    separator run is being skipped. *)
Fixpoint join_words (pending : bool) (s : string) : string :=
  match s with
  | EmptyString => EmptyString
  | String c s' =>
      if is_sep c then join_words pending s'
      else
        let rest := join_words_in s' in
        let body := if is_safe c then String c rest else rest in
        if pending then String "_"%char body else body
  end
with join_words_in (s : string) : string :=
  match s with
  | EmptyString => EmptyString
  | String c s' =>
      if is_sep c then join_words true s'
      else if is_safe c then String c (join_words_in s') else join_words_in s'
  end.

Definition is_dot_or_underscore (c : ascii) : bool :=
  Ascii.eqb c "."%char || Ascii.eqb c "_"%char.

Fixpoint lstrip_du (s : string) : string :=
  match s with
  | EmptyString => EmptyString
  | String c s' => if is_dot_or_underscore c then lstrip_du s' else s
  end.

Fixpoint rstrip_du (s : string) : string :=
  match s with
  | EmptyString => EmptyString
  | String c s' =>
      match rstrip_du s' with
      | EmptyString => if is_dot_or_underscore c then EmptyString else String c EmptyString
      | r => String c r
      end
  end.

Definition secure_filename (filename : string) : string :=
  rstrip_du (lstrip_du (join_words false filename)).

End Werkzeug.

(** ** [config.py] *)

Record config : Type := {
  MAX_FILE_SIZE : Z;
  ALLOWED_EXTENSIONS : list string;
  BLOCKED_EXTENSIONS : list string;
  MAX_STORAGE_PER_USER : Z;
  FILE_TYPE_CATEGORIES : dict string;
  PERMISSION_LEVELS : dict string;
  (** [FILE_SIZE_CATEGORIES['small']] and [['medium']]; ['large'] is
      infinite and never read. *)
  FILE_SIZE_SMALL : Z;
  FILE_SIZE_MEDIUM : Z
}.

(** The values in [class Config]. *)
Definition Config : config := {|
  MAX_FILE_SIZE := 100 * 1024 * 1024;
  ALLOWED_EXTENSIONS :=
    [".jpg"; ".jpeg"; ".png"; ".gif"; ".bmp"; ".svg"; ".webp"; ".ico";
     ".pdf"; ".doc"; ".docx"; ".txt"; ".rtf"; ".odt"; ".xls"; ".xlsx";
     ".ppt"; ".pptx"; ".csv"; ".mp4"; ".avi"; ".mov"; ".wmv"; ".flv";
     ".webm"; ".mkv"; ".m4v"; ".mp3"; ".wav"; ".flac"; ".aac"; ".ogg";
     ".wma"; ".m4a"; ".zip"; ".rar"; ".7z"; ".tar"; ".gz"; ".bz2";
     ".py"; ".js"; ".html"; ".css"; ".json"; ".xml"; ".sql"; ".php";
     ".java"; ".cpp"; ".c"; ".h"];
  BLOCKED_EXTENSIONS :=
    [".exe"; ".sh"; ".bat"; ".cmd"; ".msi"; ".dll"; ".scr"; ".pif"; ".vb"; ".vbs"];
  MAX_STORAGE_PER_USER := 5 * 1024 * 1024 * 1024;
  FILE_TYPE_CATEGORIES :=
    [(".jpg", "image"); (".jpeg", "image"); (".png", "image"); (".gif", "image");
     (".bmp", "image"); (".svg", "image"); (".webp", "image"); (".ico", "image");
     (".pdf", "document"); (".doc", "document"); (".docx", "document");
     (".txt", "document"); (".rtf", "document"); (".odt", "document");
     (".xls", "document"); (".xlsx", "document"); (".ppt", "document");
     (".pptx", "document"); (".csv", "document");
     (".mp4", "video"); (".avi", "video"); (".mov", "video"); (".wmv", "video");
     (".flv", "video"); (".webm", "video"); (".mkv", "video"); (".m4v", "video");
     (".mp3", "audio"); (".wav", "audio"); (".flac", "audio"); (".aac", "audio");
     (".ogg", "audio"); (".wma", "audio"); (".m4a", "audio");
     (".zip", "archive"); (".rar", "archive"); (".7z", "archive"); (".tar", "archive");
     (".gz", "archive"); (".bz2", "archive");
     (".py", "code"); (".js", "code"); (".html", "code"); (".css", "code");
     (".json", "code"); (".xml", "code"); (".sql", "code"); (".php", "code");
     (".java", "code"); (".cpp", "code"); (".c", "code"); (".h", "code")];
  PERMISSION_LEVELS :=
    [("view", "View Only"); ("upload", "Upload Access"); ("full", "Full Access")];
  FILE_SIZE_SMALL := 1024 * 1024;
  FILE_SIZE_MEDIUM := 10 * 1024 * 1024
|}.

(** [x in s] for a set or list of strings. *)
Definition str_in (x : string) (s : list string) : bool := bool_decide (x ∈ s).

(** [Config.get_file_type] *)
Definition get_file_type (cfg : config) (filename : string) : string :=
  let extension := Str.lower (Path.suffix filename) in
  default "other" (dict_get extension (FILE_TYPE_CATEGORIES cfg)).

(** [Config.get_file_size_category] *)
Definition get_file_size_category (cfg : config) (size : Z) : string :=
  if size <? FILE_SIZE_SMALL cfg then "small"
  else if size <? FILE_SIZE_MEDIUM cfg then "medium"
  else "large".

(** Root of the physical store, [Config.UPLOADS_DIR]. *)
Definition UPLOADS_DIR : string := "data/uploads".

(** ** Stored records *)

Module User.
Record t : Type := mk {
  email : string;
  password_hash : string;
  user_id : string;
  created_date : string
}.
End User.

Module Permission.
Record t : Type := mk {
  bucket_id : string;
  owner : string;
  shared_with : string;
  permission_level : string;
  created_date : string
}.

(** [perm['permission_level'] = level] *)
Definition set_level (level : string) (p : t) : t :=
  mk (bucket_id p) (owner p) (shared_with p) level (created_date p).
End Permission.

(** Entries of [search_index.json]. *)
Module SearchData.
Record t : Type := mk {
  file_name : string;
  file_type : string;
  size : Z;
  upload_date : string;
  bucket_id : string;
  user_id : string
}.

(** [entry['file_name'] = name] *)
Definition set_file_name (name : string) (s : t) : t :=
  mk name (file_type s) (size s) (upload_date s) (bucket_id s) (user_id s).
End SearchData.

(** Entries of [file_metadata.json]. *)
Module FileInfo.
Record t : Type := mk {
  file_id : string;
  file_name : string;
  stored_filename : string;
  file_type : string;
  size : Z;
  upload_date : string;
  bucket_id : string;
  bucket_name : string;
  user_id : string;
  file_path : string
}.

(** [record.update({'file_name': name})] *)
Definition set_file_name (name : string) (f : t) : t :=
  mk (file_id f) name (stored_filename f) (file_type f) (size f) (upload_date f)
     (bucket_id f) (bucket_name f) (user_id f) (file_path f).
End FileInfo.

(** A search result: the metadata record of the file, when there is one,
    updated with the six fields of its search-index entry.  The four keys
    that only the metadata record has are absent when it is. *)
Module Hit.
Record t : Type := mk {
  file_id : option string;
  stored_filename : option string;
  bucket_name : option string;
  file_path : option string;
  file_name : string;
  file_type : string;
  size : Z;
  upload_date : string;
  bucket_id : string;
  user_id : string
}.

(** [m = metadata.get(file_id, {}); m.update(search_data)] *)
Definition merge (m : option FileInfo.t) (s : SearchData.t) : t :=
  mk (FileInfo.file_id <$> m) (FileInfo.stored_filename <$> m)
     (FileInfo.bucket_name <$> m) (FileInfo.file_path <$> m)
     (SearchData.file_name s) (SearchData.file_type s) (SearchData.size s)
     (SearchData.upload_date s) (SearchData.bucket_id s) (SearchData.user_id s).
End Hit.

(** ** The persistent state *)

(** What the environment does to one [_write_json]: the write goes through,
    [open] raises and the file is left as it was, or [json.dump] raises after
    [open] truncated the file, which [_read_json] then reads as [{}]. *)
Inductive io_result : Type := IoOk | IoOpenError | IoDumpError.

#[global] Instance io_result_eq_dec : EqDecision io_result.
Proof. solve_decision. Defined.

Record state : Type := mkState {
  users : dict User.t;
  permissions : dict Permission.t;
  search_index : dict SearchData.t;
  file_metadata : dict FileInfo.t;
  (** bucket directories, as (user directory, bucket directory) *)
  dirs : list (string * string);
  (** regular files of the physical store, path to content *)
  disk : dict string;
  (** outcomes of the forthcoming [_write_json] calls; every call after
      the listed ones goes through *)
  writes : list io_result
}.

Definition set_permissions (d : dict Permission.t) (st : state) : state :=
  mkState (users st) d (search_index st) (file_metadata st) (dirs st) (disk st) (writes st).
Definition set_search_index (d : dict SearchData.t) (st : state) : state :=
  mkState (users st) (permissions st) d (file_metadata st) (dirs st) (disk st) (writes st).
Definition set_file_metadata (d : dict FileInfo.t) (st : state) : state :=
  mkState (users st) (permissions st) (search_index st) d (dirs st) (disk st) (writes st).
Definition set_dirs (d : list (string * string)) (st : state) : state :=
  mkState (users st) (permissions st) (search_index st) (file_metadata st) d (disk st) (writes st).
Definition set_disk (d : dict string) (st : state) : state :=
  mkState (users st) (permissions st) (search_index st) (file_metadata st) (dirs st) d (writes st).
Definition set_writes (w : list io_result) (st : state) : state :=
  mkState (users st) (permissions st) (search_index st) (file_metadata st) (dirs st) (disk st) w.

(** The JSON files of [Config], each with the part of the state it holds. *)
Record json_file (D : Type) : Type := JsonFile {
  load : state → dict D;
  store : dict D → state → state
}.
Arguments JsonFile {D} _ _.
Arguments load {D} _ _.
Arguments store {D} _ _ _.

Definition set_users (d : dict User.t) (st : state) : state :=
  mkState d (permissions st) (search_index st) (file_metadata st) (dirs st) (disk st) (writes st).

Definition USERS_FILE : json_file User.t := JsonFile users set_users.
Definition PERMISSIONS_FILE : json_file Permission.t := JsonFile permissions set_permissions.
Definition SEARCH_INDEX_FILE : json_file SearchData.t := JsonFile search_index set_search_index.
Definition FILE_METADATA_FILE : json_file FileInfo.t := JsonFile file_metadata set_file_metadata.

(** *** State monad *)

Definition M (A : Type) : Type := state → A * state.

Definition ret {A} (a : A) : M A := λ st, (a, st).
Definition bind {A B} (m : M A) (k : A → M B) : M B :=
  λ st, let '(a, st') := m st in k a st'.
Definition gets {A} (f : state → A) : M A := λ st, (f st, st).
Definition modify (f : state → state) : M unit := λ st, (tt, f st).

Notation "x <- m ;; k" := (bind m (λ x, k))
  (at level 100, m at next level, right associativity, only parsing).
Notation "m ;;; k" := (bind m (λ _, k))
  (at level 100, right associativity, only parsing).

(** [for x in l: body(x)] *)
Fixpoint for_each {A} (l : list A) (body : A → M unit) : M unit :=
  match l with
  | [] => ret tt
  | x :: l' => body x ;;; for_each l' body
  end.

(** Messages returned with the status of an operation. *)
Inductive msg : Type :=
  | InvalidPermissionLevel        (* "Invalid permission level" *)
  | ShareOwnBucketsOnly           (* "You can only share your own buckets" *)
  | UserNotFound                  (* "User not found" *)
  | CannotShareWithYourself       (* "Cannot share bucket with yourself" *)
  | PermissionUpdatedTo (level_name : string)  (* "Permission updated to ..." *)
  | FailedToUpdatePermission      (* "Failed to update permission" *)
  | BucketSharedWith (level_name : string)     (* "Bucket shared with ... permission" *)
  | FailedToShareBucket           (* "Failed to share bucket" *)
  | NoFileProvided                (* "No file provided" *)
  | BucketNotFoundOrAccessDenied  (* "Bucket not found or access denied" *)
  | FileTooLarge                  (* "File too large. Maximum size: ..." *)
  | FileTypeNotAllowed            (* "File type not allowed. Allowed types: ..." *)
  | FileTypeBlocked               (* "This file type is not allowed for security reasons" *)
  | FileValid                     (* "File valid" *)
  | FailedToSaveFileMetadata      (* "Failed to save file metadata" *)
  | FileUploadedSuccessfully      (* "File uploaded successfully" *)
  | BucketDeletedSuccessfully     (* "Bucket deleted successfully" *)
  | FileNotFound                  (* "File not found" *)
  | InsufficientPermissionsToRename (* "Insufficient permissions to rename file" *)
  | InvalidFileName               (* "Invalid file name" *)
  | FileRenamedSuccessfully       (* "File renamed successfully" *)
  | FailedToUpdateFileName.       (* "Failed to update file name" *)

(** ** [database.py]: class [Database] *)

(** The outcome of the next write; [IoOk] when none is listed. *)
Definition next_write (st : state) : io_result := default IoOk (head (writes st)).

Definition _write_json {D} (file_path : json_file D) (data : dict D) : M bool :=
  λ st,
    let st' := set_writes (tail (writes st)) st in
    match next_write st with
    | IoOk => (true, store file_path data st')
    | IoOpenError => (false, st')
    | IoDumpError => (false, store file_path [] st')
    end.

Definition _read_json {D} (file_path : json_file D) : M (dict D) := gets (load file_path).

Definition get_user_by_email (email : string) : M (option User.t) :=
  users <- _read_json USERS_FILE;;
  ret (snd <$> list_find (λ u, User.email u = email) (dict_values users)).

Definition get_user_by_id (user_id : string) : M (option User.t) :=
  users <- _read_json USERS_FILE;;
  ret (dict_get user_id users).

(** The identifier is the one the caller supplies; [file_info.get('file_id',
    str(uuid.uuid4()))] never takes its default. *)
Definition add_file_metadata (file_info : FileInfo.t) : M bool :=
  metadata <- _read_json FILE_METADATA_FILE;;
  search_index <- _read_json SEARCH_INDEX_FILE;;
  let file_id := FileInfo.file_id file_info in
  let metadata := dict_set file_id file_info metadata in
  let search_data :=
    SearchData.mk (FileInfo.file_name file_info) (FileInfo.file_type file_info)
      (FileInfo.size file_info) (FileInfo.upload_date file_info)
      (FileInfo.bucket_id file_info) (FileInfo.user_id file_info) in
  let search_index := dict_set file_id search_data search_index in
  success1 <- _write_json FILE_METADATA_FILE metadata;;
  success2 <- _write_json SEARCH_INDEX_FILE search_index;;
  ret (success1 && success2).

Definition get_file_metadata (file_id : string) : M (option FileInfo.t) :=
  metadata <- _read_json FILE_METADATA_FILE;;
  ret (dict_get file_id metadata).

Definition get_files_by_bucket (bucket_id : string) : M (list FileInfo.t) :=
  metadata <- _read_json FILE_METADATA_FILE;;
  ret (filter (λ f, FileInfo.bucket_id f = bucket_id) (dict_values metadata)).

Definition delete_file_metadata (file_id : string) : M bool :=
  metadata <- _read_json FILE_METADATA_FILE;;
  search_index <- _read_json SEARCH_INDEX_FILE;;
  let metadata := if dict_mem file_id metadata then dict_del file_id metadata else metadata in
  let search_index :=
    if dict_mem file_id search_index then dict_del file_id search_index else search_index in
  success1 <- _write_json FILE_METADATA_FILE metadata;;
  success2 <- _write_json SEARCH_INDEX_FILE search_index;;
  ret (success1 && success2).

(** The bucket directories found under the directory of [user_id]; a user
    directory that does not exist has none.  [iterdir()] yields them in an
    order of the file system's choosing; the order of [dirs] stands for it
    and carries no meaning of its own. *)
Definition get_user_buckets (user_id : string) : M (list string) :=
  dirs <- gets dirs;;
  ret (filter (λ d, d.1 = user_id) dirs).*2.

Definition delete_bucket_metadata (user_id bucket_name : string) : M bool :=
  let bucket_id := user_id +:+ "_" +:+ bucket_name in
  files_in_bucket <- get_files_by_bucket bucket_id;;
  for_each files_in_bucket
    (λ file_data, _ <- delete_file_metadata (FileInfo.file_id file_data);; ret tt);;;
  ret true.

Definition permission_id (bucket_id user_id : string) : string :=
  bucket_id +:+ "_" +:+ user_id.

Definition add_permission (now : DT.datetime)
    (bucket_id owner_id shared_with permission_level : string) : M bool :=
  permissions <- _read_json PERMISSIONS_FILE;;
  let permission_data :=
    Permission.mk bucket_id owner_id shared_with permission_level (DT.isoformat now) in
  let permissions := dict_set (permission_id bucket_id shared_with) permission_data permissions in
  _write_json PERMISSIONS_FILE permissions.

Definition get_permissions_by_bucket (bucket_id : string) : M (list Permission.t) :=
  permissions <- _read_json PERMISSIONS_FILE;;
  ret (filter (λ p, Permission.bucket_id p = bucket_id) (dict_values permissions)).

Definition get_shared_buckets_for_user (user_id : string) : M (list Permission.t) :=
  permissions <- _read_json PERMISSIONS_FILE;;
  ret (filter (λ p, Permission.shared_with p = user_id) (dict_values permissions)).

Definition get_permission (bucket_id user_id : string) : M (option Permission.t) :=
  permissions <- _read_json PERMISSIONS_FILE;;
  ret (dict_get (permission_id bucket_id user_id) permissions).

Definition update_permission (bucket_id user_id permission_level : string) : M bool :=
  permissions <- _read_json PERMISSIONS_FILE;;
  let pid := permission_id bucket_id user_id in
  match dict_get pid permissions with
  | Some p =>
      _write_json PERMISSIONS_FILE
        (dict_set pid (Permission.set_level permission_level p) permissions)
  | None => ret false
  end.

Definition delete_permission (bucket_id user_id : string) : M bool :=
  permissions <- _read_json PERMISSIONS_FILE;;
  let pid := permission_id bucket_id user_id in
  if dict_mem pid permissions then
    _write_json PERMISSIONS_FILE (dict_del pid permissions)
  else ret false.

Definition _get_accessible_bucket_ids (user_id : string) : M (list string) :=
  user_buckets <- get_user_buckets user_id;;
  shared_buckets <- get_shared_buckets_for_user user_id;;
  ret (((λ bucket, user_id +:+ "_" +:+ bucket) <$> user_buckets)
       ++ (Permission.bucket_id <$> shared_buckets)).

(** [_check_date_range(upload_date, date_range)], with [now] the value of
    [datetime.now()].  Subtracting an aware date-time from the naive [now]
    raises, which the [except] clause turns into [False]. *)
Definition _check_date_range (now : DT.datetime) (upload_date date_range : string) : bool :=
  if negb (Str.truthy upload_date) then false
  else
    match DT.fromisoformat (Str.replace_Z upload_date) with
    | None => false
    | Some (upload_dt, aware) =>
        if Str.eqb date_range "today" then DT.same_date upload_dt now
        else if Str.eqb date_range "week" then negb aware && (DT.sub_days now upload_dt <=? 7)
        else if Str.eqb date_range "month" then negb aware && (DT.sub_days now upload_dt <=? 30)
        else if Str.eqb date_range "year" then negb aware && (DT.sub_days now upload_dt <=? 365)
        else true
    end.

(** [filters.get(key)] when it is truthy. *)
Definition filter_value (key : string) (filters : dict string) : option string :=
  match dict_get key filters with
  | Some v => if Str.truthy v then Some v else None
  | None => None
  end.

(** The method does not read its [metadata] argument. *)
Definition _apply_filters (cfg : config) (now : DT.datetime)
    (search_data : SearchData.t) (metadata : option FileInfo.t)
    (filters : dict string) : bool :=
  if (if filter_value "file_type" filters is Some v
      then negb (Str.eqb (SearchData.file_type search_data) v) else false)
  then false
  else if (if filter_value "size_category" filters is Some v
           then negb (Str.eqb (get_file_size_category cfg (SearchData.size search_data)) v)
           else false)
  then false
  else if (if filter_value "date_range" filters is Some v
           then negb (_check_date_range now (SearchData.upload_date search_data) v)
           else false)
  then false
  else if (if filter_value "bucket_id" filters is Some v
           then negb (Str.eqb (SearchData.bucket_id search_data) v) else false)
  then false
  else true.

(** [bool(filters)] for [filters] a dictionary or [None]. *)
Definition filters_given (filters : option (dict string)) : option (dict string) :=
  match filters with
  | Some (_ :: _) => filters
  | _ => None
  end.

(** [Database.search_files(query, user_id, filters)] *)
Definition db_search_files (cfg : config) (now : DT.datetime)
    (query user_id : string) (filters : option (dict string)) : M (list Hit.t) :=
  search_index <- _read_json SEARCH_INDEX_FILE;;
  metadata <- _read_json FILE_METADATA_FILE;;
  accessible_bucket_ids <- _get_accessible_bucket_ids user_id;;
  ret (omap
         (λ '(file_id, search_data),
            if negb (str_in (SearchData.bucket_id search_data) accessible_bucket_ids)
            then None
            else if Str.truthy query
                    && negb (Str.contains (Str.lower query)
                               (Str.lower (SearchData.file_name search_data)))
            then None
            else if (if filters_given filters is Some f
                     then negb (_apply_filters cfg now search_data
                                  (dict_get file_id metadata) f)
                     else false)
            then None
            else Some (Hit.merge (dict_get file_id metadata) search_data))
         search_index).

(** ** [permissions.py]: class [PermissionManager] *)

(** [len(parts) == 2 and parts[0] == user_id] for [parts = bucket_id.split('_', 1)] *)
Definition owner_prefix_is (bucket_id user_id : string) : bool :=
  let bucket_parts := Str.split1 "_" bucket_id in
  bool_decide (length bucket_parts = 2%nat) && Str.eqb (nth 0 bucket_parts "") user_id.

(** [Config.PERMISSION_LEVELS[level]] *)
Definition level_name (cfg : config) (permission_level : string) : string :=
  default "" (dict_get permission_level (PERMISSION_LEVELS cfg)).

Definition share_bucket (cfg : config) (now : DT.datetime)
    (owner_id bucket_id shared_with_email permission_level : string) : M (bool * msg) :=
  if negb (dict_mem permission_level (PERMISSION_LEVELS cfg)) then
    ret (false, InvalidPermissionLevel)
  else if negb (owner_prefix_is bucket_id owner_id) then
    ret (false, ShareOwnBucketsOnly)
  else
    shared_user <- get_user_by_email shared_with_email;;
    match shared_user with
    | None => ret (false, UserNotFound)
    | Some shared_user =>
        let shared_user_id := User.user_id shared_user in
        if Str.eqb shared_user_id owner_id then ret (false, CannotShareWithYourself)
        else
          existing_permission <- get_permission bucket_id shared_user_id;;
          match existing_permission with
          | Some _ =>
              success <- update_permission bucket_id shared_user_id permission_level;;
              if success then ret (true, PermissionUpdatedTo (level_name cfg permission_level))
              else ret (false, FailedToUpdatePermission)
          | None =>
              success <- add_permission now bucket_id owner_id shared_user_id permission_level;;
              if success then ret (true, BucketSharedWith (level_name cfg permission_level))
              else ret (false, FailedToShareBucket)
          end
    end.

Definition check_permission_level (user_id bucket_id : string) : M string :=
  if owner_prefix_is bucket_id user_id then ret "owner"
  else
    permission <- get_permission bucket_id user_id;;
    match permission with
    | Some p => ret (Permission.permission_level p)
    | None => ret "none"
    end.

Definition can_perform_action (user_id bucket_id action : string) : M bool :=
  permission_level <- check_permission_level user_id bucket_id;;
  if Str.eqb permission_level "owner" then ret true
  else if Str.eqb permission_level "full" then ret true
  else if Str.eqb permission_level "upload" then ret (str_in action ["view"; "upload"])
  else if Str.eqb permission_level "view" then ret (Str.eqb action "view")
  else ret false.

(** ** [storage.py]: class [StorageManager] *)

(** An uploaded file ([werkzeug.datastructures.FileStorage]): the name the
    client declared (empty when none, which makes the object falsy), the
    declared content length ([0] when none) and the bytes. *)
Record FileStorage : Type := {
  filename : string;
  content_length : Z;
  data : string
}.

Definition path_join (a b : string) : string := a +:+ "/" +:+ b.

(** [Config.UPLOADS_DIR / user_id / bucket_name] *)
Definition bucket_path (user_id bucket_name : string) : string :=
  path_join (path_join UPLOADS_DIR user_id) bucket_name.

(** [shutil.rmtree(bucket_path)]: the directory and every file below it. *)
Definition rmtree (user_id bucket_name : string) : M unit :=
  modify (λ st,
    set_disk
      (filter (λ kv, ¬ Str.startswith kv.1 (bucket_path user_id bucket_name +:+ "/")) (disk st))
      (set_dirs (filter (λ d, d ≠ (user_id, bucket_name)) (dirs st)) st)).

(** [file.save(path)] *)
Definition save (file : FileStorage) (path : string) : M unit :=
  modify (λ st, set_disk (dict_set path (data file) (disk st)) st).

(** [path.exists()] for a regular file *)
Definition exists_file (path : string) : M bool := gets (λ st, dict_mem path (disk st)).

(** [path.unlink()] *)
Definition unlink (path : string) : M unit :=
  modify (λ st, set_disk (dict_del path (disk st)) st).

(** [bucket_path.mkdir(parents=True, exist_ok=True)] *)
Definition mkdir (user_id bucket_name : string) : M unit :=
  modify (λ st,
    if bool_decide ((user_id, bucket_name) ∈ dirs st) then st
    else set_dirs (dirs st ++ [(user_id, bucket_name)]) st).

(** [bucket_path.exists()] *)
Definition exists_dir (user_id bucket_name : string) : M bool :=
  gets (λ st, bool_decide ((user_id, bucket_name) ∈ dirs st)).

Definition delete_bucket (user_id bucket_name : string) : M (bool * msg) :=
  user_buckets <- get_user_buckets user_id;;
  if negb (str_in bucket_name user_buckets) then ret (false, BucketNotFoundOrAccessDenied)
  else
    present <- exists_dir user_id bucket_name;;
    (if present then rmtree user_id bucket_name else ret tt);;;
    _ <- delete_bucket_metadata user_id bucket_name;;
    ret (true, BucketDeletedSuccessfully).

Definition _check_bucket_access (user_id bucket_id action : string) : M bool :=
  let bucket_parts := Str.split1 "_" bucket_id in
  if negb (bool_decide (length bucket_parts = 2%nat)) then ret false
  else
    let owner_id := nth 0 bucket_parts "" in
    if Str.eqb owner_id user_id then ret true
    else
      permission <- get_permission bucket_id user_id;;
      match permission with
      | None => ret false
      | Some permission =>
          let permission_level := Permission.permission_level permission in
          if Str.eqb action "view" then ret (str_in permission_level ["view"; "upload"; "full"])
          else if Str.eqb action "upload" then ret (str_in permission_level ["upload"; "full"])
          else if Str.eqb action "full" then ret (Str.eqb permission_level "full")
          else ret false
      end.

Definition rename_file (user_id file_id new_name : string) : M (bool * msg) :=
  file_metadata <- get_file_metadata file_id;;
  match file_metadata with
  | None => ret (false, FileNotFound)
  | Some file_metadata =>
      let bucket_id := FileInfo.bucket_id file_metadata in
      allowed <- _check_bucket_access user_id bucket_id "full";;
      if negb allowed then ret (false, InsufficientPermissionsToRename)
      else if negb (Str.truthy new_name) || bool_decide (String.length (Str.strip new_name) = 0%nat)
      then ret (false, InvalidFileName)
      else
        metadata <- _read_json FILE_METADATA_FILE;;
        search_index <- _read_json SEARCH_INDEX_FILE;;
        let metadata :=
          match dict_get file_id metadata with
          | Some m => dict_set file_id (FileInfo.set_file_name (Str.strip new_name) m) metadata
          | None => metadata
          end in
        let search_index :=
          match dict_get file_id search_index with
          | Some s =>
              dict_set file_id (SearchData.set_file_name (Str.strip new_name) s) search_index
          | None => search_index
          end in
        success1 <- _write_json FILE_METADATA_FILE metadata;;
        success2 <- _write_json SEARCH_INDEX_FILE search_index;;
        if success1 && success2 then ret (true, FileRenamedSuccessfully)
        else ret (false, FailedToUpdateFileName)
  end.

Section StorageManager.

(** [werkzeug.utils.secure_filename] *)
Variable secure_filename : string → string.
Variable cfg : config.

Definition _validate_file (file : FileStorage) : bool * msg :=
  if negb (Str.truthy (filename file)) then (false, NoFileProvided)
  else if negb (content_length file =? 0) && (MAX_FILE_SIZE cfg <? content_length file)
  then (false, FileTooLarge)
  else
    let filename := secure_filename (filename file) in
    let file_ext := Str.lower (Path.suffix filename) in
    if bool_decide (ALLOWED_EXTENSIONS cfg ≠ [])
       && negb (str_in file_ext (ALLOWED_EXTENSIONS cfg))
    then (false, FileTypeNotAllowed)
    else if str_in file_ext (BLOCKED_EXTENSIONS cfg) then (false, FileTypeBlocked)
    else (true, FileValid).

(** The loop reads each item of [Config.FILE_TYPE_CATEGORIES] as
    [(category, extensions)] and tests [file_ext in extensions]; the items
    being (extension, category name) pairs, the test is a substring test on
    the category name and the value returned is the extension key. *)
Definition _get_file_type (filename : string) : string :=
  let file_ext := Str.lower (Path.suffix filename) in
  match list_find (λ item, Str.contains file_ext item.2 = true) (FILE_TYPE_CATEGORIES cfg) with
  | Some (_, (category, _)) => category
  | None => "other"
  end.

(** [upload_file(user_id, bucket_name, file)]; [file_id] is the value of
    [str(uuid.uuid4())] and [now] that of [datetime.now()]. *)
Definition upload_file (file_id : string) (now : DT.datetime)
    (user_id bucket_name : string) (file : FileStorage)
    : M (bool * msg * option FileInfo.t) :=
  if negb (Str.truthy (filename file)) then ret (false, NoFileProvided, None)
  else
    user_buckets <- get_user_buckets user_id;;
    if negb (str_in bucket_name user_buckets) then
      ret (false, BucketNotFoundOrAccessDenied, None)
    else
      let validation_result := _validate_file file in
      if negb validation_result.1 then ret (false, validation_result.2, None)
      else
        let original_filename := secure_filename (filename file) in
        let file_extension := Path.suffix original_filename in
        let unique_filename := file_id +:+ file_extension in
        mkdir user_id bucket_name;;;
        let file_path := path_join (bucket_path user_id bucket_name) unique_filename in
        save file file_path;;;
        let file_size := Z.of_nat (String.length (data file)) in
        let file_type := _get_file_type original_filename in
        let bucket_id := user_id +:+ "_" +:+ bucket_name in
        let file_metadata :=
          FileInfo.mk file_id original_filename unique_filename file_type file_size
            (DT.isoformat now) bucket_id bucket_name user_id file_path in
        success <- add_file_metadata file_metadata;;
        if negb success then
          present <- exists_file file_path;;
          (if present then unlink file_path else ret tt);;;
          ret (false, FailedToSaveFileMetadata, None)
        else ret (true, FileUploadedSuccessfully, Some file_metadata).

End StorageManager.

(** ** [search.py]: class [SearchEngine] *)

(** A result after [_enrich_search_results]: the copied result and the keys
    the method adds.  [days_ago] is set when [upload_date] is not empty;
    [is_own_file] and the new [bucket_name] when [bucket_id] has two parts;
    [bucket_owner] for a file that is not the owner's, when the owner is a
    known user.  The display strings [size_human], [upload_date_human] and
    [file_type_display] are not part of the model. *)
Module Enriched.
Record t : Type := mk {
  hit : Hit.t;
  size_category : string;
  days_ago : option Z;
  bucket_name : option string;
  is_own_file : option bool;
  bucket_owner : option string
}.
End Enriched.

Definition _get_days_ago (now : DT.datetime) (date_string : string) : Z :=
  match DT.fromisoformat (Str.replace_Z date_string) with
  | Some (dt, _) => DT.sub_days now dt
  | None => 999
  end.

(** The body of the loop of [_enrich_search_results]. *)
Definition enrich_one (cfg : config) (now : DT.datetime) (file_data : Hit.t) : M Enriched.t :=
  let size_category := get_file_size_category cfg (Hit.size file_data) in
  let days_ago :=
    if Str.truthy (Hit.upload_date file_data)
    then Some (_get_days_ago now (Hit.upload_date file_data)) else None in
  let bucket_id := Hit.bucket_id file_data in
  match (if Str.truthy bucket_id then Str.split1 "_" bucket_id else []) with
  | [owner_id; bucket_name] =>
      let is_own_file := Str.eqb owner_id (Hit.user_id file_data) in
      if negb is_own_file then
        owner_info <- get_user_by_id owner_id;;
        ret (Enriched.mk file_data size_category days_ago (Some bucket_name)
               (Some is_own_file) (User.email <$> owner_info))
      else
        ret (Enriched.mk file_data size_category days_ago (Some bucket_name)
               (Some is_own_file) None)
  | _ =>
      ret (Enriched.mk file_data size_category days_ago (Hit.bucket_name file_data) None None)
  end.

Fixpoint _enrich_search_results (cfg : config) (now : DT.datetime)
    (results : list Hit.t) : M (list Enriched.t) :=
  match results with
  | [] => ret []
  | file_data :: rest =>
      enriched_file <- enrich_one cfg now file_data;;
      enriched_rest <- _enrich_search_results cfg now rest;;
      ret (enriched_file :: enriched_rest)
  end.

(** [sorted(l, key=key, reverse=True)]: descending in the key, elements
    with equal keys in their original order.  [leb] is [<=] on keys. *)
Section Sorted.
Context {A K : Type} (leb : K → K → bool) (key : A → K).

Fixpoint insert_desc (x : A) (l : list A) : list A :=
  match l with
  | [] => [x]
  | y :: l' => if leb (key y) (key x) then x :: l else y :: insert_desc x l'
  end.

Definition sorted_reverse (l : list A) : list A := foldr insert_desc [] l.

End Sorted.

(** [<=] on [(int, str)] tuples *)
Definition tuple_leb (a b : Z * string) : bool :=
  (a.1 <? b.1) || ((a.1 =? b.1) && Str.leb a.2 b.2).

Definition calculate_relevance_score (query_lower : string) (file_data : Enriched.t) : Z :=
  let filename := Str.lower (Hit.file_name (Enriched.hit file_data)) in
  let score := 0 in
  let score :=
    if Str.eqb query_lower filename then score + 100
    else if Str.startswith filename query_lower then score + 50
    else if Str.contains query_lower filename then score + 25
    else score in
  let days_ago := default 999 (Enriched.days_ago file_data) in
  let score :=
    if days_ago <=? 7 then score + 10
    else if days_ago <=? 30 then score + 5
    else score in
  let score :=
    if default false (Enriched.is_own_file file_data) then score + 5 else score in
  score.

Definition _sort_search_results (results : list Enriched.t) (query : string) : list Enriched.t :=
  if negb (Str.truthy query) || bool_decide (results = []) then
    sorted_reverse Str.leb (λ x, Hit.upload_date (Enriched.hit x)) results
  else
    let query_lower := Str.lower query in
    sorted_reverse tuple_leb
      (λ x, (calculate_relevance_score query_lower x, Hit.upload_date (Enriched.hit x)))
      results.

(** [SearchEngine.search_files(user_id, query, filters)['results']] *)
Definition search_files (cfg : config) (now : DT.datetime)
    (user_id query : string) (filters : option (dict string)) : M (list Enriched.t) :=
  results <- db_search_files cfg now query user_id filters;;
  enriched_results <- _enrich_search_results cfg now results;;
  ret (_sort_search_results enriched_results query).

(** ** The other operations of the four classes

    The operations below return their message as the text itself. *)

(** [out = []], then for each [x] of [l] the value of [body(x)], when
    there is one, is appended to [out]. *)
Fixpoint collect {A B} (l : list A) (body : A → M (option B)) : M (list B) :=
  match l with
  | [] => ret []
  | x :: l' =>
      y <- body x;;
      rest <- collect l' body;;
      ret (match y with Some y => y :: rest | None => rest end)
  end.

(** [Config.PERMISSION_LEVELS.get(level, 'Unknown')] *)
Definition level_display (cfg : config) (permission_level : string) : string :=
  default "Unknown" (dict_get permission_level (PERMISSION_LEVELS cfg)).

(** *** [database.py] *)

(** [create_user(email, password_hash)]; [user_id] is the value of
    [str(uuid.uuid4())] and [now] that of [datetime.now()].  The directory
    made for the new user holds no bucket, which [get_user_buckets] does not
    tell from a missing directory; it is not part of the state. *)
Definition create_user (user_id : string) (now : DT.datetime)
    (email password_hash : string) : M (option string) :=
  users <- _read_json USERS_FILE;;
  match list_find (λ user_data, User.email user_data = email) (dict_values users) with
  | Some _ => ret None
  | None =>
      let user_data := User.mk email password_hash user_id (DT.isoformat now) in
      let users := dict_set user_id user_data users in
      success <- _write_json USERS_FILE users;;
      if success then ret (Some user_id) else ret None
  end.

Definition get_files_by_user (user_id : string) : M (list FileInfo.t) :=
  metadata <- _read_json FILE_METADATA_FILE;;
  ret (filter (λ f, FileInfo.user_id f = user_id) (dict_values metadata)).

Definition create_bucket_metadata (user_id bucket_name : string) : M string :=
  let bucket_id := user_id +:+ "_" +:+ bucket_name in
  mkdir user_id bucket_name;;;
  ret bucket_id.

(** *** [permissions.py] *)

Definition unshare_bucket (owner_id bucket_id shared_with_email : string)
    : M (bool * string) :=
  if negb (owner_prefix_is bucket_id owner_id) then
    ret (false, "You can only manage permissions for your own buckets")
  else
    shared_user <- get_user_by_email shared_with_email;;
    match shared_user with
    | None => ret (false, "User not found")
    | Some shared_user =>
        let shared_user_id := User.user_id shared_user in
        success <- delete_permission bucket_id shared_user_id;;
        if success then ret (true, "Bucket access removed successfully")
        else ret (false, "Failed to remove bucket access")
    end.

(** An entry of [get_shared_buckets] and of [get_user_accessible_buckets].
    The keys [owner_email] and [shared_date] are those of a shared bucket
    only. *)
Module Bucket.
Record t : Type := mk {
  bucket_id : string;
  bucket_name : string;
  owner_id : string;
  owner_email : option string;
  permission_level : string;
  permission_name : string;
  shared_date : option string;
  is_shared : bool
}.
End Bucket.

Definition get_shared_buckets (cfg : config) (user_id : string) : M (list Bucket.t) :=
  shared_permissions <- get_shared_buckets_for_user user_id;;
  collect shared_permissions (λ perm,
    let bucket_id := Permission.bucket_id perm in
    match Str.split1 "_" bucket_id with
    | [owner_id; bucket_name] =>
        owner_info <- get_user_by_id owner_id;;
        match owner_info with
        | Some owner_info =>
            ret (Some (Bucket.mk bucket_id bucket_name owner_id
                         (Some (User.email owner_info))
                         (Permission.permission_level perm)
                         (level_display cfg (Permission.permission_level perm))
                         (Some (Permission.created_date perm)) true))
        | None => ret None
        end
    | _ => ret None
    end).

Definition get_user_accessible_buckets (cfg : config) (user_id : string)
    : M (list Bucket.t) :=
  user_buckets <- get_user_buckets user_id;;
  let accessible_buckets :=
    (λ bucket_name,
       Bucket.mk (user_id +:+ "_" +:+ bucket_name) bucket_name user_id None
         "owner" "Owner" None false) <$> user_buckets in
  shared_buckets <- get_shared_buckets cfg user_id;;
  ret (accessible_buckets ++ shared_buckets).

Definition update_bucket_permission (cfg : config)
    (owner_id bucket_id shared_with_email new_permission_level : string)
    : M (bool * string) :=
  if negb (dict_mem new_permission_level (PERMISSION_LEVELS cfg)) then
    ret (false, "Invalid permission level")
  else if negb (owner_prefix_is bucket_id owner_id) then
    ret (false, "You can only manage permissions for your own buckets")
  else
    shared_user <- get_user_by_email shared_with_email;;
    match shared_user with
    | None => ret (false, "User not found")
    | Some shared_user =>
        let shared_user_id := User.user_id shared_user in
        success <- update_permission bucket_id shared_user_id new_permission_level;;
        if success then
          ret (true, "Permission updated to " +:+ level_name cfg new_permission_level)
        else ret (false, "Failed to update permission")
    end.

(** The loop of [get_permission_summary] over the buckets of the user,
    with its counter. *)
Fixpoint count_shared_by_user (user_id : string) (user_buckets : list string)
    (shared_by_user : Z) : M Z :=
  match user_buckets with
  | [] => ret shared_by_user
  | bucket_name :: rest =>
      let bucket_id := user_id +:+ "_" +:+ bucket_name in
      permissions <- get_permissions_by_bucket bucket_id;;
      count_shared_by_user user_id rest
        (if bool_decide (permissions ≠ []) then shared_by_user + 1 else shared_by_user)
  end.

Module PermissionSummary.
Record t : Type := mk {
  own_buckets : Z;
  shared_with_me : Z;
  shared_by_me : Z;
  total_accessible : Z
}.
End PermissionSummary.

Definition get_permission_summary (cfg : config) (user_id : string)
    : M PermissionSummary.t :=
  own <- get_user_buckets user_id;;
  let own_buckets := Z.of_nat (length own) in
  shared <- get_shared_buckets cfg user_id;;
  let shared_with_user := Z.of_nat (length shared) in
  user_buckets <- get_user_buckets user_id;;
  shared_by_user <- count_shared_by_user user_id user_buckets 0;;
  ret (PermissionSummary.mk own_buckets shared_with_user shared_by_user
         (own_buckets + shared_with_user)).

Definition validate_sharing_request (cfg : config)
    (owner_id bucket_id shared_with_email permission_level : string)
    : M (bool * string) :=
  if negb (dict_mem permission_level (PERMISSION_LEVELS cfg)) then
    ret (false, "Invalid permission level")
  else
    let bucket_parts := Str.split1 "_" bucket_id in
    if negb (owner_prefix_is bucket_id owner_id) then
      ret (false, "You can only share your own buckets")
    else
      let bucket_name := nth 1 bucket_parts "" in
      user_buckets <- get_user_buckets owner_id;;
      if negb (str_in bucket_name user_buckets) then ret (false, "Bucket does not exist")
      else
        shared_user <- get_user_by_email shared_with_email;;
        match shared_user with
        | None => ret (false, "Target user not found")
        | Some shared_user =>
            if Str.eqb (User.user_id shared_user) owner_id then
              ret (false, "Cannot share bucket with yourself")
            else ret (true, "Valid sharing request")
        end.

(** *** [storage.py] *)

Definition allowed_chars : string :=
  "abcdefghijklmnopqrstuvwxyzABCDEFGHIJKLMNOPQRSTUVWXYZ0123456789-_".

Definition _validate_bucket_name (bucket_name : string) : bool :=
  if negb (Str.truthy bucket_name)
     || (String.length bucket_name <? 1)%nat
     || (63 <? String.length bucket_name)%nat
  then false
  else forallb (λ c, Str.has_char c allowed_chars) (list_ascii_of_string bucket_name).

(** The description of a bucket that [create_bucket] returns. *)
Module BucketData.
Record t : Type := mk {
  bucket_id : string;
  bucket_name : string;
  owner_id : string;
  created_date : string;
  file_count : Z;
  total_size : Z
}.
End BucketData.

(** [create_bucket(user_id, bucket_name)], with [now] the value of
    [datetime.now()]; the empty description is [None]. *)
Definition create_bucket (now : DT.datetime) (user_id bucket_name : string)
    : M (bool * string * option BucketData.t) :=
  if negb (_validate_bucket_name bucket_name) then
    ret (false,
         "Invalid bucket name. Use only letters, numbers, hyphens, and underscores",
         None)
  else
    existing_buckets <- get_user_buckets user_id;;
    if str_in bucket_name existing_buckets then ret (false, "Bucket already exists", None)
    else
      bucket_id <- create_bucket_metadata user_id bucket_name;;
      let bucket_data :=
        BucketData.mk bucket_id bucket_name user_id (DT.isoformat now) 0 0 in
      ret (true, "Bucket created successfully", Some bucket_data).

(** [download_file(user_id, file_id)]: the path to serve, when there is
    one. *)
Definition download_file (user_id file_id : string) : M (bool * string * option string) :=
  file_metadata <- get_file_metadata file_id;;
  match file_metadata with
  | None => ret (false, "File not found", None)
  | Some file_metadata =>
      let bucket_id := FileInfo.bucket_id file_metadata in
      allowed <- _check_bucket_access user_id bucket_id "view";;
      if negb allowed then ret (false, "Access denied", None)
      else
        let file_path := FileInfo.file_path file_metadata in
        present <- exists_file file_path;;
        if negb present then ret (false, "File not found on disk", None)
        else ret (true, "File found", Some file_path)
  end.

Definition delete_file (user_id file_id : string) : M (bool * string) :=
  file_metadata <- get_file_metadata file_id;;
  match file_metadata with
  | None => ret (false, "File not found")
  | Some file_metadata =>
      let bucket_id := FileInfo.bucket_id file_metadata in
      allowed <- _check_bucket_access user_id bucket_id "full";;
      if negb allowed then ret (false, "Insufficient permissions to delete file")
      else
        let file_path := FileInfo.file_path file_metadata in
        present <- exists_file file_path;;
        (if present then unlink file_path else ret tt);;;
        _ <- delete_file_metadata file_id;;
        ret (true, "File deleted successfully")
  end.

(** An entry of [get_bucket_files]: the metadata record and its size
    category; the display string [size_human] is not part of the model. *)
Module BucketFile.
Record t : Type := mk {
  file : FileInfo.t;
  size_category : string
}.
End BucketFile.

Definition get_bucket_files (cfg : config) (user_id bucket_id : string)
    : M (bool * string * list BucketFile.t) :=
  allowed <- _check_bucket_access user_id bucket_id "view";;
  if negb allowed then ret (false, "Access denied", [])
  else
    files <- get_files_by_bucket bucket_id;;
    let enriched_files :=
      (λ file_data,
         BucketFile.mk file_data (get_file_size_category cfg (FileInfo.size file_data)))
      <$> files in
    ret (true, "Files retrieved successfully", enriched_files).

(** [sum(f.get('size', 0) for f in files)] *)
Definition sum_sizes (files : list FileInfo.t) : Z :=
  foldr (λ f acc, FileInfo.size f + acc) 0 files.

(** An entry of [StorageManager.get_user_buckets]; [created_date] is always
    [None] and the display string is not part of the model. *)
Module BucketInfo.
Record t : Type := mk {
  bucket_id : string;
  bucket_name : string;
  file_count : Z;
  total_size : Z;
  is_shared : bool
}.
End BucketInfo.

(** [StorageManager.get_user_buckets(user_id)] *)
Definition sm_get_user_buckets (user_id : string) : M (bool * string * list BucketInfo.t) :=
  bucket_names <- get_user_buckets user_id;;
  buckets <-
    collect bucket_names (λ bucket_name,
      let bucket_id := user_id +:+ "_" +:+ bucket_name in
      files <- get_files_by_bucket bucket_id;;
      let total_size := sum_sizes files in
      let file_count := Z.of_nat (length files) in
      permissions <- get_permissions_by_bucket bucket_id;;
      ret (Some (BucketInfo.mk bucket_id bucket_name file_count total_size
                   (0 <? Z.of_nat (length permissions)))));;
  ret (true, "Buckets retrieved successfully", buckets).

(** One step of the file-type loop of [get_storage_stats]; a value of the
    dictionary is the pair of the count and the size. *)
Definition add_file_type (file_types : dict (Z * Z)) (file_data : FileInfo.t)
    : dict (Z * Z) :=
  let file_type := FileInfo.file_type file_data in
  match dict_get file_type file_types with
  | Some (count, size) =>
      dict_set file_type (count + 1, size + FileInfo.size file_data) file_types
  | None => dict_set file_type (1, FileInfo.size file_data) file_types
  end.

(** The statistics of [get_storage_stats]; the display strings and the
    floating-point [storage_used_percentage] are not part of the model. *)
Module StorageStats.
Record t : Type := mk {
  total_files : Z;
  total_size : Z;
  bucket_count : Z;
  file_types : dict (Z * Z);
  storage_limit : Z
}.
End StorageStats.

Definition get_storage_stats (cfg : config) (user_id : string) : M StorageStats.t :=
  user_files <- get_files_by_user user_id;;
  let total_files := Z.of_nat (length user_files) in
  let total_size := sum_sizes user_files in
  let file_types := foldl add_file_type [] user_files in
  buckets <- get_user_buckets user_id;;
  let bucket_count := Z.of_nat (length buckets) in
  ret (StorageStats.mk total_files total_size bucket_count file_types
         (MAX_STORAGE_PER_USER cfg)).

(** [l[:n]] *)
Definition slice_to {A} (n : Z) (l : list A) : list A :=
  if n <? 0 then take (length l - Z.to_nat (- n)) l else take (Z.to_nat n) l.

(** [get_recent_files(user_id, limit)], without the display string added
    to each record. *)
Definition get_recent_files (user_id : string) (limit : Z) : M (list FileInfo.t) :=
  user_files <- get_files_by_user user_id;;
  let sorted_files := sorted_reverse Str.leb FileInfo.upload_date user_files in
  ret (slice_to limit sorted_files).

(** *** [search.py] *)

(** [d[k] = d.get(k, 0) + 1] *)
Definition count_up (k : string) (d : dict Z) : dict Z :=
  dict_set k (default 0 (dict_get k d) + 1) d.

(** [d[k] += 1]; [None] stands for [KeyError]. *)
Definition incr (k : string) (d : dict Z) : option (dict Z) :=
  match dict_get k d with
  | Some v => Some (dict_set k (v + 1) d)
  | None => None
  end.

(** [max(d, key=d.get)]: the first key, in the order of the dictionary,
    whose value no other exceeds; [None] stands for [ValueError]. *)
Fixpoint max_key_from (best : string) (best_value : Z) (d : dict Z) : string :=
  match d with
  | [] => best
  | (k, v) :: d' =>
      if best_value <? v then max_key_from k v d' else max_key_from best best_value d'
  end.

Definition max_key (d : dict Z) : option string :=
  match d with
  | [] => None
  | (k, v) :: d' => Some (max_key_from k v d')
  end.

(** The method does not read its [filters] argument. *)
Definition _generate_search_suggestions (results : list Enriched.t) (query : string)
    (filters : option (dict string)) : list string :=
  let suggestions := [] in
  let suggestions :=
    if bool_decide (results = []) && Str.truthy query then
      suggestions ++ ["Try searching with fewer characters";
                      "Check spelling of your search term";
                      "Try searching without filters"]
    else suggestions in
  let suggestions :=
    if bool_decide (results ≠ []) then
      let file_types :=
        foldl (λ file_types file_data,
                 count_up (Hit.file_type (Enriched.hit file_data)) file_types)
          [] results in
      let suggestions :=
        if (1 <? length file_types)%nat then
          suggestions ++ ["Filter by '" +:+ default "" (max_key file_types)
                          +:+ "' files to narrow results"]
        else suggestions in
      if (20 <? length results)%nat then
        suggestions ++ ["Use date filters to find recent files";
                        "Filter by specific buckets to reduce results"]
      else suggestions
    else suggestions in
  take 3 suggestions.

(** The counters of the loop of [_generate_search_metadata]. *)
Module Facets.
Record t : Type := mk {
  file_types : dict Z;
  size_breakdown : dict Z;
  date_breakdown : dict Z;
  bucket_breakdown : dict Z;
  total_size : Z
}.
End Facets.

Definition facets_init : Facets.t :=
  Facets.mk [] [("small", 0); ("medium", 0); ("large", 0)]
    [("today", 0); ("week", 0); ("month", 0); ("older", 0)] [] 0.

(** The body of the loop; [None] stands for the [KeyError] of
    [size_breakdown[size_category] += 1]. *)
Definition facets_step (acc : Facets.t) (file_data : Enriched.t) : option Facets.t :=
  let file_type := Hit.file_type (Enriched.hit file_data) in
  let file_types := count_up file_type (Facets.file_types acc) in
  size_breakdown ← incr (Enriched.size_category file_data) (Facets.size_breakdown acc);
  let total_size := Facets.total_size acc + Hit.size (Enriched.hit file_data) in
  let days_ago := default 999 (Enriched.days_ago file_data) in
  date_breakdown ←
    incr (if days_ago =? 0 then "today"
          else if days_ago <=? 7 then "week"
          else if days_ago <=? 30 then "month"
          else "older") (Facets.date_breakdown acc);
  let bucket_name := default "Unknown" (Enriched.bucket_name file_data) in
  let bucket_owner := default "" (Enriched.bucket_owner file_data) in
  let bucket_key :=
    if Str.truthy bucket_owner then bucket_name +:+ " (" +:+ bucket_owner +:+ ")"
    else bucket_name in
  let bucket_breakdown := count_up bucket_key (Facets.bucket_breakdown acc) in
  Some (Facets.mk file_types size_breakdown date_breakdown bucket_breakdown total_size).

Fixpoint facets_loop (acc : Facets.t) (results : list Enriched.t) : option Facets.t :=
  match results with
  | [] => Some acc
  | file_data :: rest =>
      acc ← facets_step acc file_data;
      facets_loop acc rest
  end.

(** The value of [_generate_search_metadata]; the key [total_size] is
    absent when there is no result, and the display string is not part of
    the model. *)
Module SearchMetadata.
Record t : Type := mk {
  total_files : Z;
  total_size : option Z;
  file_types : dict Z;
  size_breakdown : dict Z;
  date_breakdown : dict Z;
  bucket_breakdown : dict Z;
  search_suggestions : list string
}.
End SearchMetadata.

Definition _generate_search_metadata (results : list Enriched.t) (query : string)
    (filters : option (dict string)) : option SearchMetadata.t :=
  if bool_decide (results = []) then Some (SearchMetadata.mk 0 None [] [] [] [] [])
  else
    acc ← facets_loop facets_init results;
    let suggestions := _generate_search_suggestions results query filters in
    Some (SearchMetadata.mk (Z.of_nat (length results)) (Some (Facets.total_size acc))
            (Facets.file_types acc) (Facets.size_breakdown acc)
            (Facets.date_breakdown acc) (Facets.bucket_breakdown acc) suggestions).

(** ** Example data

    Two users, one bucket of the first shared with the second, and three
    files in it. *)

Definition alice_id : string := "a1a1a1a1-0000-4000-8000-000000000001".
Definition bob_id : string := "b2b2b2b2-0000-4000-8000-000000000002".

Definition alice : User.t :=
  User.mk "alice@example.com" "pbkdf2:sha256:aaaa" alice_id "2024-01-01T09:00:00".
Definition bob : User.t :=
  User.mk "bob@example.com" "pbkdf2:sha256:bbbb" bob_id "2024-01-01T09:30:00".

Definition alice_docs : string := alice_id +:+ "_docs".

Definition demo_file (file_id file_name upload_date : string) : FileInfo.t :=
  FileInfo.mk file_id file_name (file_id +:+ ".pdf") "other" 2048 upload_date
    alice_docs "docs" alice_id
    (path_join (bucket_path alice_id "docs") (file_id +:+ ".pdf")).

Definition demo_entry (file_name upload_date : string) : SearchData.t :=
  SearchData.mk file_name "other" 2048 upload_date alice_docs alice_id.

Definition demo : state := {|
  users := [(alice_id, alice); (bob_id, bob)];
  permissions :=
    [(permission_id alice_docs bob_id,
      Permission.mk alice_docs alice_id bob_id "upload" "2024-03-01T08:00:00")];
  search_index :=
    [("f1", demo_entry "report.pdf" "2024-03-01T10:00:00");
     ("f2", demo_entry "myreport.pdf" "2024-03-05T10:00:00");
     ("f3", demo_entry "report_final.pdf" "2024-03-08T10:00:00")];
  file_metadata :=
    [("f1", demo_file "f1" "report.pdf" "2024-03-01T10:00:00");
     ("f2", demo_file "f2" "myreport.pdf" "2024-03-05T10:00:00");
     ("f3", demo_file "f3" "report_final.pdf" "2024-03-08T10:00:00")];
  dirs := [(alice_id, "docs"); (bob_id, "inbox")];
  disk :=
    [(path_join (bucket_path alice_id "docs") "f1.pdf", "%PDF-1");
     (path_join (bucket_path alice_id "docs") "f2.pdf", "%PDF-2");
     (path_join (bucket_path alice_id "docs") "f3.pdf", "%PDF-3")];
  writes := []
|}.

(** [datetime.now()] on the evening of 9 March 2024. *)
Definition demo_now : DT.datetime := DT.mk 2024 3 9 18 0 0 0.

(** A value of [str(uuid.uuid4())] for a new file. *)
Definition new_file_id : string := "9f9f9f9f-0000-4000-8000-000000000009".

(** The second user has a file of his own, uploaded on 6 March, and sees
    the first user's file, uploaded on 8 March, through the share. *)
Definition bob_inbox : string := bob_id +:+ "_inbox".

Definition ranking_demo : state := {|
  users := users demo;
  permissions := permissions demo;
  search_index :=
    [("g1", SearchData.mk "report_b.pdf" "other" 2048 "2024-03-06T10:00:00" bob_inbox bob_id);
     ("g2", SearchData.mk "report_a.pdf" "other" 2048 "2024-03-08T10:00:00" alice_docs alice_id)];
  file_metadata :=
    [("g1", FileInfo.mk "g1" "report_b.pdf" "g1.pdf" "other" 2048 "2024-03-06T10:00:00"
              bob_inbox "inbox" bob_id (path_join (bucket_path bob_id "inbox") "g1.pdf"));
     ("g2", FileInfo.mk "g2" "report_a.pdf" "g2.pdf" "other" 2048 "2024-03-08T10:00:00"
              alice_docs "docs" alice_id (path_join (bucket_path alice_id "docs") "g2.pdf"))];
  dirs := dirs demo;
  disk :=
    [(path_join (bucket_path bob_id "inbox") "g1.pdf", "%PDF-b");
     (path_join (bucket_path alice_id "docs") "g2.pdf", "%PDF-a")];
  writes := []
|}.

(** ** Notions used in the statements *)

(** The next [_write_json] goes through. *)
Definition next_write_ok (st : state) : Prop := next_write st = IoOk.

(** The outcome of [share_bucket], spelled out on the state. *)
Definition share_outcome (cfg : config) (now : DT.datetime)
    (owner_id bucket_id level : string) (u : User.t) (st : state) : bool * msg * state :=
  let pid := permission_id bucket_id (User.user_id u) in
  let st' := set_writes (tail (writes st)) st in
  match dict_get pid (permissions st) with
  | Some p =>
      match next_write st with
      | IoOk => (true, PermissionUpdatedTo (level_name cfg level),
                 set_permissions (dict_set pid (Permission.set_level level p) (permissions st)) st')
      | IoOpenError => (false, FailedToUpdatePermission, st')
      | IoDumpError => (false, FailedToUpdatePermission, set_permissions [] st')
      end
  | None =>
      let p := Permission.mk bucket_id owner_id (User.user_id u) level (DT.isoformat now) in
      match next_write st with
      | IoOk => (true, BucketSharedWith (level_name cfg level),
                 set_permissions (dict_set pid p (permissions st)) st')
      | IoOpenError => (false, FailedToShareBucket, st')
      | IoDumpError => (false, FailedToShareBucket, set_permissions [] st')
      end
  end.


(** Identifiers of users are UUIDs: they hold no underscore. *)
Definition users_wf (d : dict User.t) : Prop :=
  ∀ k u, (k, u) ∈ d → Str.has_char "_" (User.user_id u) = false.

(** The permissions file as the code writes it: distinct keys, each record
    under the key [permission_id] builds from its bucket and its grantee,
    the grantee being a user identifier. *)
Definition permissions_wf (d : dict Permission.t) : Prop :=
  dict_ok d
  ∧ ∀ k p, (k, p) ∈ d →
      k = permission_id (Permission.bucket_id p) (Permission.shared_with p)
      ∧ Str.has_char "_" (Permission.shared_with p) = false.

(** The permission records of a (bucket, grantee) pair. *)
Definition records_for (bucket_id grantee : string) (d : dict Permission.t)
    : list Permission.t :=
  filter (λ p, Permission.bucket_id p = bucket_id ∧ Permission.shared_with p = grantee)
    (dict_values d).

(** File validation as the specification words it: the size limit, then
    the blocked set, then the allowed set. *)
Definition validate_file_spec (secure_filename : string → string) (cfg : config)
    (file : FileStorage) : bool * msg :=
  if negb (Str.truthy (filename file)) then (false, NoFileProvided)
  else if negb (content_length file =? 0) && (MAX_FILE_SIZE cfg <? content_length file)
  then (false, FileTooLarge)
  else
    let file_ext := Str.lower (Path.suffix (secure_filename (filename file))) in
    if str_in file_ext (BLOCKED_EXTENSIONS cfg) then (false, FileTypeBlocked)
    else if bool_decide (ALLOWED_EXTENSIONS cfg ≠ [])
            && negb (str_in file_ext (ALLOWED_EXTENSIONS cfg))
    then (false, FileTypeNotAllowed)
    else (true, FileValid).

(** The outcome of the write after the next one. *)
Definition second_write (st : state) : io_result :=
  default IoOk (head (tail (writes st))).

(** The metadata record and the search-index entry that [upload_file]
    builds. *)
Definition upload_record (secure_filename : string → string) (cfg : config)
    (file_id : string) (now : DT.datetime) (user_id bucket_name : string)
    (file : FileStorage) : FileInfo.t :=
  let original_filename := secure_filename (filename file) in
  let unique_filename := file_id +:+ Path.suffix original_filename in
  FileInfo.mk file_id original_filename unique_filename
    (_get_file_type cfg original_filename)
    (Z.of_nat (String.length (data file))) (DT.isoformat now)
    (user_id +:+ "_" +:+ bucket_name) bucket_name user_id
    (path_join (bucket_path user_id bucket_name) unique_filename).

Definition search_entry_of (f : FileInfo.t) : SearchData.t :=
  SearchData.mk (FileInfo.file_name f) (FileInfo.file_type f) (FileInfo.size f)
    (FileInfo.upload_date f) (FileInfo.bucket_id f) (FileInfo.user_id f).

(** Every forthcoming write goes through. *)
Definition all_writes_ok (st : state) : Prop := Forall (λ w, w = IoOk) (writes st).

(** The metadata file as [add_file_metadata] writes it: distinct keys, each
    record under its own [file_id]. *)
Definition metadata_wf (d : dict FileInfo.t) : Prop :=
  dict_ok d ∧ ∀ k m, (k, m) ∈ d → FileInfo.file_id m = k.

(** The search index in step with the metadata: each entry has a metadata
    record, of the same bucket. *)
Definition lockstep (st : state) : Prop :=
  ∀ k s, (k, s) ∈ search_index st →
    ∃ m, (k, m) ∈ file_metadata st ∧ FileInfo.bucket_id m = SearchData.bucket_id s.

(** The relevance score as the specification words it: the strength of
    the match of the file name, the recency of the upload, and five points
    when the user who searches is the owner of the file. *)
Definition relevance_score_spec (requesting_user query : string) (e : Enriched.t) : Z :=
  let filename := Str.lower (Hit.file_name (Enriched.hit e)) in
  let q := Str.lower query in
  let days_ago := default 999 (Enriched.days_ago e) in
  (if Str.eqb q filename then 100
   else if Str.startswith filename q then 50
   else if Str.contains q filename then 25
   else 0)
  + (if days_ago <=? 7 then 10 else if days_ago <=? 30 then 5 else 0)
  + (if Str.eqb (Hit.user_id (Enriched.hit e)) requesting_user then 5 else 0).

(** Descending order of a list under a key. *)
Definition sorted_desc {A K} (leb : K → K → bool) (key : A → K) (l : list A) : Prop :=
  StronglySorted (λ x y, leb (key y) (key x) = true) l.

(** ** Notions used in the further statements *)

(** The entry that [get_shared_buckets] builds from a permission record. *)
Definition shared_entry (cfg : config) (st : state) (perm : Permission.t)
    : option Bucket.t :=
  match Str.split1 "_" (Permission.bucket_id perm) with
  | [owner_id; bucket_name] =>
      match dict_get owner_id (users st) with
      | Some owner_info =>
          Some (Bucket.mk (Permission.bucket_id perm) bucket_name owner_id
                  (Some (User.email owner_info)) (Permission.permission_level perm)
                  (level_display cfg (Permission.permission_level perm))
                  (Some (Permission.created_date perm)) true)
      | None => None
      end
  | _ => None
  end.


(** The test that [Database.search_files] applies to an entry of the
    index: the bucket is accessible, the query is empty or occurs in the
    file name, and the filters, when given, pass. *)
Definition search_match (cfg : config) (now : DT.datetime) (st : state)
    (query user_id : string) (filters : option (dict string))
    (file_id : string) (search_data : SearchData.t) : bool :=
  str_in (SearchData.bucket_id search_data) (_get_accessible_bucket_ids user_id st).1
  && (negb (Str.truthy query)
      || Str.contains (Str.lower query) (Str.lower (SearchData.file_name search_data)))
  && match filters_given filters with
     | Some f =>
         _apply_filters cfg now search_data (dict_get file_id (file_metadata st)) f
     | None => true
     end.

(** The sum of the values of a dictionary of counters. *)
Definition dict_total {K} (d : list (K * Z)) : Z := foldr (λ kv acc, kv.2 + acc) 0 d.
Example lower_mixed : Str.lower "MyReport.PDF" = "myreport.pdf".
Proof. reflexivity. Qed.

Example split1_bucket : Str.split1 "_" "u1_my_bucket" = ["u1"; "my_bucket"].
Proof. reflexivity. Qed.

Example split1_none : Str.split1 "_" "plain" = ["plain"].
Proof. reflexivity. Qed.

Example strip_blank : Str.strip "   " = "" ∧ Str.strip "  a b  " = "a b".
Proof. split; reflexivity. Qed.

Example contains_inner :
  Str.contains "report" "myreport.pdf" = true ∧
  Str.startswith "myreport.pdf" "report" = false.
Proof. split; reflexivity. Qed.

Example isoformat_us :
  DT.isoformat (DT.mk 2024 3 9 7 5 0 1234) = "2024-03-09T07:05:00.001234".
Proof. reflexivity. Qed.

Example fromisoformat_naive :
  DT.fromisoformat "2024-03-09T07:05:00.001234" = Some (DT.mk 2024 3 9 7 5 0 1234, false)
  ∧ DT.fromisoformat "2024-03-09T07:05:00" = Some (DT.mk 2024 3 9 7 5 0 0, false)
  ∧ DT.fromisoformat "2024-02-30T07:05:00" = None
  ∧ DT.fromisoformat (Str.replace_Z "2024-03-09T07:05:00Z") = Some (DT.mk 2024 3 9 7 5 0 0, true).
Proof. repeat split; reflexivity. Qed.

(** [date(2024, 1, 1).toordinal() == 738886]; one hour short of a day is
    zero whole days, one hour before is minus one. *)
Example ordinal_2024 : DT.toordinal (DT.mk 2024 1 1 0 0 0 0) = 738886.
Proof. reflexivity. Qed.

Example sub_days_floor :
  DT.sub_days (DT.mk 2024 1 2 1 0 0 0) (DT.mk 2024 1 1 23 0 0 0) = 0
  ∧ DT.sub_days (DT.mk 2024 1 1 23 0 0 0) (DT.mk 2024 1 2 0 0 0 0) = -1
  ∧ DT.sub_days (DT.mk 2024 3 1 0 0 0 0) (DT.mk 2024 2 1 0 0 0 0) = 29.
Proof. repeat split; reflexivity. Qed.

Section DictFacts.
Context {V : Type}.
Implicit Types (k : string) (v : V) (d : dict V).

Lemma str_eqb_true a b : Str.eqb a b = true ↔ a = b.
Proof. apply String.eqb_eq. Qed.

Lemma str_eqb_false a b : Str.eqb a b = false ↔ a ≠ b.
Proof. apply String.eqb_neq. Qed.

Lemma str_eqb_refl a : Str.eqb a a = true.
Proof. by apply str_eqb_true. Qed.

Lemma dict_get_set_eq k v d : dict_get k (dict_set k v d) = Some v.
Proof.
  induction d as [|[k' v'] d IH]; simpl.
  - by rewrite str_eqb_refl.
  - destruct (Str.eqb k' k) eqn:E; simpl.
    + by rewrite str_eqb_refl.
    + by rewrite E.
Qed.

Lemma dict_get_set_ne k k' v d :
  k ≠ k' → dict_get k' (dict_set k v d) = dict_get k' d.
Proof.
  intros Hne. induction d as [|[k0 v0] d IH]; simpl.
  - by apply str_eqb_false in Hne as ->.
  - destruct (Str.eqb k0 k) eqn:E; simpl.
    + apply str_eqb_true in E as ->.
      by apply str_eqb_false in Hne as ->.
    + by rewrite IH.
Qed.

Lemma dict_get_del_eq k d : dict_get k (dict_del k d) = None.
Proof.
  induction d as [|[k' v'] d IH]; simpl; [done|].
  destruct (Str.eqb k' k) eqn:E; simpl; [done|]. by rewrite E.
Qed.

Lemma dict_get_del_ne k k' d :
  k ≠ k' → dict_get k' (dict_del k d) = dict_get k' d.
Proof.
  intros Hne. induction d as [|[k0 v0] d IH]; simpl; [done|].
  destruct (Str.eqb k0 k) eqn:E; simpl.
  - apply str_eqb_true in E as ->.
    by apply str_eqb_false in Hne as ->.
  - by rewrite IH.
Qed.

Lemma dict_get_Some_elem k v d : dict_get k d = Some v → (k, v) ∈ d.
Proof.
  induction d as [|[k' v'] d IH]; simpl; [done|].
  destruct (Str.eqb k' k) eqn:E.
  - apply str_eqb_true in E as ->. intros [= ->]. left.
  - intros H. right. by apply IH.
Qed.

Lemma dict_get_None_keys k d : dict_get k d = None ↔ k ∉ dict_keys d.
Proof.
  unfold dict_keys. induction d as [|[k' v'] d IH]; simpl.
  - split; [intros _; apply not_elem_of_nil | done].
  - rewrite not_elem_of_cons. destruct (Str.eqb k' k) eqn:E.
    + apply str_eqb_true in E as ->. split; [done | by intros [? _]].
    + apply str_eqb_false in E. rewrite IH. naive_solver.
Qed.

Lemma dict_elem_get k v d : dict_ok d → (k, v) ∈ d → dict_get k d = Some v.
Proof.
  unfold dict_ok, dict_keys.
  induction d as [|[k' v'] d IH]; csimpl; [by intros _ ?%elem_of_nil|].
  rewrite NoDup_cons. intros [Hnin Hnd] Hin.
  apply elem_of_cons in Hin as [[= -> ->]|Hin].
  - by rewrite str_eqb_refl.
  - destruct (Str.eqb k' k) eqn:E.
    + apply str_eqb_true in E as ->. exfalso. apply Hnin.
      apply list_elem_of_fmap. by exists (k, v).
    + by apply IH.
Qed.

Lemma dict_keys_set k v d :
  dict_keys (dict_set k v d) =
    if dict_mem k d then dict_keys d else dict_keys d ++ [k].
Proof.
  unfold dict_mem, dict_keys. induction d as [|[k' v'] d IH]; csimpl; [done|].
  destruct (Str.eqb k' k) eqn:E; csimpl.
  - by apply str_eqb_true in E as ->.
  - rewrite IH. by destruct (dict_get k d).
Qed.

Lemma dict_ok_set k v d : dict_ok d → dict_ok (dict_set k v d).
Proof.
  unfold dict_ok. rewrite dict_keys_set. unfold dict_mem.
  destruct (dict_get k d) eqn:E; [done|]. intros Hnd.
  apply NoDup_app. split_and!; [done| |apply NoDup_singleton].
  intros x Hx ->%list_elem_of_singleton.
  by apply dict_get_None_keys in E.
Qed.

Lemma dict_elem_del k k' v d :
  (k', v) ∈ dict_del k d ↔ (k', v) ∈ d ∧ k' ≠ k.
Proof.
  induction d as [|[k0 v0] d IH]; simpl.
  - split; [by intros ?%elem_of_nil | by intros [?%elem_of_nil _]].
  - destruct (Str.eqb k0 k) eqn:E.
    + apply str_eqb_true in E as ->. rewrite IH, elem_of_cons. naive_solver.
    + apply str_eqb_false in E. rewrite !elem_of_cons, IH. naive_solver.
Qed.

Lemma dict_ok_del k d : dict_ok d → dict_ok (dict_del k d).
Proof.
  unfold dict_ok, dict_keys. induction d as [|[k0 v0] d IH]; simpl; [done|].
  rewrite NoDup_cons. intros [Hnin Hnd].
  destruct (Str.eqb k0 k) eqn:E; simpl; [by apply IH|].
  apply NoDup_cons. split; [|by apply IH].
  intros ([k1 v1] & ? & [Hin _]%dict_elem_del)%list_elem_of_fmap; simplify_eq/=.
  apply Hnin, list_elem_of_fmap. by exists (k1, v1).
Qed.

Lemma dict_elem_set k v k' v' d :
  dict_ok d →
  (k', v') ∈ dict_set k v d ↔ (k' = k ∧ v' = v) ∨ ((k', v') ∈ d ∧ k' ≠ k).
Proof.
  intros Hok. split.
  - intros Hin. destruct (decide (k' = k)) as [->|Hne].
    + left. split; [done|].
      apply dict_elem_get in Hin; [|by apply dict_ok_set].
      rewrite dict_get_set_eq in Hin. congruence.
    + right. split; [|done].
      apply dict_elem_get in Hin; [|by apply dict_ok_set].
      rewrite dict_get_set_ne in Hin by done.
      by apply dict_get_Some_elem.
  - intros [[-> ->]|[Hin Hne]]; apply dict_get_Some_elem.
    + apply dict_get_set_eq.
    + rewrite dict_get_set_ne by done. by apply dict_elem_get.
Qed.

Lemma dict_mem_true k d : dict_mem k d = true ↔ is_Some (dict_get k d).
Proof.
  unfold dict_mem. destruct (dict_get k d); split; try done.
Qed.

End DictFacts.


Example secure_filename_examples :
  Werkzeug.secure_filename "My cool movie.mov" = "My_cool_movie.mov"
  ∧ Werkzeug.secure_filename "../../../etc/passwd" = "etc_passwd"
  ∧ Werkzeug.secure_filename "a $b.txt" = "a_b.txt"
  ∧ Werkzeug.secure_filename "  .hidden_  " = "hidden".
Proof. repeat split; reflexivity. Qed.

Example suffix_examples :
  Path.suffix "report.final.PDF" = ".PDF" ∧ Path.suffix "archive" = ""
  ∧ Path.suffix ".bashrc" = "" ∧ Path.suffix "name." = ""
  ∧ Path.suffix "dir.d/readme" = "".
Proof. repeat split; reflexivity. Qed.

(** Python sorts Booleans, numbers and strings in the same way: the sort
    is stable, also when reversed. *)
Example sorted_reverse_stable :
  sorted_reverse Z.leb fst [(1, "a"); (2, "b"); (1, "c"); (2, "d")]
  = [(2, "b"); (2, "d"); (1, "a"); (1, "c")].
Proof. reflexivity. Qed.

(** * Properties *)

(** Unfolds the monadic plumbing of a computation applied to a state. *)
Ltac mred :=
  cbv [bind ret gets modify _read_json load store
       USERS_FILE PERMISSIONS_FILE SEARCH_INDEX_FILE FILE_METADATA_FILE] in *.

(** ** Authorization ([check_permission_level], [can_perform_action]) *)

Lemma check_permission_level_run st user_id bucket_id :
  check_permission_level user_id bucket_id st =
    (if owner_prefix_is bucket_id user_id then "owner"
     else match dict_get (permission_id bucket_id user_id) (permissions st) with
          | Some p => Permission.permission_level p
          | None => "none"
          end, st).
Proof.
  unfold check_permission_level, get_permission. mred.
  destruct (owner_prefix_is bucket_id user_id); [done|].
  by destruct (dict_get _ _).
Qed.

Lemma can_perform_action_run st user_id bucket_id action :
  can_perform_action user_id bucket_id action st =
    (let level := (check_permission_level user_id bucket_id st).1 in
     if Str.eqb level "owner" then true
     else if Str.eqb level "full" then true
     else if Str.eqb level "upload" then str_in action ["view"; "upload"]
     else if Str.eqb level "view" then Str.eqb action "view"
     else false, st).
Proof.
  unfold can_perform_action. unfold bind at 1.
  rewrite check_permission_level_run. cbn [fst snd].
  repeat (case_match; try done).
Qed.



(** ** Sharing ([share_bucket]) *)

Lemma write_json_ok {D} (f : json_file D) (d : dict D) st :
  next_write_ok st →
  _write_json f d st = (true, store f d (set_writes (tail (writes st)) st)).
Proof. unfold _write_json, next_write_ok. intros H. by rewrite H. Qed.

Lemma write_json_success {D} (f : json_file D) (d : dict D) st :
  (_write_json f d st).1 = true ↔ next_write_ok st.
Proof. unfold _write_json, next_write_ok. by destruct (next_write st). Qed.

Lemma get_user_by_email_run email st :
  get_user_by_email email st =
    (snd <$> list_find (λ u, User.email u = email) (dict_values (users st)), st).
Proof. reflexivity. Qed.

Lemma share_bucket_run cfg now st owner_id bucket_id email level :
  share_bucket cfg now owner_id bucket_id email level st =
    if negb (dict_mem level (PERMISSION_LEVELS cfg)) then (false, InvalidPermissionLevel, st)
    else if negb (owner_prefix_is bucket_id owner_id) then (false, ShareOwnBucketsOnly, st)
    else match (get_user_by_email email st).1 with
         | None => (false, UserNotFound, st)
         | Some u =>
             if Str.eqb (User.user_id u) owner_id then (false, CannotShareWithYourself, st)
             else share_outcome cfg now owner_id bucket_id level u st
         end.
Proof.
  unfold share_bucket, share_outcome. rewrite get_user_by_email_run. cbn [fst].
  destruct (dict_mem level _); cbn [negb]; [|done].
  destruct (owner_prefix_is bucket_id owner_id); cbn [negb]; [|done].
  unfold bind at 1. rewrite get_user_by_email_run.
  destruct (list_find _ _) as [[i u]|]; cbn [fmap option_fmap option_map snd]; [|done].
  destruct (Str.eqb (User.user_id u) owner_id); [done|].
  unfold get_permission, update_permission, add_permission, _write_json.
  mred.
  destruct (dict_get _ (permissions st)) eqn:Hget; rewrite ?Hget;
    by destruct (next_write st).
Qed.

(** [share_bucket] fails in five cases and no other: the level is not a
    permission level, the owner prefix of the bucket identifier is not the
    caller, no user has the e-mail address, the user found is the caller,
    the write of the permissions file fails. *)
Lemma share_bucket_fails_iff cfg now st owner_id bucket_id email level :
  (share_bucket cfg now owner_id bucket_id email level st).1.1 = false ↔
    dict_mem level (PERMISSION_LEVELS cfg) = false
    ∨ owner_prefix_is bucket_id owner_id = false
    ∨ (get_user_by_email email st).1 = None
    ∨ (∃ u, (get_user_by_email email st).1 = Some u ∧ User.user_id u = owner_id)
    ∨ ¬ next_write_ok st.
Proof.
  rewrite share_bucket_run. unfold share_outcome, next_write_ok.
  destruct (dict_mem level _); cbn [negb]; [|cbn; naive_solver].
  destruct (owner_prefix_is bucket_id owner_id); cbn [negb]; [|cbn; naive_solver].
  destruct (get_user_by_email email st).1 as [u|]; [|cbn; naive_solver].
  destruct (Str.eqb (User.user_id u) owner_id) eqn:Hself.
  { apply str_eqb_true in Hself. cbn. naive_solver. }
  apply str_eqb_false in Hself.
  destruct (dict_get _ (permissions st)); destruct (next_write st); cbn; naive_solver.
Qed.

Lemma split_first_app sep a b :
  Str.has_char sep a = false →
  Str.split_first sep (a +:+ String sep b) = Some (a, b).
Proof.
  induction a as [|c a IH]; intros Hno.
  - change (Str.split_first sep (String sep b) = Some (EmptyString, b)).
    cbn [Str.split_first]. by rewrite Ascii.eqb_refl.
  - change (Str.split_first sep (String c (a +:+ String sep b)) = Some (String c a, b)).
    cbn [Str.split_first Str.has_char] in *.
    apply orb_false_iff in Hno as [-> Hno]. by rewrite IH.
Qed.

(** An identifier built from an underscore-free owner identifier has that
    owner as its prefix. *)
Lemma owner_prefix_is_own owner_id name :
  Str.has_char "_" owner_id = false →
  owner_prefix_is (owner_id +:+ "_" +:+ name) owner_id = true.
Proof.
  intros Hno. unfold owner_prefix_is, Str.split1.
  change ("_" +:+ name) with (String "_"%char name).
  rewrite split_first_app by done. cbn. apply str_eqb_refl.
Qed.

Lemma share_bucket_dirs cfg now st owner_id bucket_id email level d :
  share_bucket cfg now owner_id bucket_id email level (set_dirs d st) =
    let r := share_bucket cfg now owner_id bucket_id email level st in
    (r.1, set_dirs d r.2).
Proof.
  rewrite !share_bucket_run. rewrite !get_user_by_email_run.
  unfold share_outcome, next_write. cbn [fst snd users permissions writes set_dirs].
  repeat (case_match; try done).
Qed.

(** C10.  [share_bucket] does not look at the bucket directories.  Its
    failure conditions are an invalid level, an owner prefix that is not the
    caller, an unknown e-mail address, a share with oneself and a failed
    write; its outcome is the same whatever directories exist; and for an
    owner identifier without underscore, a bucket name that is no directory
    of the owner, a registered grantee other than the owner, a valid level
    and a write that goes through, it succeeds and leaves a permission
    record with that level for the bucket that does not exist (exactly the
    new record when the pair had none). *)
Theorem share_bucket_never_checks_bucket cfg now st owner_id name email level :
  let bucket_id := owner_id +:+ "_" +:+ name in
  let r := share_bucket cfg now owner_id bucket_id email level st in
  (r.1.1 = false ↔
     dict_mem level (PERMISSION_LEVELS cfg) = false
     ∨ owner_prefix_is bucket_id owner_id = false
     ∨ (get_user_by_email email st).1 = None
     ∨ (∃ u, (get_user_by_email email st).1 = Some u ∧ User.user_id u = owner_id)
     ∨ ¬ next_write_ok st)
  ∧ (∀ d, share_bucket cfg now owner_id bucket_id email level (set_dirs d st)
          = (r.1, set_dirs d r.2))
  ∧ (∀ u,
       Str.has_char "_" owner_id = false →
       name ∉ (get_user_buckets owner_id st).1 →
       dict_mem level (PERMISSION_LEVELS cfg) = true →
       (get_user_by_email email st).1 = Some u →
       User.user_id u ≠ owner_id →
       next_write_ok st →
       let pid := permission_id bucket_id (User.user_id u) in
       r.1.1 = true
       ∧ (∃ p, dict_get pid (permissions r.2) = Some p
               ∧ Permission.permission_level p = level)
       ∧ (dict_get pid (permissions st) = None →
          dict_get pid (permissions r.2) =
            Some (Permission.mk bucket_id owner_id (User.user_id u) level
                    (DT.isoformat now)))).
Proof.
  intros bucket_id r. split_and!.
  - apply share_bucket_fails_iff.
  - intros d. apply share_bucket_dirs.
  - intros u Hno _ Hlevel Hu Hother Hw pid.
    subst r pid bucket_id. rewrite share_bucket_run, Hlevel, Hu.
    rewrite owner_prefix_is_own by done.
    apply str_eqb_false in Hother as ->. cbn [negb].
    unfold share_outcome. rewrite Hw.
    destruct (dict_get _ (permissions st)) as [p|] eqn:Hget;
      cbn [fst snd permissions set_permissions];
      rewrite dict_get_set_eq; split_and!; try done; by eexists.
Qed.

(** Witness of C10: the first example user shares a bucket named [ghost],
    of which there is no directory, with the second. *)
Lemma share_bucket_never_checks_bucket_witness :
  let bucket_id := alice_id +:+ "_" +:+ "ghost" in
  let r := share_bucket Config demo_now alice_id bucket_id "bob@example.com" "view" demo in
  ("ghost" ∉ (get_user_buckets alice_id demo).1)
  ∧ r.1.1 = true
  ∧ dict_get (permission_id bucket_id bob_id) (permissions r.2)
    = Some (Permission.mk bucket_id alice_id bob_id "view" (DT.isoformat demo_now)).
Proof.
  intros bucket_id r.
  assert (Hfresh : "ghost" ∉ (get_user_buckets alice_id demo).1).
  { vm_compute. intros [=]%list_elem_of_singleton. }
  split; [exact Hfresh|].
  pose proof (proj2 (proj2
    (share_bucket_never_checks_bucket Config demo_now demo alice_id "ghost"
       "bob@example.com" "view")) bob eq_refl Hfresh eq_refl eq_refl) as H.
  destruct H as (Hok & _ & Hnew); [discriminate | reflexivity |].
  split; [exact Hok | apply Hnew; reflexivity].
Defined.

(** ** One record per (bucket, grantee) pair *)

Lemma append_nil s : "" +:+ s = s.
Proof. reflexivity. Qed.

Lemma append_cons c a b : String c a +:+ b = String c (a +:+ b).
Proof. reflexivity. Qed.

Lemma has_char_app sep a b : Str.has_char sep (a +:+ String sep b) = true.
Proof.
  induction a as [|c a IH]; rewrite ?append_nil, ?append_cons; cbn [Str.has_char].
  - by rewrite Ascii.eqb_refl.
  - rewrite IH. apply orb_true_r.
Qed.

(** For identifiers without underscore, [permission_id] determines the
    pair. *)
Lemma permission_id_inj b g b' g' :
  Str.has_char "_" g = false → Str.has_char "_" g' = false →
  permission_id b g = permission_id b' g' → b = b' ∧ g = g'.
Proof.
  unfold permission_id. intros Hg Hg'.
  change ("_" +:+ g) with (String "_"%char g).
  change ("_" +:+ g') with (String "_"%char g').
  revert b'. induction b as [|c b IH]; intros [|c' b'];
    rewrite ?append_nil, ?append_cons.
  - by intros [= ->].
  - intros [= <- ->]. by rewrite has_char_app in Hg.
  - intros [= -> <-]. by rewrite has_char_app in Hg'.
  - intros [= -> H]. by destruct (IH _ H) as [-> ->].
Qed.

Lemma filter_none {A} (P : A → Prop) `{!∀ x, Decision (P x)} (l : list A) :
  (∀ x, x ∈ l → ¬ P x) → filter P l = [].
Proof.
  induction l as [|x l IH]; intros Hno; [done|].
  rewrite filter_cons_False by (apply Hno; left).
  apply IH. intros y Hy. apply Hno. by right.
Qed.

Lemma dict_filter_singleton {V} (P : V → Prop) `{!∀ v, Decision (P v)} k v (d : dict V) :
  dict_ok d → dict_get k d = Some v → P v →
  (∀ k' v', (k', v') ∈ d → P v' → k' = k) →
  filter P (dict_values d) = [v].
Proof.
  unfold dict_ok, dict_keys, dict_values.
  induction d as [|[k0 v0] d IH]; csimpl; [done|].
  rewrite NoDup_cons. intros [Hnin Hnd] Hget HP Huniq.
  destruct (Str.eqb k0 k) eqn:E.
  - apply str_eqb_true in E as ->. simplify_eq. rewrite filter_cons_True by done.
    f_equal. apply filter_none. intros v' Hv' HP'.
    apply list_elem_of_fmap in Hv' as ([k' v''] & -> & Hin). cbn in HP'.
    assert (k' = k) as -> by (eapply Huniq; [by right|done]).
    apply Hnin. apply list_elem_of_fmap. by exists (k, v'').
  - rewrite filter_cons_False.
    + apply IH; try done. intros k' v' Hin. apply Huniq. by right.
    + intros HP0. apply str_eqb_false in E. apply E. eapply Huniq; [left|done].
Qed.

Lemma get_user_by_email_elem email st u :
  (get_user_by_email email st).1 = Some u → ∃ k, (k, u) ∈ users st.
Proof.
  rewrite get_user_by_email_run. cbn [fst].
  destruct (list_find _ _) as [[i u']|] eqn:Hfind; [|done].
  intros [= ->]. apply list_find_Some in Hfind as (Hi & _ & _).
  apply list_elem_of_lookup_2 in Hi.
  apply list_elem_of_fmap in Hi as ([k u'] & -> & Hin). by exists k.
Qed.

(** What a successful [share_bucket] has done. *)
Lemma share_bucket_success cfg now st owner_id bucket_id email level r st' :
  share_bucket cfg now owner_id bucket_id email level st = (r, st') →
  r.1 = true →
  ∃ u, (get_user_by_email email st).1 = Some u
    ∧ users st' = users st
    ∧ permissions st' =
        dict_set (permission_id bucket_id (User.user_id u))
          (match dict_get (permission_id bucket_id (User.user_id u)) (permissions st) with
           | Some p => Permission.set_level level p
           | None => Permission.mk bucket_id owner_id (User.user_id u) level
                       (DT.isoformat now)
           end) (permissions st)
    ∧ r.2 = (match dict_get (permission_id bucket_id (User.user_id u)) (permissions st) with
             | Some _ => PermissionUpdatedTo (level_name cfg level)
             | None => BucketSharedWith (level_name cfg level)
             end).
Proof.
  rewrite share_bucket_run. unfold share_outcome.
  destruct (dict_mem level _); cbn [negb]; [|by intros [= <- <-]].
  destruct (owner_prefix_is bucket_id owner_id); cbn [negb]; [|by intros [= <- <-]].
  destruct (get_user_by_email email st).1 as [u|]; [|by intros [= <- <-]].
  destruct (Str.eqb (User.user_id u) owner_id); [by intros [= <- <-]|].
  destruct (dict_get _ (permissions st)) eqn:Hget; destruct (next_write st);
    intros [= <- <-]; try done; intros _; exists u; by rewrite ?Hget.
Qed.

Lemma permissions_wf_set d k p :
  permissions_wf d →
  k = permission_id (Permission.bucket_id p) (Permission.shared_with p) →
  Str.has_char "_" (Permission.shared_with p) = false →
  permissions_wf (dict_set k p d).
Proof.
  intros [Hok Hwf] Hk Hp. split; [by apply dict_ok_set|].
  intros k' p' [[-> ->]|[Hin _]]%dict_elem_set; [done| by apply Hwf | done].
Qed.

(** In a well-formed permissions file, the record under the key of a pair
    of a bucket and an underscore-free grantee is the one record of the
    pair. *)
Lemma records_for_get d bucket_id grantee p :
  permissions_wf d → Str.has_char "_" grantee = false →
  dict_get (permission_id bucket_id grantee) d = Some p →
  records_for bucket_id grantee d = [p].
Proof.
  intros [Hok Hwf] Hg Hget. unfold records_for.
  apply dict_filter_singleton with (k := permission_id bucket_id grantee); try done.
  - apply dict_get_Some_elem, Hwf in Hget as [Hk Hp].
    by apply permission_id_inj in Hk as [-> ->].
  - intros k' p' [-> _]%Hwf [-> ->]. done.
Qed.

(** [share_bucket] keeps the permissions file well formed. *)
Lemma share_bucket_preserves_wf cfg now st owner_id bucket_id email level :
  users_wf (users st) →
  permissions_wf (permissions st) →
  permissions_wf (permissions (share_bucket cfg now owner_id bucket_id email level st).2).
Proof.
  intros Hu Hwf. rewrite share_bucket_run. unfold share_outcome.
  destruct (dict_mem level _); cbn [negb]; [|done].
  destruct (owner_prefix_is bucket_id owner_id); cbn [negb]; [|done].
  destruct (get_user_by_email email st).1 as [u|] eqn:Hfind; [|done].
  destruct (Str.eqb (User.user_id u) owner_id); [done|].
  assert (Hg : Str.has_char "_" (User.user_id u) = false).
  { destruct (get_user_by_email_elem email st u Hfind) as [k Hk]. by eapply Hu. }
  assert (Hempty : permissions_wf []).
  { split; [apply NoDup_nil_2 | by intros k p ?%elem_of_nil]. }
  destruct (dict_get _ (permissions st)) as [p|] eqn:Hget; destruct (next_write st);
    cbn [snd permissions set_permissions set_writes]; try done.
  - apply dict_get_Some_elem in Hget. destruct Hwf as [Hok Hrec].
    destruct (Hrec _ _ Hget) as [Hk Hs]. by apply permissions_wf_set.
  - by apply permissions_wf_set.
Qed.

(** C6.  In a state whose user identifiers hold no underscore and whose
    permissions file is well formed, two successive successful shares of a
    bucket with the same grantee leave exactly one permission record for
    the pair, with the level of the second share; the second share reports
    an update, creates no key and changes no other record. *)
Theorem share_bucket_twice cfg now1 now2 st owner_id bucket_id email level1 level2
    r1 st1 r2 st2 :
  users_wf (users st) →
  permissions_wf (permissions st) →
  share_bucket cfg now1 owner_id bucket_id email level1 st = (r1, st1) →
  r1.1 = true →
  share_bucket cfg now2 owner_id bucket_id email level2 st1 = (r2, st2) →
  r2.1 = true →
  ∃ u p,
    (get_user_by_email email st).1 = Some u
    ∧ records_for bucket_id (User.user_id u) (permissions st2) = [p]
    ∧ Permission.permission_level p = level2
    ∧ r2.2 = PermissionUpdatedTo (level_name cfg level2)
    ∧ dict_keys (permissions st2) = dict_keys (permissions st1)
    ∧ (∀ k, k ≠ permission_id bucket_id (User.user_id u) →
            dict_get k (permissions st2) = dict_get k (permissions st1)).
Proof.
  intros Hu Hwf H1 Hok1 H2 Hok2.
  apply share_bucket_success in H1 as (u & Hfind & Husers1 & Hperm1 & _); [|done].
  apply share_bucket_success in H2 as (u' & Hfind' & _ & Hperm2 & Hmsg); [|done].
  rewrite get_user_by_email_run in Hfind, Hfind'. cbn [fst] in Hfind, Hfind'.
  rewrite Husers1, Hfind in Hfind'. injection Hfind' as <-.
  set (pid := permission_id bucket_id (User.user_id u)) in *.
  assert (Hg : Str.has_char "_" (User.user_id u) = false).
  { destruct (get_user_by_email_elem email st u) as [k Hk]; [exact Hfind|].
    by eapply Hu. }
  assert (∃ p1, dict_get pid (permissions st1) = Some p1
                ∧ pid = permission_id (Permission.bucket_id p1) (Permission.shared_with p1)
                ∧ Str.has_char "_" (Permission.shared_with p1) = false)
    as (p1 & Hget1 & Hk1 & Hs1).
  { rewrite Hperm1. eexists. rewrite dict_get_set_eq. split; [done|].
    destruct (dict_get pid (permissions st)) as [p0|] eqn:Hget0; [|done].
    apply dict_get_Some_elem in Hget0. by apply Hwf in Hget0. }
  assert (Hwf1 : permissions_wf (permissions st1)).
  { rewrite Hperm1. apply permissions_wf_set; [done| |].
    - rewrite Hperm1, dict_get_set_eq in Hget1. by injection Hget1 as ->.
    - rewrite Hperm1, dict_get_set_eq in Hget1. by injection Hget1 as ->. }
  rewrite Hget1 in Hperm2, Hmsg.
  exists u, (Permission.set_level level2 p1). split_and!; try done.
  - apply records_for_get; [|done|].
    + rewrite Hperm2. by apply permissions_wf_set.
    + rewrite Hperm2. apply dict_get_set_eq.
  - rewrite Hperm2, dict_keys_set. unfold dict_mem. by rewrite Hget1.
  - intros k Hne. rewrite Hperm2. by apply dict_get_set_ne.
Qed.

Lemma demo_users_wf : users_wf (users demo).
Proof.
  intros k u H. cbn in H.
  repeat (apply elem_of_cons in H as [[= -> ->]|H]; [reflexivity|]).
  by apply elem_of_nil in H.
Qed.

(** Witness of C6: with no share recorded, the first example user shares
    her bucket with the second at level [view], then at level [full]. *)
Lemma share_bucket_twice_witness :
  let st := set_permissions [] demo in
  let s1 := share_bucket Config demo_now alice_id alice_docs "bob@example.com" "view" st in
  let s2 := share_bucket Config demo_now alice_id alice_docs "bob@example.com" "full" s1.2 in
  s1.1.1 = true ∧ s2.1.1 = true
  ∧ ∃ p, records_for alice_docs bob_id (permissions s2.2) = [p]
         ∧ Permission.permission_level p = "full".
Proof.
  intros st s1 s2.
  assert (H1 : s1.1.1 = true) by reflexivity.
  assert (H2 : s2.1.1 = true) by reflexivity.
  split; [exact H1|]. split; [exact H2|].
  destruct (share_bucket_twice Config demo_now demo_now st alice_id alice_docs
              "bob@example.com" "view" "full" s1.1 s1.2 s2.1 s2.2)
    as (u & p & Hu & Hrec & Hlevel & _).
  - exact demo_users_wf.
  - split; [apply NoDup_nil_2 | by intros k p ?%elem_of_nil].
  - apply surjective_pairing.
  - exact H1.
  - apply surjective_pairing.
  - exact H2.
  - exists p. injection Hu as <-. by split.
Defined.

(** ** Search: access control ([Database.search_files]) *)

Lemma get_accessible_bucket_ids_elem st user_id bucket_id :
  bucket_id ∈ (_get_accessible_bucket_ids user_id st).1 ↔
    (∃ bucket, (user_id, bucket) ∈ dirs st ∧ bucket_id = user_id +:+ "_" +:+ bucket)
    ∨ (∃ k p, (k, p) ∈ permissions st ∧ Permission.shared_with p = user_id
              ∧ Permission.bucket_id p = bucket_id).
Proof.
  unfold _get_accessible_bucket_ids, get_user_buckets, get_shared_buckets_for_user.
  mred. cbn [fst]. rewrite elem_of_app, !list_elem_of_fmap.
  unfold dict_values. split.
  - intros [(bucket & -> & Hb)|(p & -> & Hp)].
    + left. exists bucket. split; [|done].
      apply list_elem_of_fmap in Hb as ([u b] & -> & [Hu Hin]%list_elem_of_filter).
      cbn in Hu. by subst u.
    + right. apply list_elem_of_filter in Hp as [Hs Hin].
      apply list_elem_of_fmap in Hin as ([k p'] & -> & Hin). by exists k, p'.
  - intros [(bucket & Hin & ->)|(k & p & Hin & Hs & <-)].
    + left. exists bucket. split; [done|].
      apply list_elem_of_fmap. exists (user_id, bucket). split; [done|].
      by apply list_elem_of_filter.
    + right. exists p. split; [done|].
      apply list_elem_of_filter. split; [done|].
      apply list_elem_of_fmap. by exists (k, p).
Qed.

(** Every result comes from an entry of the search index that lies in an
    accessible bucket, and carries the bucket of that entry. *)
Lemma db_search_files_elem cfg now st query user_id filters h :
  h ∈ (db_search_files cfg now query user_id filters st).1 →
  ∃ file_id search_data,
    (file_id, search_data) ∈ search_index st
    ∧ SearchData.bucket_id search_data ∈ (_get_accessible_bucket_ids user_id st).1
    ∧ h = Hit.merge (dict_get file_id (file_metadata st)) search_data.
Proof.
  unfold db_search_files. unfold bind at 1 2. unfold _read_json at 1 2, gets.
  cbn [load SEARCH_INDEX_FILE FILE_METADATA_FILE].
  unfold bind. destruct (_get_accessible_bucket_ids user_id st) as [ids st'] eqn:Hids.
  cbn [ret fst].
  intros ([file_id search_data] & Hin & Hsome)%list_elem_of_omap.
  exists file_id, search_data. split; [done|].
  unfold str_in in Hsome. case_bool_decide as Hacc; cbn [negb] in Hsome; [|done].
  split; [done|].
  repeat case_match; naive_solver.
Qed.

Lemma db_search_files_state cfg now st query user_id filters :
  (db_search_files cfg now query user_id filters st).2 = st.
Proof. reflexivity. Qed.

(** *** Enrichment and ranking keep the results *)

Lemma enrich_one_run cfg now h st :
  Enriched.hit (enrich_one cfg now h st).1 = h ∧ (enrich_one cfg now h st).2 = st.
Proof.
  unfold enrich_one. repeat case_match; done.
Qed.

Lemma enrich_search_results_run cfg now results st :
  Enriched.hit <$> (_enrich_search_results cfg now results st).1 = results
  ∧ (_enrich_search_results cfg now results st).2 = st.
Proof.
  induction results as [|h results IH]; [done|].
  cbn [_enrich_search_results]. unfold bind.
  destruct (enrich_one_run cfg now h st) as [Hh Hst].
  destruct (enrich_one cfg now h st) as [e st1]. cbn [fst snd] in Hh, Hst. subst st1.
  destruct (_enrich_search_results cfg now results st) as [es st2].
  cbn [fst snd] in *. destruct IH as [IH ->]. cbn [ret fst snd]. csimpl.
  by rewrite Hh, IH.
Qed.

Section SortedFacts.
Context {A K : Type} (leb : K → K → bool) (key : A → K).

Lemma insert_desc_perm x l : insert_desc leb key x l ≡ₚ x :: l.
Proof.
  induction l as [|y l IH]; [done|]. cbn [insert_desc].
  destruct (leb (key y) (key x)); [done|]. rewrite IH. apply Permutation_swap.
Qed.

(** The sort rearranges its input. *)
Lemma sorted_reverse_perm l : sorted_reverse leb key l ≡ₚ l.
Proof.
  induction l as [|x l IH]; [done|].
  unfold sorted_reverse in *. cbn [foldr]. by rewrite insert_desc_perm, IH.
Qed.

End SortedFacts.

Lemma sort_search_results_perm results query :
  _sort_search_results results query ≡ₚ results.
Proof.
  unfold _sort_search_results. case_match; apply sorted_reverse_perm.
Qed.

(** The hits behind the results of [SearchEngine.search_files] are exactly
    the results of [Database.search_files]. *)
Lemma search_files_hits cfg now st user_id query filters :
  Enriched.hit <$> (search_files cfg now user_id query filters st).1
  ≡ₚ (db_search_files cfg now query user_id filters st).1.
Proof.
  unfold search_files. unfold bind at 1.
  pose proof (db_search_files_state cfg now st query user_id filters) as Hst.
  destruct (db_search_files cfg now query user_id filters st) as [hits st1].
  cbn [fst snd] in *. subst st1. unfold bind.
  destruct (enrich_search_results_run cfg now hits st) as [Hhits _].
  destruct (_enrich_search_results cfg now hits st) as [es st2].
  cbn [fst snd ret] in *. by rewrite sort_search_results_perm, Hhits.
Qed.

(** C1.  Whatever the query and the filters, every result of
    [Database.search_files], and so every result of the search engine,
    carries the bucket identifier of a bucket the user owns (a directory
    of the user) or of a bucket that a permission record shares with the
    user. *)
Theorem search_results_accessible cfg now st query user_id filters :
  let accessible (bucket_id : string) : Prop :=
    (∃ bucket, (user_id, bucket) ∈ dirs st ∧ bucket_id = user_id +:+ "_" +:+ bucket)
    ∨ (∃ k p, (k, p) ∈ permissions st ∧ Permission.shared_with p = user_id
              ∧ Permission.bucket_id p = bucket_id) in
  (∀ h, h ∈ (db_search_files cfg now query user_id filters st).1 →
        accessible (Hit.bucket_id h))
  ∧ (∀ e, e ∈ (search_files cfg now user_id query filters st).1 →
          accessible (Hit.bucket_id (Enriched.hit e))).
Proof.
  intros accessible.
  assert (Hdb : ∀ h, h ∈ (db_search_files cfg now query user_id filters st).1 →
                     accessible (Hit.bucket_id h)).
  { intros h (file_id & search_data & _ & Hacc & ->)%db_search_files_elem.
    by apply get_accessible_bucket_ids_elem in Hacc. }
  split; [done|].
  intros e He. apply Hdb. rewrite <- search_files_hits.
  apply list_elem_of_fmap. by exists e.
Qed.

(** Witness of C1: the second example user searches for [report]; the
    results are the three files of the bucket shared with him. *)
Lemma search_results_accessible_witness :
  ∃ e, e ∈ (search_files Config demo_now bob_id "report" None demo).1
       ∧ Hit.bucket_id (Enriched.hit e) = alice_docs
       ∧ ((∃ bucket, (bob_id, bucket) ∈ dirs demo
                     ∧ Hit.bucket_id (Enriched.hit e) = bob_id +:+ "_" +:+ bucket)
          ∨ (∃ k p, (k, p) ∈ permissions demo ∧ Permission.shared_with p = bob_id
                    ∧ Permission.bucket_id p = Hit.bucket_id (Enriched.hit e))).
Proof.
  pose proof (search_results_accessible Config demo_now demo "report" bob_id None) as Hacc.
  apply proj2 in Hacc. cbv zeta in Hacc.
  destruct (search_files Config demo_now bob_id "report" None demo).1
    as [|e l] eqn:Hl; [by vm_compute in Hl|].
  exists e. split; [left|]. split.
  - vm_compute in Hl. by injection Hl as <- _.
  - apply Hacc. left.
Defined.

Example search_for_report_as_grantee :
  Hit.file_name ∘ Enriched.hit <$> (search_files Config demo_now bob_id "report" None demo).1
  = ["report_final.pdf"; "report.pdf"; "myreport.pdf"].
Proof. reflexivity. Qed.

Example search_as_stranger :
  (search_files Config demo_now "c3c3c3c3-0000-4000-8000-000000000003" "report" None demo).1 = [].
Proof. reflexivity. Qed.

(** ** Search: the date filter ([_check_date_range], [_apply_filters]) *)

(** The filters are a conjunction: an entry passes when it passes each
    filter that is given. *)
Lemma apply_filters_iff cfg now search_data metadata filters :
  _apply_filters cfg now search_data metadata filters = true ↔
    (∀ v, filter_value "file_type" filters = Some v →
          SearchData.file_type search_data = v)
    ∧ (∀ v, filter_value "size_category" filters = Some v →
            get_file_size_category cfg (SearchData.size search_data) = v)
    ∧ (∀ v, filter_value "date_range" filters = Some v →
            _check_date_range now (SearchData.upload_date search_data) v = true)
    ∧ (∀ v, filter_value "bucket_id" filters = Some v →
            SearchData.bucket_id search_data = v).
Proof.
  unfold _apply_filters.
  destruct (filter_value "file_type" filters) as [v1|];
    [destruct (Str.eqb _ v1) eqn:E1; cbn [negb];
       [apply str_eqb_true in E1|apply str_eqb_false in E1; naive_solver]|];
  (destruct (filter_value "size_category" filters) as [v2|];
    [destruct (Str.eqb _ v2) eqn:E2; cbn [negb];
       [apply str_eqb_true in E2|apply str_eqb_false in E2; naive_solver]|]);
  (destruct (filter_value "date_range" filters) as [v3|];
    [destruct (_check_date_range now _ v3) eqn:E3; cbn [negb]; [|naive_solver]|]);
  (destruct (filter_value "bucket_id" filters) as [v4|];
    [destruct (Str.eqb _ v4) eqn:E4; cbn [negb];
       [apply str_eqb_true in E4|apply str_eqb_false in E4; naive_solver]|]);
  naive_solver.
Qed.

Lemma same_date_iff a b :
  DT.same_date a b = true ↔
    DT.year a = DT.year b ∧ DT.month a = DT.month b ∧ DT.day a = DT.day b.
Proof.
  unfold DT.same_date. rewrite !andb_true_iff, !Z.eqb_eq. naive_solver.
Qed.

Lemma check_date_range_naive now upload_date dt :
  DT.fromisoformat (Str.replace_Z upload_date) = Some (dt, false) →
  (_check_date_range now upload_date "today" = true ↔
     DT.year dt = DT.year now ∧ DT.month dt = DT.month now ∧ DT.day dt = DT.day now)
  ∧ (_check_date_range now upload_date "week" = true ↔ DT.sub_days now dt ≤ 7)
  ∧ (_check_date_range now upload_date "month" = true ↔ DT.sub_days now dt ≤ 30)
  ∧ (_check_date_range now upload_date "year" = true ↔ DT.sub_days now dt ≤ 365).
Proof.
  intros Hparse. unfold _check_date_range.
  destruct upload_date as [|c s]; [by vm_compute in Hparse|].
  cbn [Str.truthy negb]. rewrite Hparse. cbn -[DT.sub_days DT.same_date Z.leb].
  rewrite same_date_iff, !Z.leb_le. done.
Qed.

(** C8 (amended).  For an entry whose upload date is a naive ISO date-time,
    as [upload_file] writes it: the entry passes the filter [today] exactly
    when its upload date and the current date-time fall on the same
    calendar day; it passes [week], [month] and [year] exactly when the
    number of whole days elapsed since the upload, rounded down, is at most
    7, 30 and 365. *)
Theorem date_range_filter cfg now search_data metadata dt :
  DT.fromisoformat (Str.replace_Z (SearchData.upload_date search_data)) = Some (dt, false) →
  let passes date_range :=
    _apply_filters cfg now search_data metadata [("date_range", date_range)] = true in
  (passes "today" ↔
     DT.year dt = DT.year now ∧ DT.month dt = DT.month now ∧ DT.day dt = DT.day now)
  ∧ (passes "week" ↔ DT.sub_days now dt ≤ 7)
  ∧ (passes "month" ↔ DT.sub_days now dt ≤ 30)
  ∧ (passes "year" ↔ DT.sub_days now dt ≤ 365).
Proof.
  intros Hparse passes.
  destruct (check_date_range_naive now _ dt Hparse) as (Ht & Hw & Hm & Hy).
  subst passes. cbv beta. rewrite <- Ht, <- Hw, <- Hm, <- Hy.
  split_and!; rewrite apply_filters_iff; cbn; naive_solver.
Qed.

(** Witness of C8: a file uploaded eight days and eight hours before the
    current date-time passes [month] and not [week]. *)
Lemma date_range_filter_witness :
  let entry := demo_entry "report.pdf" "2024-03-01T10:00:00" in
  (_apply_filters Config demo_now entry None [("date_range", "month")] = true
   ↔ DT.sub_days demo_now (DT.mk 2024 3 1 10 0 0 0) ≤ 30)
  ∧ (_apply_filters Config demo_now entry None [("date_range", "week")] = true
     ↔ DT.sub_days demo_now (DT.mk 2024 3 1 10 0 0 0) ≤ 7)
  ∧ DT.sub_days demo_now (DT.mk 2024 3 1 10 0 0 0) = 8.
Proof.
  intros entry.
  pose proof (date_range_filter Config demo_now entry None (DT.mk 2024 3 1 10 0 0 0) eq_refl)
    as (_ & Hw & Hm & _).
  split; [exact Hm|]. split; [exact Hw|]. reflexivity.
Defined.

(** Counterexample to C8 as stated: a file uploaded at 23:00 is looked up
    at 01:00 of the next day.  No whole day has elapsed, and the filter
    [today] rejects the file. *)
Lemma date_range_today_counterexample :
  let now := DT.mk 2024 3 9 1 0 0 0 in
  let entry := demo_entry "late.pdf" "2024-03-08T23:00:00" in
  ¬ (_apply_filters Config now entry None [("date_range", "today")] = true
     ↔ _get_days_ago now (SearchData.upload_date entry) ≤ 0).
Proof.
  intros now entry [_ H].
  assert (Hdays : _get_days_ago now (SearchData.upload_date entry) = 0) by reflexivity.
  rewrite Hdays in H. specialize (H (Z.le_refl 0)). by vm_compute in H.
Qed.

(** ** Renaming ([rename_file]) *)

(** Closes a branch in which the operation has returned a failure while
    the hypothesis says it succeeded. *)
Ltac refuted :=
  unfold ret; intros [= <- <-] ?;
  match goal with H : _.1 = true |- _ => cbn in H; discriminate H end.

Lemma check_bucket_access_state user_id bucket_id action st :
  (_check_bucket_access user_id bucket_id action st).2 = st.
Proof.
  unfold _check_bucket_access, get_permission. mred.
  repeat (case_match; try done).
Qed.

(** What a successful [rename_file] has done. *)
Lemma rename_file_success user_id file_id new_name st r st' :
  rename_file user_id file_id new_name st = (r, st') →
  r.1 = true →
  Str.strip new_name ≠ ""
  ∧ (∃ m, dict_get file_id (file_metadata st) = Some m
          ∧ (_check_bucket_access user_id (FileInfo.bucket_id m) "full" st).1 = true
          ∧ file_metadata st' =
              dict_set file_id (FileInfo.set_file_name (Str.strip new_name) m)
                (file_metadata st))
  ∧ search_index st' =
      match dict_get file_id (search_index st) with
      | Some s => dict_set file_id (SearchData.set_file_name (Str.strip new_name) s)
                    (search_index st)
      | None => search_index st
      end
  ∧ users st' = users st ∧ permissions st' = permissions st
  ∧ dirs st' = dirs st ∧ disk st' = disk st.
Proof.
  unfold rename_file, get_file_metadata. unfold bind at 1 2. unfold _read_json at 1, gets.
  cbn [load FILE_METADATA_FILE ret].
  destruct (dict_get file_id (file_metadata st)) as [m|] eqn:Hm; [|refuted].
  unfold bind at 1.
  pose proof (check_bucket_access_state user_id (FileInfo.bucket_id m) "full" st) as Hst.
  destruct (_check_bucket_access user_id (FileInfo.bucket_id m) "full" st)
    as [allowed st1] eqn:Hacc.
  cbn [fst snd] in *. subst st1.
  destruct allowed; cbn [negb]; [|refuted].
  destruct (Str.truthy new_name); cbn [negb orb]; [|refuted].
  case_bool_decide as Hlen; [refuted|].
  assert (Hname : Str.strip new_name ≠ "").
  { intros Heq. apply Hlen. by rewrite Heq. }
  unfold _write_json. mred. rewrite Hm.
  destruct (next_write st) eqn:Hw1; cbn [next_write writes set_writes set_file_metadata];
    unfold next_write; cbn [writes set_writes set_file_metadata];
    destruct (default IoOk (head (tail (writes st)))); cbn;
    intros [= <- <-] Hok; cbn in Hok; try done; split_and!; try done;
    exists m; by rewrite Hacc.
Qed.

(** C9.  A successful rename is one to a name that is not empty or blank.
    In the metadata record and in the search-index entry of the file it
    sets [file_name] to the stripped new name and leaves every other field
    as it was, the stored file name and the file path among them; the
    records of the other files, the keys of both files, the users, the
    permissions and the physical store are untouched. *)
Theorem rename_file_changes_only_name user_id file_id new_name st r st' :
  rename_file user_id file_id new_name st = (r, st') →
  r.1 = true →
  Str.strip new_name ≠ ""
  ∧ (∃ m m', dict_get file_id (file_metadata st) = Some m
       ∧ dict_get file_id (file_metadata st') = Some m'
       ∧ FileInfo.file_name m' = Str.strip new_name
       ∧ FileInfo.file_id m' = FileInfo.file_id m
       ∧ FileInfo.stored_filename m' = FileInfo.stored_filename m
       ∧ FileInfo.file_type m' = FileInfo.file_type m
       ∧ FileInfo.size m' = FileInfo.size m
       ∧ FileInfo.upload_date m' = FileInfo.upload_date m
       ∧ FileInfo.bucket_id m' = FileInfo.bucket_id m
       ∧ FileInfo.bucket_name m' = FileInfo.bucket_name m
       ∧ FileInfo.user_id m' = FileInfo.user_id m
       ∧ FileInfo.file_path m' = FileInfo.file_path m)
  ∧ (∀ s, dict_get file_id (search_index st) = Some s →
       ∃ s', dict_get file_id (search_index st') = Some s'
         ∧ SearchData.file_name s' = Str.strip new_name
         ∧ SearchData.file_type s' = SearchData.file_type s
         ∧ SearchData.size s' = SearchData.size s
         ∧ SearchData.upload_date s' = SearchData.upload_date s
         ∧ SearchData.bucket_id s' = SearchData.bucket_id s
         ∧ SearchData.user_id s' = SearchData.user_id s)
  ∧ (∀ k, k ≠ file_id →
       dict_get k (file_metadata st') = dict_get k (file_metadata st)
       ∧ dict_get k (search_index st') = dict_get k (search_index st))
  ∧ dict_keys (file_metadata st') = dict_keys (file_metadata st)
  ∧ dict_keys (search_index st') = dict_keys (search_index st)
  ∧ users st' = users st ∧ permissions st' = permissions st
  ∧ dirs st' = dirs st ∧ disk st' = disk st.
Proof.
  intros Hrun Hok.
  destruct (rename_file_success _ _ _ _ _ _ Hrun Hok)
    as (Hname & (m & Hm & _ & Hmeta) & Hidx & Hu & Hp & Hd & Hk).
  split; [done|]. split.
  { exists m, (FileInfo.set_file_name (Str.strip new_name) m).
    rewrite Hmeta, dict_get_set_eq. by split_and!. }
  split.
  { intros s Hs. rewrite Hs in Hidx.
    exists (SearchData.set_file_name (Str.strip new_name) s).
    rewrite Hidx, dict_get_set_eq. by split_and!. }
  split.
  { intros k Hne. rewrite Hmeta, Hidx. rewrite dict_get_set_ne by done.
    split; [done|]. destruct (dict_get file_id (search_index st)); [|done].
    by rewrite dict_get_set_ne. }
  split.
  { rewrite Hmeta, dict_keys_set. unfold dict_mem. by rewrite Hm. }
  split; [|done].
  rewrite Hidx. destruct (dict_get file_id (search_index st)) eqn:Hs; [|done].
  rewrite dict_keys_set. unfold dict_mem. by rewrite Hs.
Qed.

(** Witness of C9: the first example user renames her file [f1]. *)
Lemma rename_file_changes_only_name_witness :
  let run := rename_file alice_id "f1" "  summary.pdf " demo in
  run.1 = (true, FileRenamedSuccessfully)
  ∧ dict_get "f1" (file_metadata run.2)
    = Some (demo_file "f1" "summary.pdf" "2024-03-01T10:00:00")
  ∧ dict_get "f1" (search_index run.2)
    = Some (demo_entry "summary.pdf" "2024-03-01T10:00:00")
  ∧ disk run.2 = disk demo.
Proof.
  intros run.
  pose proof (rename_file_changes_only_name alice_id "f1" "  summary.pdf " demo
                run.1 run.2 (surjective_pairing run) eq_refl) as H.
  split; [reflexivity|]. split; [reflexivity|]. split; [reflexivity|].
  apply H.
Defined.

(** ** Upload: validation ([_validate_file], [upload_file]) *)

Section Validation.
Context (secure_filename : string → string) (cfg : config).

Lemma get_user_buckets_state user_id st : (get_user_buckets user_id st).2 = st.
Proof. reflexivity. Qed.

(** A file that does not pass [_validate_file] is refused before anything
    is written. *)
Lemma upload_file_invalid file_id now user_id bucket_name file st :
  (_validate_file secure_filename cfg file).1 = false →
  let r := upload_file secure_filename cfg file_id now user_id bucket_name file st in
  r.1.1.1 = false ∧ r.1.2 = None ∧ r.2 = st.
Proof.
  intros Hinvalid r.
  assert (∃ m, r = (false, m, None, st)) as [m ->]; [|done].
  subst r. unfold upload_file.
  destruct (Str.truthy (filename file)); cbn [negb]; [|by eexists].
  unfold bind at 1. unfold get_user_buckets at 1. mred.
  destruct (str_in bucket_name _); cbn [negb]; [|by eexists].
  rewrite Hinvalid. by eexists.
Qed.

(** The verdict of [_validate_file] does not depend on which of the two
    extension sets is tested first. *)
Lemma validate_file_verdict file :
  (_validate_file secure_filename cfg file).1
  = (validate_file_spec secure_filename cfg file).1.
Proof.
  unfold _validate_file, validate_file_spec.
  repeat (case_match; try done).
Qed.


End Validation.


(** The order of the two tests shows in the reason only, and only for an
    extension that is blocked and not allowed: with the shipped
    configuration [.exe] is such an extension, and the reason given is that
    of the allowed set. *)
Example allowed_set_consulted_first :
  let file := {| filename := "setup.exe"; content_length := 2; data := "MZ" |} in
  _validate_file Werkzeug.secure_filename Config file = (false, FileTypeNotAllowed)
  ∧ validate_file_spec Werkzeug.secure_filename Config file = (false, FileTypeBlocked).
Proof. by vm_compute. Qed.

(** ** Upload: the metadata step ([upload_file], [add_file_metadata]) *)

Section Upload.
Context (secure_filename : string → string) (cfg : config).

Lemma get_user_buckets_elem user_id bucket_name st :
  bucket_name ∈ (get_user_buckets user_id st).1 ↔ (user_id, bucket_name) ∈ dirs st.
Proof.
  unfold get_user_buckets. mred. cbn [fst]. rewrite list_elem_of_fmap. split.
  - intros ([u b] & -> & [Hu Hin]%list_elem_of_filter). cbn in Hu. by subst u.
  - intros Hin. exists (user_id, bucket_name). split; [done|].
    by apply list_elem_of_filter.
Qed.

(** An upload that passes the checks, by the outcomes of the two writes of
    [add_file_metadata].  Each JSON file follows its own write.  When one
    of them fails the upload fails and the bytes written are removed. *)
Lemma upload_file_metadata_step file_id now user_id bucket_name file st :
  Str.truthy (filename file) = true →
  bucket_name ∈ (get_user_buckets user_id st).1 →
  (_validate_file secure_filename cfg file).1 = true →
  let record := upload_record secure_filename cfg file_id now user_id bucket_name file in
  let path := FileInfo.file_path record in
  let both := bool_decide (next_write st = IoOk ∧ second_write st = IoOk) in
  let r := upload_file secure_filename cfg file_id now user_id bucket_name file st in
  r.1 = (if both then (true, FileUploadedSuccessfully, Some record)
         else (false, FailedToSaveFileMetadata, None))
  ∧ disk r.2 = (if both then dict_set path (data file) (disk st)
                else dict_del path (dict_set path (data file) (disk st)))
  ∧ file_metadata r.2 =
      match next_write st with
      | IoOk => dict_set file_id record (file_metadata st)
      | IoOpenError => file_metadata st
      | IoDumpError => []
      end
  ∧ search_index r.2 =
      match second_write st with
      | IoOk => dict_set file_id (search_entry_of record) (search_index st)
      | IoOpenError => search_index st
      | IoDumpError => []
      end
  ∧ dirs r.2 = dirs st ∧ users r.2 = users st ∧ permissions r.2 = permissions st.
Proof.
  intros Hname Hbucket Hvalid record path both r.
  assert (Hdir : bool_decide ((user_id, bucket_name) ∈ dirs st) = true).
  { apply bool_decide_eq_true. by apply get_user_buckets_elem. }
  assert (Hin : str_in bucket_name (get_user_buckets user_id st).1 = true)
    by (by apply bool_decide_eq_true).
  destruct r as [res st2] eqn:Hr. subst r. cbn [fst snd].
  unfold upload_file in Hr. rewrite Hname in Hr. cbn [negb] in Hr.
  unfold bind at 1 in Hr. rewrite (surjective_pairing (get_user_buckets user_id st)) in Hr.
  rewrite Hin, get_user_buckets_state, Hvalid in Hr. cbn [negb] in Hr.
  unfold mkdir, save, add_file_metadata, exists_file, unlink, _write_json in Hr.
  mred. rewrite Hdir in Hr.
  subst both path record. unfold second_write, next_write in *.
  destruct (default IoOk (head (writes st))) eqn:E1;
    destruct (default IoOk (head (tail (writes st)))) eqn:E2;
    cbn in Hr; rewrite ?E1, ?E2 in Hr; cbn in Hr; rewrite ?E1, ?E2 in Hr; cbn in Hr;
    unfold dict_mem in Hr; rewrite ?dict_get_set_eq in Hr; cbn in Hr;
    injection Hr as <- <-; done.
Qed.

(** When a write of the metadata step fails, the upload fails and the
    bytes it wrote are gone; when both writes fail on [open], no record is
    left either. *)
Lemma upload_file_removes_bytes file_id now user_id bucket_name file st :
  Str.truthy (filename file) = true →
  bucket_name ∈ (get_user_buckets user_id st).1 →
  (_validate_file secure_filename cfg file).1 = true →
  ¬ (next_write st = IoOk ∧ second_write st = IoOk) →
  let path :=
    FileInfo.file_path
      (upload_record secure_filename cfg file_id now user_id bucket_name file) in
  let r := upload_file secure_filename cfg file_id now user_id bucket_name file st in
  r.1 = (false, FailedToSaveFileMetadata, None)
  ∧ dict_get path (disk r.2) = None
  ∧ (∀ p, p ≠ path → dict_get p (disk r.2) = dict_get p (disk st))
  ∧ (next_write st = IoOpenError → second_write st = IoOpenError →
     file_metadata r.2 = file_metadata st ∧ search_index r.2 = search_index st).
Proof.
  intros Hname Hbucket Hvalid Hfail path r.
  destruct (upload_file_metadata_step file_id now user_id bucket_name file st
              Hname Hbucket Hvalid) as (Hres & Hdisk & Hmeta & Hidx & _).
  fold path r in Hres, Hdisk, Hmeta, Hidx.
  rewrite bool_decide_eq_false_2 in Hres, Hdisk by done.
  split; [done|]. rewrite Hdisk. split; [apply dict_get_del_eq|]. split.
  - intros p Hp. rewrite dict_get_del_ne, dict_get_set_ne by done. done.
  - intros H1 H2. by rewrite Hmeta, Hidx, H1, H2.
Qed.

End Upload.

(** C2, at the failing input.  The first example user uploads [notes.txt]
    to her bucket; the write of the metadata file goes through and the
    write of the search index fails.  The upload reports the failure and
    removes the bytes, and the metadata file keeps a record of the file
    that is not there.  With the outcomes exchanged, the search index keeps
    an entry that has no metadata record. *)
Theorem upload_file_partial_metadata_failure :
  let file := {| filename := "notes.txt"; content_length := 5; data := "hello" |} in
  let upload st :=
    upload_file Werkzeug.secure_filename Config new_file_id demo_now alice_id "docs" file st in
  let r1 := upload (set_writes [IoOk; IoOpenError] demo) in
  let r2 := upload (set_writes [IoOpenError; IoOk] demo) in
  (r1.1 = (false, FailedToSaveFileMetadata, None)
   ∧ disk r1.2 = disk demo
   ∧ is_Some (dict_get new_file_id (file_metadata r1.2))
   ∧ dict_get new_file_id (search_index r1.2) = None)
  ∧ (r2.1 = (false, FailedToSaveFileMetadata, None)
     ∧ disk r2.2 = disk demo
     ∧ dict_get new_file_id (file_metadata r2.2) = None
     ∧ is_Some (dict_get new_file_id (search_index r2.2))).
Proof. vm_compute. split_and!; try reflexivity; by eexists. Qed.

Example upload_file_success :
  let file := {| filename := "My Notes.TXT"; content_length := 5; data := "hello" |} in
  let r := upload_file Werkzeug.secure_filename Config new_file_id demo_now alice_id "docs"
             file demo in
  r.1.1 = (true, FileUploadedSuccessfully)
  ∧ (FileInfo.file_name <$> r.1.2) = Some "My_Notes.TXT"
  ∧ (FileInfo.stored_filename <$> r.1.2) = Some (new_file_id +:+ ".TXT")
  ∧ (FileInfo.file_type <$> r.1.2) = Some "other"
  ∧ dict_get (path_join (bucket_path alice_id "docs") (new_file_id +:+ ".TXT")) (disk r.2)
    = Some "hello".
Proof. vm_compute. by split_and!. Qed.


(** *** The store invariants *)

Lemma dict_elem_set_other {V} k (v : V) k' v' d :
  (k', v') ∈ d → k' ≠ k → (k', v') ∈ dict_set k v d.
Proof.
  intros Hin Hne. induction d as [|[k0 v0] d IH]; [by apply elem_of_nil in Hin|].
  cbn. apply elem_of_cons in Hin as [[= <- <-]|Hin].
  - apply str_eqb_false in Hne as ->. left.
  - destruct (Str.eqb k0 k); right; [done|by apply IH].
Qed.

Lemma dict_elem_set_inv {V} k (v : V) k' v' d :
  (k', v') ∈ dict_set k v d → (k' = k ∧ v' = v) ∨ (k', v') ∈ d.
Proof.
  induction d as [|[k0 v0] d IH]; cbn.
  - intros [= -> ->]%list_elem_of_singleton. by left.
  - destruct (Str.eqb k0 k).
    + intros [[= -> ->]|Hin]%elem_of_cons; [by left|]. right. by right.
    + intros [[= -> ->]|Hin]%elem_of_cons; [right; left|].
      destruct (IH Hin) as [?|?]; [by left|]. right. by right.
Qed.

(** A successful upload under a fresh identifier keeps the metadata file
    well formed and the search index in step with it. *)
Lemma upload_file_preserves_wf secure_filename cfg file_id now user_id bucket_name file st :
  Str.truthy (filename file) = true →
  bucket_name ∈ (get_user_buckets user_id st).1 →
  (_validate_file secure_filename cfg file).1 = true →
  next_write st = IoOk → second_write st = IoOk →
  dict_get file_id (search_index st) = None →
  metadata_wf (file_metadata st) →
  lockstep st →
  let r := upload_file secure_filename cfg file_id now user_id bucket_name file st in
  r.1.1.1 = true ∧ metadata_wf (file_metadata r.2) ∧ lockstep r.2.
Proof.
  intros Hname Hbucket Hvalid Hw1 Hw2 Hfresh [Hok Hwf] Hstep r.
  destruct (upload_file_metadata_step secure_filename cfg file_id now user_id
              bucket_name file st Hname Hbucket Hvalid)
    as (Hres & _ & Hmeta & Hidx & _).
  fold r in Hres, Hmeta, Hidx. rewrite Hw1 in Hmeta. rewrite Hw2 in Hidx.
  rewrite bool_decide_eq_true_2 in Hres by done.
  split; [by rewrite Hres|]. split.
  - rewrite Hmeta. split; [by apply dict_ok_set|].
    intros k m [[-> ->]|Hin]%dict_elem_set_inv; [done|by apply Hwf].
  - intros k s. rewrite Hidx, Hmeta.
    intros [[-> ->]|Hin]%dict_elem_set_inv.
    + eexists. split; [apply dict_get_Some_elem, dict_get_set_eq|done].
    + destruct (Hstep _ _ Hin) as (m & Hm & Hb). exists m. split; [|done].
      apply dict_elem_set_other; [done|]. intros ->.
      apply dict_get_None_keys in Hfresh. apply Hfresh.
      apply list_elem_of_fmap. by exists (file_id, s).
Qed.

(** ** Deleting a bucket ([delete_bucket], [delete_bucket_metadata]) *)

Lemma dict_del_absent {V} k (d : dict V) : dict_mem k d = false → dict_del k d = d.
Proof.
  unfold dict_mem. induction d as [|[k' v] d IH]; [done|]. cbn.
  destruct (Str.eqb k' k); [done|]. intros H. by rewrite IH.
Qed.

Lemma dict_mem_del_if {V} k (d : dict V) :
  (if dict_mem k d then dict_del k d else d) = dict_del k d.
Proof. destruct (dict_mem k d) eqn:E; [done|]. by rewrite dict_del_absent. Qed.

Lemma all_writes_ok_next st : all_writes_ok st → next_write st = IoOk.
Proof.
  unfold all_writes_ok, next_write. destruct (writes st); [done|].
  by intros [-> _]%Forall_cons.
Qed.

Lemma all_writes_ok_tail st :
  all_writes_ok st → Forall (λ w, w = IoOk) (tail (writes st)).
Proof.
  unfold all_writes_ok. destruct (writes st); [done|]. by intros [_ ?]%Forall_cons.
Qed.

Lemma delete_file_metadata_ok file_id st :
  all_writes_ok st →
  let st' := (delete_file_metadata file_id st).2 in
  file_metadata st' = dict_del file_id (file_metadata st)
  ∧ search_index st' = dict_del file_id (search_index st)
  ∧ all_writes_ok st'
  ∧ users st' = users st ∧ permissions st' = permissions st
  ∧ dirs st' = dirs st ∧ disk st' = disk st.
Proof.
  intros Hok st'.
  pose proof (all_writes_ok_next st Hok) as H1.
  pose proof (all_writes_ok_tail st Hok) as Ht.
  assert (H2 : default IoOk (head (tail (writes st))) = IoOk).
  { destruct (tail (writes st)); [done|]. by apply Forall_cons in Ht as [-> _]. }
  assert (Ht2 : Forall (λ w, w = IoOk) (tail (tail (writes st)))).
  { destruct (tail (writes st)); [done|]. by apply Forall_cons in Ht as [_ ?]. }
  subst st'. unfold delete_file_metadata, _write_json. mred.
  rewrite !dict_mem_del_if. rewrite H1. cbn. unfold next_write. cbn. rewrite H2. cbn.
  by split_and!.
Qed.

Lemma get_user_buckets_run user_id st :
  get_user_buckets user_id st = ((filter (λ d, d.1 = user_id) (dirs st)).*2, st).
Proof. reflexivity. Qed.

(** [delete_file_metadata] changes the two metadata files and the list of
    forthcoming writes, whatever becomes of its writes. *)
Lemma delete_file_metadata_frame file_id st :
  let st' := (delete_file_metadata file_id st).2 in
  users st' = users st ∧ permissions st' = permissions st
  ∧ dirs st' = dirs st ∧ disk st' = disk st.
Proof.
  unfold delete_file_metadata, _write_json. mred. unfold next_write.
  destruct (writes st) as [|w1 [|w2 ws]]; cbn; [done| |];
    repeat (case_match; simplify_eq/=); done.
Qed.

Lemma for_each_cons_state {A} (body : A → M unit) x l st :
  (for_each (x :: l) body st).2 = (for_each l body (body x st).2).2.
Proof. cbn [for_each]. unfold bind. by destruct (body x st). Qed.

Lemma bind_ret_state {A} (m : M A) st : (bind m (λ _, ret tt) st).2 = (m st).2.
Proof. unfold bind, ret. by destruct (m st). Qed.

Lemma for_each_delete_frame (files : list FileInfo.t) st :
  let st' :=
    (for_each files
       (λ file_data, _ <- delete_file_metadata (FileInfo.file_id file_data);; ret tt)
       st).2 in
  users st' = users st ∧ permissions st' = permissions st
  ∧ dirs st' = dirs st ∧ disk st' = disk st.
Proof.
  revert st. induction files as [|f files IH]; intros st; [done|].
  cbn zeta. rewrite for_each_cons_state, bind_ret_state.
  destruct (IH (delete_file_metadata (FileInfo.file_id f) st).2) as (H1 & H2 & H3 & H4).
  destruct (delete_file_metadata_frame (FileInfo.file_id f) st) as (G1 & G2 & G3 & G4).
  cbn zeta in *. by rewrite H1, H2, H3, H4.
Qed.

(** The loop of [delete_bucket_metadata]: the records and entries under the
    identifiers of the listed files go, the others stay. *)
Lemma delete_loop_ok (files : list FileInfo.t) st :
  all_writes_ok st →
  let st' :=
    (for_each files
       (λ file_data, _ <- delete_file_metadata (FileInfo.file_id file_data);; ret tt)
       st).2 in
  (∀ k m, (k, m) ∈ file_metadata st' ↔
          (k, m) ∈ file_metadata st ∧ k ∉ FileInfo.file_id <$> files)
  ∧ (∀ k s, (k, s) ∈ search_index st' ↔
            (k, s) ∈ search_index st ∧ k ∉ FileInfo.file_id <$> files)
  ∧ users st' = users st ∧ permissions st' = permissions st
  ∧ dirs st' = dirs st ∧ disk st' = disk st.
Proof.
  revert st. induction files as [|f files IH]; intros st Hok st'.
  - subst st'. cbn. split_and!; try done; intros; rewrite elem_of_nil; naive_solver.
  - subst st'. rewrite for_each_cons_state, bind_ret_state.
    destruct (delete_file_metadata_ok (FileInfo.file_id f) st Hok)
      as (Hm & Hs & Hok1 & Hu & Hp & Hd & Hk).
    destruct (IH _ Hok1) as (IHm & IHs & IHu & IHp & IHd & IHk).
    split_and!.
    + intros k m. rewrite IHm, Hm, dict_elem_del. csimpl. rewrite not_elem_of_cons.
      naive_solver.
    + intros k s. rewrite IHs, Hs, dict_elem_del. csimpl. rewrite not_elem_of_cons.
      naive_solver.
    + by rewrite IHu.
    + by rewrite IHp.
    + by rewrite IHd.
    + by rewrite IHk.
Qed.

Lemma delete_bucket_metadata_run user_id bucket_name st :
  delete_bucket_metadata user_id bucket_name st =
    (true,
     (for_each
        (filter (λ f, FileInfo.bucket_id f = user_id +:+ "_" +:+ bucket_name)
           (dict_values (file_metadata st)))
        (λ file_data, _ <- delete_file_metadata (FileInfo.file_id file_data);; ret tt)
        st).2).
Proof.
  unfold delete_bucket_metadata, get_files_by_bucket.
  unfold bind at 1 2 3. unfold _read_json, gets, ret at 1.
  cbn [load FILE_METADATA_FILE].
  by destruct (for_each _ _ st) as [[] st2].
Qed.

Lemma delete_bucket_run user_id bucket_name st :
  delete_bucket user_id bucket_name st =
    if negb (str_in bucket_name (get_user_buckets user_id st).1) then
      (false, BucketNotFoundOrAccessDenied, st)
    else
      (true, BucketDeletedSuccessfully,
       (delete_bucket_metadata user_id bucket_name (rmtree user_id bucket_name st).2).2).
Proof.
  unfold delete_bucket. unfold bind at 1. rewrite get_user_buckets_run. cbn [fst].
  unfold str_in. destruct (bool_decide _) eqn:Hin; cbn [negb]; [|done].
  apply bool_decide_eq_true in Hin.
  apply (get_user_buckets_elem user_id bucket_name st) in Hin.
  unfold exists_dir. mred. rewrite bool_decide_eq_true_2 by done.
  destruct (rmtree user_id bucket_name st) as [[] st1]. cbn [snd].
  by destruct (delete_bucket_metadata user_id bucket_name st1).
Qed.

(** A successful [delete_bucket] removes the directory, when it is there,
    and then runs the loop of [delete_bucket_metadata] over the metadata
    records of the bucket. *)
Lemma delete_bucket_success user_id bucket_name st r st' :
  delete_bucket user_id bucket_name st = (r, st') →
  r.1 = true →
  bucket_name ∈ (get_user_buckets user_id st).1
  ∧ ∃ st1,
      users st1 = users st ∧ permissions st1 = permissions st
      ∧ search_index st1 = search_index st ∧ file_metadata st1 = file_metadata st
      ∧ writes st1 = writes st
      ∧ st' =
          (for_each
             (filter (λ f, FileInfo.bucket_id f = user_id +:+ "_" +:+ bucket_name)
                (dict_values (file_metadata st1)))
             (λ file_data, _ <- delete_file_metadata (FileInfo.file_id file_data);; ret tt)
             st1).2.
Proof.
  unfold delete_bucket. unfold bind at 1.
  rewrite (surjective_pairing (get_user_buckets user_id st)), get_user_buckets_state.
  unfold str_in. case_bool_decide as Hin; cbn [negb]; [|refuted].
  intros Hrun _. split; [done|].
  unfold exists_dir, rmtree in Hrun.
  unfold bind at 1 in Hrun. unfold gets at 1 in Hrun.
  case_bool_decide as Hdir.
  - unfold bind at 1 in Hrun. unfold modify in Hrun.
    unfold bind in Hrun. rewrite delete_bucket_metadata_run in Hrun.
    unfold ret in Hrun.
    match type of Hrun with context [for_each _ _ ?s] => exists s end.
    injection Hrun as _ <-. by split_and!.
  - unfold bind at 1 in Hrun. unfold ret at 1 in Hrun.
    unfold bind in Hrun. rewrite delete_bucket_metadata_run in Hrun.
    unfold ret in Hrun. injection Hrun as _ <-.
    exists st. by split_and!.
Qed.

(** What the deletion does remove.  In a state whose metadata file is well
    formed and whose search index is in step with it, when every write goes
    through, a successful [delete_bucket] removes every metadata record and
    every search-index entry of the bucket and keeps those of the other
    buckets. *)
Lemma delete_bucket_removes_objects user_id bucket_name st r st' :
  metadata_wf (file_metadata st) →
  lockstep st →
  all_writes_ok st →
  delete_bucket user_id bucket_name st = (r, st') →
  r.1 = true →
  let bucket_id := user_id +:+ "_" +:+ bucket_name in
  (∀ k m, (k, m) ∈ file_metadata st' ↔
          (k, m) ∈ file_metadata st ∧ FileInfo.bucket_id m ≠ bucket_id)
  ∧ (∀ k s, (k, s) ∈ search_index st' ↔
            (k, s) ∈ search_index st ∧ SearchData.bucket_id s ≠ bucket_id).
Proof.
  intros [Hok Hwf] Hstep Hw Hrun Hsucc bucket_id.
  destruct (delete_bucket_success _ _ _ _ _ Hrun Hsucc)
    as (_ & st1 & Hu & Hp & Hs & Hm & Hws & ->).
  assert (Hw1 : all_writes_ok st1) by (unfold all_writes_ok; by rewrite Hws).
  destruct (delete_loop_ok
              (filter (λ f, FileInfo.bucket_id f = bucket_id) (dict_values (file_metadata st1)))
              st1 Hw1) as (Lm & Ls & _).
  fold bucket_id. rewrite Hm in *. rewrite Hs in *.
  assert (Hids : ∀ k, k ∈ FileInfo.file_id <$>
                        filter (λ f, FileInfo.bucket_id f = bucket_id)
                          (dict_values (file_metadata st))
                      ↔ ∃ m, (k, m) ∈ file_metadata st ∧ FileInfo.bucket_id m = bucket_id).
  { intros k. rewrite list_elem_of_fmap. split.
    - intros (m & -> & [Hb Hin]%list_elem_of_filter).
      apply list_elem_of_fmap in Hin as ([k' m'] & -> & Hin).
      exists m'. split; [|done]. cbn. by rewrite (Hwf _ _ Hin).
    - intros (m & Hin & Hb). exists m. split; [by rewrite (Hwf _ _ Hin)|].
      apply list_elem_of_filter. split; [done|].
      apply list_elem_of_fmap. by exists (k, m). }
  split_and!.
  - intros k m. rewrite Lm, Hids. split.
    + intros [Hin Hno]. split; [done|]. intros Hb. apply Hno. by exists m.
    + intros [Hin Hb]. split; [done|]. intros (m' & Hin' & Hb').
      apply dict_elem_get in Hin, Hin'; try done. congruence.
  - intros k s. rewrite Ls, Hids. split.
    + intros [Hin Hno]. split; [done|]. intros Hb. apply Hno.
      destruct (Hstep _ _ Hin) as (m & Hm' & Hbm). exists m. split; [done|]. congruence.
    + intros [Hin Hb]. split; [done|]. intros (m' & Hin' & Hb').
      destruct (Hstep _ _ Hin) as (m & Hm' & Hbm).
      apply dict_elem_get in Hm', Hin'; try done. congruence.
Qed.

Lemma demo_metadata_wf : metadata_wf (file_metadata demo).
Proof.
  split.
  - unfold dict_ok. apply (bool_decide_unpack _). by vm_compute.
  - intros k m H. cbn in H.
    repeat (apply elem_of_cons in H as [[= -> ->]|H]; [reflexivity|]).
    by apply elem_of_nil in H.
Qed.

Lemma demo_lockstep : lockstep demo.
Proof.
  intros k s H. cbn in H.
  repeat (apply elem_of_cons in H as [[= -> ->]|H];
          [eexists; split; [apply dict_get_Some_elem; reflexivity|reflexivity]|]).
  by apply elem_of_nil in H.
Qed.

Example delete_bucket_removes_objects_demo :
  let run := delete_bucket alice_id "docs" demo in
  run.1.1 = true
  ∧ (∀ k m, (k, m) ∈ file_metadata run.2 ↔
            (k, m) ∈ file_metadata demo ∧ FileInfo.bucket_id m ≠ alice_docs)
  ∧ (∀ k s, (k, s) ∈ search_index run.2 ↔
            (k, s) ∈ search_index demo ∧ SearchData.bucket_id s ≠ alice_docs).
Proof.
  intros run. split; [reflexivity|].
  apply (delete_bucket_removes_objects alice_id "docs" demo run.1 run.2).
  - exact demo_metadata_wf.
  - exact demo_lockstep.
  - apply Forall_nil_2.
  - apply surjective_pairing.
  - reflexivity.
Qed.

(** The permissions file is the same after every [delete_bucket], whether
    it succeeds or not and whatever becomes of its writes. *)
Lemma delete_bucket_permissions user_id bucket_name st :
  permissions (delete_bucket user_id bucket_name st).2 = permissions st.
Proof.
  rewrite delete_bucket_run. destruct (negb _); [done|]. cbn [snd].
  rewrite delete_bucket_metadata_run. cbn [snd].
  match goal with
  | |- context [for_each ?l _ ?s] =>
      destruct (for_each_delete_frame l s) as (_ & Hp & _)
  end.
  cbn zeta in Hp. by rewrite Hp.
Qed.

(** C3.  [delete_bucket] does not purge the permission records of the
    bucket it deletes, and it reports success whatever becomes of the
    metadata.  The permissions file is the same after every
    [delete_bucket].  In the example data the first user deletes the bucket
    she shares with the second user: the deletion succeeds, she has no
    bucket left, the record that shares the bucket is still stored, the
    second user is still authorized to upload into it, and once the first
    user has created a bucket of the same name anew the second user has
    access to it.  When the JSON writes fail, the deletion still reports
    success and every metadata record and search-index entry of the bucket
    is left in place.  A search-index entry without a metadata record, such
    as an upload whose metadata write failed leaves behind, survives the
    deletion of its bucket. *)
Theorem delete_bucket_leaves_stale_records :
  (∀ user_id bucket_name st,
     permissions (delete_bucket user_id bucket_name st).2 = permissions st)
  ∧ (let r := delete_bucket alice_id "docs" demo in
     r.1 = (true, BucketDeletedSuccessfully)
     ∧ (get_user_buckets alice_id r.2).1 = []
     ∧ file_metadata r.2 = [] ∧ search_index r.2 = []
     ∧ (∃ p, (get_permission alice_docs bob_id r.2).1 = Some p
             ∧ Permission.bucket_id p = alice_docs
             ∧ Permission.shared_with p = bob_id)
     ∧ (can_perform_action bob_id alice_docs "upload" r.2).1 = true
     ∧ let r' := create_bucket demo_now alice_id "docs" r.2 in
       r'.1.1.1 = true
       ∧ (_check_bucket_access bob_id alice_docs "upload" r'.2).1 = true)
  ∧ (let r := delete_bucket alice_id "docs" (set_writes (replicate 6 IoOpenError) demo) in
     r.1 = (true, BucketDeletedSuccessfully)
     ∧ (get_user_buckets alice_id r.2).1 = []
     ∧ file_metadata r.2 = file_metadata demo
     ∧ search_index r.2 = search_index demo)
  ∧ (let file := {| filename := "notes.txt"; content_length := 5; data := "hello" |} in
     let st :=
       (upload_file Werkzeug.secure_filename Config new_file_id demo_now alice_id "docs"
          file (set_writes [IoOpenError; IoOk] demo)).2 in
     let r := delete_bucket alice_id "docs" st in
     dict_get new_file_id (file_metadata st) = None
     ∧ r.1 = (true, BucketDeletedSuccessfully)
     ∧ file_metadata r.2 = []
     ∧ (SearchData.bucket_id <$> dict_get new_file_id (search_index r.2))
       = Some alice_docs).
Proof.
  split; [exact delete_bucket_permissions|].
  split; [|split].
  - cbn zeta. split_and!; try (by vm_compute).
    eexists. split_and!; by vm_compute.
  - cbn zeta. split_and!; by vm_compute.
  - cbn zeta. split_and!; by vm_compute.
Qed.

Example delete_bucket_demo :
  let run := delete_bucket alice_id "docs" demo in
  file_metadata run.2 = [] ∧ search_index run.2 = [] ∧ disk run.2 = []
  ∧ dirs run.2 = [(bob_id, "inbox")].
Proof. by vm_compute. Qed.

(** ** Ranking ([_sort_search_results]) *)

Section SortedOrder.
Context {A K : Type} (leb : K → K → bool) (key : A → K).
Hypothesis leb_total : ∀ a b, leb a b = true ∨ leb b a = true.
Hypothesis leb_trans : ∀ a b c, leb a b = true → leb b c = true → leb a c = true.

Lemma insert_desc_sorted x l :
  sorted_desc leb key l → sorted_desc leb key (insert_desc leb key x l).
Proof.
  unfold sorted_desc. induction l as [|y l IH]; intros Hs; cbn [insert_desc].
  - repeat constructor.
  - destruct (leb (key y) (key x)) eqn:E.
    + constructor; [done|]. constructor; [done|].
      apply StronglySorted_inv in Hs as [_ Hall].
      eapply Forall_impl; [exact Hall|]. cbn. intros z Hz. by eapply leb_trans.
    + apply StronglySorted_inv in Hs as [Hs Hall]. constructor; [by apply IH|].
      rewrite insert_desc_perm. constructor; [|done].
      by destruct (leb_total (key x) (key y)) as [?|?]; [|congruence].
Qed.

(** The result of the sort is in descending order of the key. *)
Lemma sorted_reverse_sorted l : sorted_desc leb key (sorted_reverse leb key l).
Proof.
  induction l as [|x l IH]; [constructor|].
  unfold sorted_reverse in *. cbn [foldr]. by apply insert_desc_sorted.
Qed.

End SortedOrder.

(** *** The order on strings and on (score, date) keys *)

Lemma string_compare_le_trans a b c :
  String.compare a b ≠ Gt → String.compare b c ≠ Gt → String.compare a c ≠ Gt.
Proof.
  revert b c. induction a as [|x a IH]; intros [|y b] [|z c]; cbn; try done.
  unfold Ascii.compare.
  destruct (N.compare_spec (N_of_ascii x) (N_of_ascii y)) as [Hxy|Hxy|Hxy];
    destruct (N.compare_spec (N_of_ascii y) (N_of_ascii z)) as [Hyz|Hyz|Hyz];
    try done.
  - rewrite Hxy, Hyz, N.compare_refl. apply IH.
  - intros _ _. rewrite Hxy. by apply N.compare_lt_iff in Hyz as ->.
  - intros _ _. rewrite <- Hyz. by apply N.compare_lt_iff in Hxy as ->.
  - intros _ _. assert (N_of_ascii x < N_of_ascii z)%N as Hxz by lia.
    by apply N.compare_lt_iff in Hxz as ->.
Qed.

Lemma str_leb_iff a b : Str.leb a b = true ↔ String.compare a b ≠ Gt.
Proof. unfold Str.leb, String.leb. by destruct (String.compare a b). Qed.

Lemma str_leb_trans a b c :
  Str.leb a b = true → Str.leb b c = true → Str.leb a c = true.
Proof. rewrite !str_leb_iff. apply string_compare_le_trans. Qed.

Lemma str_leb_total a b : Str.leb a b = true ∨ Str.leb b a = true.
Proof. apply String.leb_total. Qed.

Lemma tuple_leb_iff a b :
  tuple_leb a b = true ↔ a.1 < b.1 ∨ (a.1 = b.1 ∧ Str.leb a.2 b.2 = true).
Proof.
  unfold tuple_leb. rewrite orb_true_iff, andb_true_iff, Z.ltb_lt, Z.eqb_eq. done.
Qed.

Lemma tuple_leb_total a b : tuple_leb a b = true ∨ tuple_leb b a = true.
Proof.
  rewrite !tuple_leb_iff.
  destruct (Z.lt_trichotomy a.1 b.1) as [?|[Heq|?]];
    [by left; left| |by right; left].
  destruct (str_leb_total a.2 b.2); [left|right]; right; by rewrite Heq.
Qed.

Lemma tuple_leb_trans a b c :
  tuple_leb a b = true → tuple_leb b c = true → tuple_leb a c = true.
Proof.
  rewrite !tuple_leb_iff. intros [?|[? Hab]] [?|[? Hbc]]; [left; lia..|].
  right. split; [lia|]. by eapply str_leb_trans.
Qed.

(** With a query the results are in descending order of (score, upload
    date); without one, in descending order of the upload date. *)
Lemma sort_search_results_sorted results query :
  (Str.truthy query = true →
   sorted_desc tuple_leb
     (λ x, (calculate_relevance_score (Str.lower query) x,
            Hit.upload_date (Enriched.hit x)))
     (_sort_search_results results query))
  ∧ (query = "" →
     sorted_desc Str.leb (λ x, Hit.upload_date (Enriched.hit x))
       (_sort_search_results results query)).
Proof.
  unfold _sort_search_results. split.
  - intros ->. cbn [negb orb]. case_bool_decide as Hnil.
    + subst results. constructor.
    + apply sorted_reverse_sorted; [apply tuple_leb_total | apply tuple_leb_trans].
  - intros ->. cbn [Str.truthy negb orb].
    apply sorted_reverse_sorted; [apply str_leb_total | apply str_leb_trans].
Qed.

(** The score the code computes: the strength of the match, the recency,
    and five points for a file flagged [is_own_file]. *)
Lemma calculate_relevance_score_eq query_lower e :
  calculate_relevance_score query_lower e =
    (let filename := Str.lower (Hit.file_name (Enriched.hit e)) in
     if Str.eqb query_lower filename then 100
     else if Str.startswith filename query_lower then 50
     else if Str.contains query_lower filename then 25
     else 0)
    + (let days_ago := default 999 (Enriched.days_ago e) in
       if days_ago <=? 7 then 10 else if days_ago <=? 30 then 5 else 0)
    + (if default false (Enriched.is_own_file e) then 5 else 0).
Proof. unfold calculate_relevance_score. cbv zeta. repeat case_match; lia. Qed.

(** A file whose name starts with the query comes before every file whose
    name holds the query further inside only. *)
Lemma prefix_before_inner_match results query (i j : nat) x y :
  Str.truthy query = true →
  _sort_search_results results query !! i = Some x →
  _sort_search_results results query !! j = Some y →
  Str.startswith (Str.lower (Hit.file_name (Enriched.hit x))) (Str.lower query) = true →
  Str.startswith (Str.lower (Hit.file_name (Enriched.hit y))) (Str.lower query) = false →
  Str.lower query ≠ Str.lower (Hit.file_name (Enriched.hit y)) →
  (i < j)%nat.
Proof.
  intros Hq Hi Hj Hx Hy Hne.
  destruct (sort_search_results_sorted results query) as [Hsorted _].
  specialize (Hsorted Hq).
  destruct (decide (i < j)%nat) as [|Hge]; [done|exfalso].
  assert (Hxy : x ≠ y) by (intros ->; congruence).
  assert (Hji : (j < i)%nat).
  { destruct (decide (i = j)) as [->|]; [congruence|lia]. }
  assert (Hle : tuple_leb
                  (calculate_relevance_score (Str.lower query) x,
                   Hit.upload_date (Enriched.hit x))
                  (calculate_relevance_score (Str.lower query) y,
                   Hit.upload_date (Enriched.hit y)) = true).
  { unfold sorted_desc in Hsorted.
    rewrite <- (take_drop_middle _ _ _ Hj) in Hsorted, Hi.
    apply StronglySorted_app in Hsorted as (_ & _ & Hs).
    apply StronglySorted_inv in Hs as [_ Hall].
    rewrite Forall_forall in Hall. apply Hall.
    rewrite lookup_app_r in Hi by (rewrite length_take; lia).
    rewrite length_take in Hi.
    destruct (i - j `min` length (_sort_search_results results query))%nat
      as [|n] eqn:Hn; [|by eapply list_elem_of_lookup_2].
    apply lookup_lt_Some in Hj. lia. }
  apply tuple_leb_iff in Hle. cbn [fst snd] in Hle.
  rewrite !calculate_relevance_score_eq in Hle. cbv zeta in Hle.
  rewrite Hx, Hy in Hle.
  apply str_eqb_false in Hne. rewrite Hne in Hle.
  repeat case_match; lia.
Qed.

(** *** The ownership bonus *)

(** [is_own_file] compares the owner prefix of the bucket with the user
    recorded in the file itself.  Files are uploaded to buckets of the
    uploader only, so the flag is set for every file [upload_file] has
    stored, whoever searches. *)
Lemma enrich_one_is_own_file cfg now st h bucket_name :
  Str.has_char "_" (Hit.user_id h) = false →
  Hit.bucket_id h = Hit.user_id h +:+ "_" +:+ bucket_name →
  Enriched.is_own_file (enrich_one cfg now h st).1 = Some true
  ∧ Enriched.bucket_owner (enrich_one cfg now h st).1 = None.
Proof.
  intros Hno Hb. unfold enrich_one. rewrite Hb.
  change ("_" +:+ bucket_name) with (String "_"%char bucket_name).
  assert (Str.truthy (Hit.user_id h +:+ String "_"%char bucket_name) = true) as ->.
  { by destruct (Hit.user_id h). }
  unfold Str.split1. rewrite split_first_app by done.
  by rewrite str_eqb_refl.
Qed.

Lemma upload_record_bucket secure_filename cfg file_id now user_id bucket_name file :
  let record := upload_record secure_filename cfg file_id now user_id bucket_name file in
  FileInfo.bucket_id record = FileInfo.user_id record +:+ "_" +:+ bucket_name.
Proof. reflexivity. Qed.

(** C7, at the failing input.  The second example user searches for
    [report].  His own file, three days old, and the first user's shared
    file, one day old, both start with the query.  By the specification
    his file scores 65 and the shared one 60, so his comes first.  The code
    gives both files the ownership bonus, scores both 65 and lets the
    upload date decide: the shared file comes first. *)
Theorem ranking_own_file_bonus :
  let results := (search_files Config demo_now bob_id "report" None ranking_demo).1 in
  Hit.file_name ∘ Enriched.hit <$> results = ["report_a.pdf"; "report_b.pdf"]
  ∧ Hit.user_id ∘ Enriched.hit <$> results = [alice_id; bob_id]
  ∧ Enriched.is_own_file <$> results = [Some true; Some true]
  ∧ calculate_relevance_score "report" <$> results = [65; 65]
  ∧ relevance_score_spec bob_id "report" <$> results = [60; 65]
  ∧ ¬ sorted_desc tuple_leb
        (λ x, (relevance_score_spec bob_id "report" x, Hit.upload_date (Enriched.hit x)))
        results.
Proof.
  intros results.
  assert (Hspec : relevance_score_spec bob_id "report" <$> results = [60; 65])
    by (by vm_compute).
  split_and!; try (by vm_compute).
  intros Hsorted.
  assert (Hres : ∃ x y, results = [x; y]) by (vm_compute; eauto).
  destruct Hres as (x & y & Hres). rewrite Hres in Hsorted, Hspec.
  injection Hspec as Hx Hy.
  apply StronglySorted_inv in Hsorted as [_ Hall].
  apply Forall_cons in Hall as [Hle _].
  apply tuple_leb_iff in Hle. cbn [fst snd] in Hle. rewrite Hx, Hy in Hle.
  destruct Hle as [?|[? _]]; lia.
Qed.

(** * Further properties: the operations around the ones above *)

(** ** The two access checks ([_check_bucket_access], [can_perform_action]) *)

Lemma split_first_is_Some sep s :
  is_Some (Str.split_first sep s) ↔ Str.has_char sep s = true.
Proof.
  induction s as [|c s IH]; simpl.
  - split; [by intros [? ?] | done].
  - destruct (Ascii.eqb c sep); simpl; [split; [done | by eexists]|].
    rewrite <- IH. destruct (Str.split_first sep s) as [[a b]|]; split; intros [? ?];
      by try eexists.
Qed.

Lemma split1_length bucket_id :
  length (Str.split1 "_" bucket_id) = 2%nat ↔ Str.has_char "_" bucket_id = true.
Proof.
  rewrite <- split_first_is_Some. unfold Str.split1.
  destruct (Str.split_first "_" bucket_id) as [[a b]|]; simpl; split; try done;
    by intros [? ?].
Qed.

Lemma check_bucket_access_run user_id bucket_id action st :
  _check_bucket_access user_id bucket_id action st =
    (if negb (bool_decide (length (Str.split1 "_" bucket_id) = 2%nat)) then false
     else if Str.eqb (nth 0 (Str.split1 "_" bucket_id) "") user_id then true
     else match dict_get (permission_id bucket_id user_id) (permissions st) with
          | None => false
          | Some p =>
              let level := Permission.permission_level p in
              if Str.eqb action "view" then str_in level ["view"; "upload"; "full"]
              else if Str.eqb action "upload" then str_in level ["upload"; "full"]
              else if Str.eqb action "full" then Str.eqb level "full"
              else false
          end, st).
Proof.
  unfold _check_bucket_access, get_permission. mred.
  repeat (case_match; try done).
Qed.

Lemma check_bucket_access_owner user_id bucket_id action st :
  owner_prefix_is bucket_id user_id = true →
  (_check_bucket_access user_id bucket_id action st).1 = true.
Proof.
  unfold owner_prefix_is. intros [H1 H2]%andb_true_iff.
  rewrite check_bucket_access_run. cbn [fst]. by rewrite H1, H2.
Qed.

Lemma str_in_cons x y l : str_in x (y :: l) = Str.eqb x y || str_in x l.
Proof.
  unfold str_in. destruct (Str.eqb x y) eqn:E.
  - apply str_eqb_true in E as ->. simpl. apply bool_decide_eq_true. left.
  - apply str_eqb_false in E. simpl. apply bool_decide_ext.
    rewrite elem_of_cons. naive_solver.
Qed.

Lemma str_in_nil x : str_in x [] = false.
Proof. unfold str_in. apply bool_decide_eq_false. apply not_elem_of_nil. Qed.

(** X1.  What the storage manager allows, the permission manager allows:
    whenever [_check_bucket_access] grants an action on a bucket to a user,
    so does [can_perform_action], for every user, bucket identifier, action
    and state. *)
Theorem check_bucket_access_sound st user_id bucket_id action :
  (_check_bucket_access user_id bucket_id action st).1 = true →
  (can_perform_action user_id bucket_id action st).1 = true.
Proof.
  rewrite check_bucket_access_run, can_perform_action_run. cbn [fst].
  rewrite check_permission_level_run. cbn [fst]. unfold owner_prefix_is.
  destruct (bool_decide (length _ = 2%nat)); cbn [negb andb]; [|done..].
  destruct (Str.eqb (nth 0 _ "") user_id); [done|].
  destruct (dict_get _ _) as [p|]; [|done].
  cbn zeta. rewrite !str_in_cons, !str_in_nil.
  destruct (Str.eqb action "view") eqn:Ev;
    [|destruct (Str.eqb action "upload") eqn:Eu;
      [|destruct (Str.eqb action "full") eqn:Ef]];
    repeat (destruct (Str.eqb (Permission.permission_level p) _)); done.
Qed.

(** In the example state the second user may view the shared bucket under
    both checks. *)
Lemma check_bucket_access_sound_witness :
  (_check_bucket_access bob_id alice_docs "view" demo).1 = true
  ∧ (can_perform_action bob_id alice_docs "view" demo).1 = true.
Proof.
  split; [reflexivity|].
  apply (check_bucket_access_sound demo bob_id alice_docs "view"). reflexivity.
Defined.

(** X2.  For the actions view, upload and full the two checks give the
    same answer on every bucket identifier that holds an underscore, as long
    as no stored permission carries the level [owner].  (Without an
    underscore in the identifier the storage manager refuses, whatever the
    permissions file says.) *)
Theorem check_bucket_access_agrees st user_id bucket_id action :
  action ∈ ["view"; "upload"; "full"] →
  Str.has_char "_" bucket_id = true →
  (∀ p, (get_permission bucket_id user_id st).1 = Some p →
        Permission.permission_level p ≠ "owner") →
  (_check_bucket_access user_id bucket_id action st).1
  = (can_perform_action user_id bucket_id action st).1.
Proof.
  intros Haction Hsplit%split1_length Hlevel.
  rewrite check_bucket_access_run, can_perform_action_run. cbn [fst].
  rewrite check_permission_level_run. cbn [fst]. unfold owner_prefix_is.
  rewrite (bool_decide_eq_true_2 _ Hsplit). cbn [negb andb].
  destruct (Str.eqb (nth 0 _ "") user_id); [done|].
  unfold get_permission in Hlevel. mred. cbn [fst] in Hlevel.
  destruct (dict_get _ _) as [p|]; [|done].
  specialize (Hlevel p eq_refl). apply str_eqb_false in Hlevel. rewrite Hlevel.
  cbn zeta. rewrite !str_in_cons, !str_in_nil.
  rewrite !elem_of_cons, elem_of_nil in Haction.
  destruct Haction as [->|[->|[->|[]]]]; cbn;
    repeat (destruct (Str.eqb (Permission.permission_level p) _)); done.
Qed.

Lemma check_bucket_access_agrees_witness :
  (_check_bucket_access bob_id alice_docs "full" demo).1
  = (can_perform_action bob_id alice_docs "full" demo).1.
Proof.
  apply (check_bucket_access_agrees demo bob_id alice_docs "full").
  - rewrite !elem_of_cons. auto.
  - reflexivity.
  - intros p [= <-]. discriminate.
Defined.

(** ** Revoking and changing a share ([unshare_bucket], [update_bucket_permission]) *)

Lemma unshare_bucket_run st owner_id bucket_id email :
  unshare_bucket owner_id bucket_id email st =
    if negb (owner_prefix_is bucket_id owner_id) then
      (false, "You can only manage permissions for your own buckets", st)
    else match (get_user_by_email email st).1 with
         | None => (false, "User not found", st)
         | Some u =>
             let pid := permission_id bucket_id (User.user_id u) in
             let st' := set_writes (tail (writes st)) st in
             if dict_mem pid (permissions st) then
               match next_write st with
               | IoOk => (true, "Bucket access removed successfully",
                          set_permissions (dict_del pid (permissions st)) st')
               | IoOpenError => (false, "Failed to remove bucket access", st')
               | IoDumpError =>
                   (false, "Failed to remove bucket access", set_permissions [] st')
               end
             else (false, "Failed to remove bucket access", st)
         end.
Proof.
  unfold unshare_bucket. rewrite get_user_by_email_run. cbn [fst].
  destruct (owner_prefix_is bucket_id owner_id); cbn [negb]; [|done].
  unfold bind at 1. rewrite get_user_by_email_run.
  destruct (list_find _ _) as [[i u]|]; cbn [fmap option_fmap option_map snd]; [|done].
  unfold delete_permission, _write_json. mred.
  destruct (dict_mem _ _); [|done]. by destruct (next_write st).
Qed.

(** X3.  [unshare_bucket] succeeds exactly when the bucket identifier
    carries the caller as owner prefix, the e-mail address is that of a
    user, a permission record exists for the bucket and that user, and the
    write of the permissions file goes through.  A refusal changes nothing,
    unless it is the write that failed. *)
Theorem unshare_bucket_succeeds_iff st owner_id bucket_id email :
  let r := unshare_bucket owner_id bucket_id email st in
  (r.1.1 = true ↔
     owner_prefix_is bucket_id owner_id = true
     ∧ (∃ u, (get_user_by_email email st).1 = Some u
             ∧ is_Some (get_permission bucket_id (User.user_id u) st).1)
     ∧ next_write_ok st)
  ∧ (r.1.1 = false ∧ next_write_ok st → r.2 = st).
Proof.
  cbn zeta. rewrite unshare_bucket_run. unfold get_permission, next_write_ok. mred.
  cbn [fst]. unfold dict_mem.
  destruct (owner_prefix_is bucket_id owner_id); cbn [negb fst snd].
  2: { split; [|done]. split; [done | by intros [? _]]. }
  destruct ((get_user_by_email email st).1) as [u|]; cbn [fst snd].
  2: { split; [|done]. split; [done | by intros (_ & (? & ? & _) & _)]. }
  destruct (dict_get _ (permissions st)) as [p|] eqn:Hp; cbn [fst snd].
  2: { split; [|done]. split; [done|].
       intros (_ & (u' & [= <-] & Hsome) & _). rewrite Hp in Hsome. by destruct Hsome. }
  destruct (next_write st); cbn [fst snd].
  - split; [|by intros [? _]].
    split; [|done]. intros _. split_and!; [done| |done]. exists u. by rewrite Hp.
  - split; [|by intros [_ ?]]. split; [done | by intros (_ & _ & ?)].
  - split; [|by intros [_ ?]]. split; [done | by intros (_ & _ & ?)].
Qed.

(** X4.  After a successful [unshare_bucket] the permission record of the
    bucket and the user is gone; the user, when not the owner, is refused
    every action on the bucket by both access checks; every other
    permission record, the users, the files and the physical store are as
    before. *)
Theorem unshare_bucket_revokes st owner_id bucket_id email :
  let r := unshare_bucket owner_id bucket_id email st in
  r.1.1 = true →
  ∃ u, (get_user_by_email email st).1 = Some u
    ∧ (get_permission bucket_id (User.user_id u) r.2).1 = None
    ∧ (User.user_id u ≠ owner_id →
       ∀ action,
         (can_perform_action (User.user_id u) bucket_id action r.2).1 = false
         ∧ (_check_bucket_access (User.user_id u) bucket_id action r.2).1 = false)
    ∧ (∀ k, k ≠ permission_id bucket_id (User.user_id u) →
            dict_get k (permissions r.2) = dict_get k (permissions st))
    ∧ users r.2 = users st ∧ file_metadata r.2 = file_metadata st
    ∧ search_index r.2 = search_index st ∧ dirs r.2 = dirs st ∧ disk r.2 = disk st.
Proof.
  cbn zeta. rewrite unshare_bucket_run.
  destruct (owner_prefix_is bucket_id owner_id) eqn:Hown; cbn [negb]; [|done].
  destruct ((get_user_by_email email st).1) as [u|]; [|done].
  cbn zeta. destruct (dict_mem _ _); [|done].
  destruct (next_write st); [|done..]. intros _. cbn [fst snd].
  exists u. split; [done|].
  assert (Hget : dict_get (permission_id bucket_id (User.user_id u))
                   (dict_del (permission_id bucket_id (User.user_id u)) (permissions st))
                 = None) by apply dict_get_del_eq.
  split_and!; try done.
  - intros Hne action.
    assert (Hpre : owner_prefix_is bucket_id (User.user_id u) = false).
    { apply not_true_is_false. intros Hu. apply Hne.
      unfold owner_prefix_is in Hown, Hu.
      apply andb_true_iff in Hown as [_ Ho%str_eqb_true].
      apply andb_true_iff in Hu as [_ Hu%str_eqb_true]. congruence. }
    rewrite can_perform_action_run, check_bucket_access_run. cbn [fst].
    rewrite check_permission_level_run. cbn [fst permissions set_permissions].
    rewrite Hpre, Hget. unfold owner_prefix_is in Hpre.
    split; [done|].
    destruct (bool_decide (length _ = 2%nat)); cbn [negb andb] in *; [|done].
    by rewrite Hpre.
  - intros k Hk. cbn. by apply dict_get_del_ne.
Qed.

Lemma unshare_bucket_revokes_witness :
  let st' := (unshare_bucket alice_id alice_docs "bob@example.com" demo).2 in
  (get_permission alice_docs bob_id st').1 = None
  ∧ (_check_bucket_access bob_id alice_docs "view" st').1 = false.
Proof.
  destruct (unshare_bucket_revokes demo alice_id alice_docs "bob@example.com" eq_refl)
    as (u & Hu & Hnone & Hdeny & _).
  injection Hu as <-. split; [exact Hnone|].
  apply (Hdeny ltac:(discriminate) "view").
Defined.

Lemma dict_del_set {V} k (v : V) d : dict_get k d = None → dict_del k (dict_set k v d) = d.
Proof.
  induction d as [|[k' v'] d IH]; simpl.
  - by rewrite str_eqb_refl.
  - destruct (Str.eqb k' k) eqn:E; [done|]. simpl. rewrite E. intros H. by rewrite IH.
Qed.

(** X5.  Sharing and then unsharing is a round trip on the permissions
    file: when a bucket is shared with a user who had no record for it and
    the share is then removed, the permissions file is the one before the
    share, record for record and in the same order. *)
Theorem share_then_unshare cfg now st owner_id bucket_id email level :
  let r := share_bucket cfg now owner_id bucket_id email level st in
  r.1.1 = true →
  (∀ u, (get_user_by_email email st).1 = Some u →
        (get_permission bucket_id (User.user_id u) st).1 = None) →
  next_write_ok r.2 →
  let r' := unshare_bucket owner_id bucket_id email r.2 in
  r'.1.1 = true ∧ permissions r'.2 = permissions st ∧ users r'.2 = users st.
Proof.
  cbn zeta. destruct (share_bucket _ _ _ _ _ _ st) as [res st1] eqn:Hshare.
  cbn [fst snd]. intros Hok Hnew Hwrite.
  assert (Hpre : owner_prefix_is bucket_id owner_id = true).
  { apply not_false_iff_true. intros Hf.
    assert (Hfail : (share_bucket cfg now owner_id bucket_id email level st).1.1 = false).
    { apply share_bucket_fails_iff. auto. }
    rewrite Hshare in Hfail. cbn in Hfail. congruence. }
  destruct (share_bucket_success _ _ _ _ _ _ _ _ _ Hshare Hok) as (u & Hu & Husers & Hperm & _).
  specialize (Hnew u Hu). unfold get_permission in Hnew. mred. cbn [fst] in Hnew.
  rewrite Hnew in Hperm.
  rewrite unshare_bucket_run, Hpre. cbn [negb].
  assert (Hu1 : (get_user_by_email email st1).1 = Some u).
  { rewrite get_user_by_email_run in *. cbn [fst] in *. by rewrite Husers. }
  rewrite Hu1. cbn zeta. unfold dict_mem. rewrite Hperm, dict_get_set_eq.
  unfold next_write_ok in Hwrite. rewrite Hwrite. cbn [fst snd].
  split_and!; [done| |done].
  cbn. by apply dict_del_set.
Qed.

Lemma share_then_unshare_witness :
  let bucket := alice_id +:+ "_photos" in
  let r := share_bucket Config demo_now alice_id bucket "bob@example.com" "view" demo in
  r.1.1 = true
  ∧ permissions (unshare_bucket alice_id bucket "bob@example.com" r.2).2 = permissions demo.
Proof.
  split; [reflexivity|].
  apply (share_then_unshare Config demo_now demo alice_id (alice_id +:+ "_photos")
           "bob@example.com" "view" eq_refl).
  - intros u [= <-]. reflexivity.
  - reflexivity.
Defined.

Lemma update_bucket_permission_run cfg st owner_id bucket_id email level :
  update_bucket_permission cfg owner_id bucket_id email level st =
    if negb (dict_mem level (PERMISSION_LEVELS cfg)) then
      (false, "Invalid permission level", st)
    else if negb (owner_prefix_is bucket_id owner_id) then
      (false, "You can only manage permissions for your own buckets", st)
    else match (get_user_by_email email st).1 with
         | None => (false, "User not found", st)
         | Some u =>
             let pid := permission_id bucket_id (User.user_id u) in
             let st' := set_writes (tail (writes st)) st in
             match dict_get pid (permissions st) with
             | Some p =>
                 match next_write st with
                 | IoOk => (true, "Permission updated to " +:+ level_name cfg level,
                            set_permissions
                              (dict_set pid (Permission.set_level level p) (permissions st))
                              st')
                 | IoOpenError => (false, "Failed to update permission", st')
                 | IoDumpError =>
                     (false, "Failed to update permission", set_permissions [] st')
                 end
             | None => (false, "Failed to update permission", st)
             end
         end.
Proof.
  unfold update_bucket_permission. rewrite get_user_by_email_run. cbn [fst].
  destruct (dict_mem level _); cbn [negb]; [|done].
  destruct (owner_prefix_is bucket_id owner_id); cbn [negb]; [|done].
  unfold bind at 1. rewrite get_user_by_email_run.
  destruct (list_find _ _) as [[i u]|]; cbn [fmap option_fmap option_map snd]; [|done].
  unfold update_permission, _write_json. mred.
  destruct (dict_get _ (permissions st)); [|done]. by destruct (next_write st).
Qed.

(** X6.  [update_bucket_permission] changes a share and never makes one.
    It succeeds exactly when the level is a permission level, the caller is
    the owner prefix of the bucket identifier, the e-mail address is that of
    a user, that user already has a permission record for the bucket, and
    the write goes through.  The record then carries the new level and
    keeps its other fields; in every case the permissions file has the same
    keys in the same order afterwards, unless the write truncated it. *)
Theorem update_bucket_permission_never_creates cfg st owner_id bucket_id email level :
  let r := update_bucket_permission cfg owner_id bucket_id email level st in
  (r.1.1 = true ↔
     dict_mem level (PERMISSION_LEVELS cfg) = true
     ∧ owner_prefix_is bucket_id owner_id = true
     ∧ (∃ u, (get_user_by_email email st).1 = Some u
             ∧ is_Some (get_permission bucket_id (User.user_id u) st).1)
     ∧ next_write_ok st)
  ∧ (r.1.1 = true →
     ∃ u p, (get_user_by_email email st).1 = Some u
       ∧ (get_permission bucket_id (User.user_id u) st).1 = Some p
       ∧ (get_permission bucket_id (User.user_id u) r.2).1
         = Some (Permission.set_level level p))
  ∧ (next_write st ≠ IoDumpError →
     dict_keys (permissions r.2) = dict_keys (permissions st)).
Proof.
  cbn zeta. rewrite update_bucket_permission_run.
  unfold get_permission, next_write_ok. mred. cbn [fst].
  destruct (dict_mem level _); cbn [negb fst snd].
  2: { split_and!; [|done..]. split; [done | by intros [? _]]. }
  destruct (owner_prefix_is bucket_id owner_id); cbn [negb fst snd].
  2: { split_and!; [|done..]. split; [done | by intros (_ & ? & _)]. }
  destruct ((get_user_by_email email st).1) as [u|]; cbn [fst snd].
  2: { split_and!; [|done..]. split; [done | by intros (_ & _ & (? & ? & _) & _)]. }
  destruct (dict_get _ (permissions st)) as [p|] eqn:Hp; cbn [fst snd].
  2: { split_and!; [|done..]. split; [done|].
       intros (_ & _ & (u' & [= <-] & Hsome) & _). rewrite Hp in Hsome. by destruct Hsome. }
  destruct (next_write st); cbn [fst snd].
  - split_and!.
    + split; [|done]. intros _. split_and!; [done..| |done]. exists u. by rewrite Hp.
    + intros _. exists u, p. split_and!; [done..|]. cbn. by rewrite dict_get_set_eq.
    + intros _. unfold set_permissions. cbn [permissions snd].
      rewrite dict_keys_set. unfold dict_mem. by rewrite Hp.
  - split_and!; [|done..]. split; [done | by intros (_ & _ & _ & ?)].
  - split_and!; [|done..]. split; [done | by intros (_ & _ & _ & ?)].
Qed.

(** ** Checking a sharing request ([validate_sharing_request]) *)

Lemma validate_sharing_request_run cfg st owner_id bucket_id email level :
  validate_sharing_request cfg owner_id bucket_id email level st =
    (if negb (dict_mem level (PERMISSION_LEVELS cfg)) then
       (false, "Invalid permission level")
     else if negb (owner_prefix_is bucket_id owner_id) then
       (false, "You can only share your own buckets")
     else if negb (str_in (nth 1 (Str.split1 "_" bucket_id) "")
                     (get_user_buckets owner_id st).1) then
       (false, "Bucket does not exist")
     else match (get_user_by_email email st).1 with
          | None => (false, "Target user not found")
          | Some u =>
              if Str.eqb (User.user_id u) owner_id then
                (false, "Cannot share bucket with yourself")
              else (true, "Valid sharing request")
          end, st).
Proof.
  unfold validate_sharing_request. rewrite get_user_by_email_run. cbn [fst].
  destruct (dict_mem level _); cbn [negb]; [|done].
  destruct (owner_prefix_is bucket_id owner_id); cbn [negb]; [|done].
  unfold get_user_buckets. mred. cbn [fst].
  destruct (str_in _ _); cbn [negb]; [|reflexivity].
  rewrite get_user_by_email_run.
  destruct (list_find _ _) as [[i u]|]; cbn [fmap option_fmap option_map snd];
    [|reflexivity].
  destruct (Str.eqb _ _); reflexivity.
Qed.

(** X7.  [validate_sharing_request] accepts a request exactly when
    [share_bucket] would carry it out and, in addition, the bucket named
    after the owner prefix exists among the buckets of the owner.  It reads
    and changes nothing. *)
Theorem validate_sharing_request_iff cfg now st owner_id bucket_id email level :
  next_write_ok st →
  ((validate_sharing_request cfg owner_id bucket_id email level st).1.1 = true ↔
     (share_bucket cfg now owner_id bucket_id email level st).1.1 = true
     ∧ nth 1 (Str.split1 "_" bucket_id) "" ∈ (get_user_buckets owner_id st).1)
  ∧ (validate_sharing_request cfg owner_id bucket_id email level st).2 = st.
Proof.
  intros Hw. rewrite validate_sharing_request_run. cbn [fst snd]. split; [|done].
  rewrite <- (not_false_iff_true (share_bucket _ _ _ _ _ _ _).1.1), share_bucket_fails_iff.
  unfold str_in.
  destruct (dict_mem level _); cbn [negb fst]; [|naive_solver].
  destruct (owner_prefix_is bucket_id owner_id); cbn [negb fst]; [|naive_solver].
  destruct (bool_decide _) eqn:Hin; cbn [negb fst].
  2: { apply bool_decide_eq_false in Hin. naive_solver. }
  apply bool_decide_eq_true in Hin.
  destruct ((get_user_by_email email st).1) as [u|]; cbn [fst]; [|naive_solver].
  destruct (Str.eqb (User.user_id u) owner_id) eqn:E; cbn [fst].
  - apply str_eqb_true in E. naive_solver.
  - apply str_eqb_false in E. naive_solver.
Qed.

Lemma validate_sharing_request_iff_witness :
  (validate_sharing_request Config alice_id alice_docs "bob@example.com" "full" demo).1.1
  = true
  ∧ (validate_sharing_request Config alice_id (alice_id +:+ "_photos") "bob@example.com"
       "full" demo).1.1 = false
  ∧ (share_bucket Config demo_now alice_id (alice_id +:+ "_photos") "bob@example.com"
       "full" demo).1.1 = true.
Proof.
  split; [|split; reflexivity].
  apply (validate_sharing_request_iff Config demo_now demo alice_id alice_docs
           "bob@example.com" "full" eq_refl).
  split; [reflexivity|]. apply (bool_decide_unpack _). reflexivity.
Defined.

(** ** Listing buckets and shares *)

(** A loop whose body reads the state without changing it computes a
    function of the list. *)
Lemma collect_pure {A B} (body : A → M (option B)) (f : A → option B) l st :
  (∀ x, x ∈ l → body x st = (f x, st)) →
  collect l body st = (omap f l, st).
Proof.
  induction l as [|x l IH]; intros Hbody; [done|].
  cbn [collect]. unfold bind at 1. rewrite Hbody by left.
  unfold bind at 1. rewrite IH by (intros y Hy; apply Hbody; by right).
  cbn [omap list_omap]. unfold ret. by destruct (f x).
Qed.

Lemma get_shared_buckets_run cfg user_id st :
  get_shared_buckets cfg user_id st =
    (omap (shared_entry cfg st) (get_shared_buckets_for_user user_id st).1, st).
Proof.
  unfold get_shared_buckets. unfold bind at 1.
  unfold get_shared_buckets_for_user at 1. mred.
  apply collect_pure. intros perm _. unfold shared_entry, get_user_by_id. mred.
  destruct (Str.split1 "_" _) as [|a [|b [|c l]]]; try reflexivity.
  by destruct (dict_get a (users st)).
Qed.

Lemma sublist_omap_fmap {A B C} (f : A → option B) (g : B → C) (h : A → C) l :
  (∀ x y, f x = Some y → g y = h x) →
  g <$> omap f l `sublist_of` h <$> l.
Proof.
  intros Hf. induction l as [|x l IH]; csimpl; [done|].
  destruct (f x) as [y|] eqn:E; csimpl.
  - rewrite (Hf _ _ E). by constructor.
  - by constructor.
Qed.

Lemma shared_entry_bucket_id cfg st perm b :
  shared_entry cfg st perm = Some b → Bucket.bucket_id b = Permission.bucket_id perm.
Proof.
  unfold shared_entry. destruct (Str.split1 "_" _) as [|o [|n [|c l]]]; try done.
  destruct (dict_get o (users st)); [|done]. by intros [= <-].
Qed.

Lemma get_user_accessible_buckets_run cfg user_id st :
  get_user_accessible_buckets cfg user_id st =
    (((λ bucket_name,
         Bucket.mk (user_id +:+ "_" +:+ bucket_name) bucket_name user_id None
           "owner" "Owner" None false) <$> (get_user_buckets user_id st).1)
     ++ omap (shared_entry cfg st) (get_shared_buckets_for_user user_id st).1, st).
Proof.
  unfold get_user_accessible_buckets, bind.
  change (get_user_buckets user_id st) with ((get_user_buckets user_id st).1, st).
  cbn iota. by rewrite get_shared_buckets_run.
Qed.

Lemma get_accessible_bucket_ids_run user_id st :
  _get_accessible_bucket_ids user_id st =
    (((λ bucket, user_id +:+ "_" +:+ bucket) <$> (get_user_buckets user_id st).1)
     ++ (Permission.bucket_id <$> (get_shared_buckets_for_user user_id st).1), st).
Proof. reflexivity. Qed.

(** X8.  The buckets that [get_user_accessible_buckets] lists are among
    the buckets that the search covers for the same user, in the same
    order: the listing is a sublist of [_get_accessible_bucket_ids].  The
    buckets of the user come first and none is left out; a shared bucket is
    left out when its identifier has no underscore or its owner prefix is
    not the identifier of a user. *)
Theorem accessible_buckets_sublist cfg user_id st :
  let listed := (get_user_accessible_buckets cfg user_id st).1 in
  Bucket.bucket_id <$> listed `sublist_of` (_get_accessible_bucket_ids user_id st).1
  ∧ Bucket.bucket_id <$> filter (λ b, Bucket.is_shared b = false) listed
    = (λ bucket, user_id +:+ "_" +:+ bucket) <$> (get_user_buckets user_id st).1
  ∧ (get_user_accessible_buckets cfg user_id st).2 = st.
Proof.
  cbn zeta. rewrite get_user_accessible_buckets_run, get_accessible_bucket_ids_run.
  cbn [fst snd].
  set (own := (get_user_buckets user_id st).1).
  split_and!; [| |done].
  - rewrite fmap_app. apply sublist_app.
    + by rewrite <- list_fmap_compose.
    + apply sublist_omap_fmap. apply shared_entry_bucket_id.
  - rewrite filter_app, fmap_app.
    assert (H1 : filter (λ b, Bucket.is_shared b = false)
                   ((λ bucket_name,
                       Bucket.mk (user_id +:+ "_" +:+ bucket_name) bucket_name user_id
                         None "owner" "Owner" None false) <$> own)
                 = (λ bucket_name,
                       Bucket.mk (user_id +:+ "_" +:+ bucket_name) bucket_name user_id
                         None "owner" "Owner" None false) <$> own).
    { induction own as [|x own IH]; [done|]. csimpl.
      rewrite filter_cons_True by done. by rewrite IH. }
    rewrite H1, <- list_fmap_compose.
    rewrite filter_none, app_nil_r; [done|].
    intros b (perm & _ & Hb)%list_elem_of_omap.
    unfold shared_entry in Hb.
    destruct (Str.split1 "_" _) as [|o [|n [|c l]]]; try done.
    destruct (dict_get o (users st)); [|done]. by injection Hb as <-.
Qed.

Lemma count_shared_by_user_run user_id user_buckets shared_by_user st :
  count_shared_by_user user_id user_buckets shared_by_user st =
    (shared_by_user
     + Z.of_nat (length (filter
         (λ bucket_name,
            (get_permissions_by_bucket (user_id +:+ "_" +:+ bucket_name) st).1 ≠ [])
         user_buckets)), st).
Proof.
  revert shared_by_user. induction user_buckets as [|b l IH]; intros acc.
  - cbn. unfold ret. f_equal. lia.
  - cbn [count_shared_by_user]. unfold bind at 1.
    change (get_permissions_by_bucket (user_id +:+ "_" +:+ b) st)
      with ((get_permissions_by_bucket (user_id +:+ "_" +:+ b) st).1, st).
    cbn iota. rewrite IH. f_equal.
    destruct (decide ((get_permissions_by_bucket (user_id +:+ "_" +:+ b) st).1 ≠ []))
      as [Hne|He].
    + rewrite filter_cons_True by done. rewrite bool_decide_eq_true_2 by done.
      cbn [length]. lia.
    + rewrite filter_cons_False by done. rewrite bool_decide_eq_false_2 by done. done.
Qed.

Lemma sm_get_user_buckets_run user_id st :
  sm_get_user_buckets user_id st =
    (true, "Buckets retrieved successfully",
     (λ bucket_name,
        let bucket_id := user_id +:+ "_" +:+ bucket_name in
        let files := (get_files_by_bucket bucket_id st).1 in
        BucketInfo.mk bucket_id bucket_name (Z.of_nat (length files)) (sum_sizes files)
          (0 <? Z.of_nat (length (get_permissions_by_bucket bucket_id st).1)))
     <$> (get_user_buckets user_id st).1, st).
Proof.
  unfold sm_get_user_buckets. unfold bind at 1.
  change (get_user_buckets user_id st) with ((get_user_buckets user_id st).1, st).
  cbn iota. unfold bind at 1.
  erewrite collect_pure; [|intros x _; reflexivity].
  unfold ret. f_equal.
Qed.

(** X9.  The counts of [get_permission_summary] agree with the listings:
    [total_accessible] is the number of entries of
    [get_user_accessible_buckets], [shared_by_me] is the number of buckets
    that [StorageManager.get_user_buckets] flags as shared, and it never
    exceeds [own_buckets]. *)
Theorem permission_summary_counts cfg user_id st :
  let s := (get_permission_summary cfg user_id st).1 in
  PermissionSummary.total_accessible s
  = Z.of_nat (length (get_user_accessible_buckets cfg user_id st).1)
  ∧ PermissionSummary.shared_by_me s
    = Z.of_nat (length (filter (λ b, BucketInfo.is_shared b = true)
                          (sm_get_user_buckets user_id st).1.2))
  ∧ 0 ≤ PermissionSummary.shared_by_me s ≤ PermissionSummary.own_buckets s
  ∧ (get_permission_summary cfg user_id st).2 = st.
Proof.
  cbn zeta. unfold get_permission_summary, bind.
  change (get_user_buckets user_id st) with ((get_user_buckets user_id st).1, st).
  cbn iota. rewrite get_shared_buckets_run.
  change (get_user_buckets user_id st) with ((get_user_buckets user_id st).1, st).
  cbn iota. rewrite count_shared_by_user_run. unfold ret. cbn [fst snd].
  cbn [PermissionSummary.total_accessible PermissionSummary.shared_by_me
       PermissionSummary.own_buckets].
  rewrite get_user_accessible_buckets_run, sm_get_user_buckets_run. cbn [fst snd].
  set (own := (get_user_buckets user_id st).1).
  split_and!; [| | | |done].
  - rewrite length_app, length_fmap. lia.
  - rewrite Z.add_0_l. f_equal.
    induction own as [|b l IH]; [done|]. rewrite fmap_cons.
    destruct (decide ((get_permissions_by_bucket (user_id +:+ "_" +:+ b) st).1 = []))
      as [E|E].
    + rewrite filter_cons_False by (intros H; by apply H).
      rewrite filter_cons_False; [done|].
      cbn [BucketInfo.is_shared]. by rewrite E.
    + rewrite filter_cons_True by done.
      rewrite filter_cons_True; [cbn [length]; by rewrite IH|].
      cbn [BucketInfo.is_shared].
      by destruct ((get_permissions_by_bucket (user_id +:+ "_" +:+ b) st).1).
  - lia.
  - rewrite Z.add_0_l. apply inj_le. apply length_filter.
Qed.

(** ** Creating a bucket ([create_bucket], [_validate_bucket_name]) *)

Lemma create_bucket_run now st user_id bucket_name :
  create_bucket now user_id bucket_name st =
    if negb (_validate_bucket_name bucket_name) then
      (false, "Invalid bucket name. Use only letters, numbers, hyphens, and underscores",
       None, st)
    else if str_in bucket_name (get_user_buckets user_id st).1 then
      (false, "Bucket already exists", None, st)
    else
      (true, "Bucket created successfully",
       Some (BucketData.mk (user_id +:+ "_" +:+ bucket_name) bucket_name user_id
               (DT.isoformat now) 0 0),
       set_dirs (dirs st ++ [(user_id, bucket_name)]) st).
Proof.
  unfold create_bucket.
  destruct (_validate_bucket_name bucket_name); cbn [negb]; [|done].
  unfold bind at 1. rewrite get_user_buckets_run. cbn [fst].
  unfold str_in. destruct (bool_decide _) eqn:Hin; [done|].
  apply bool_decide_eq_false in Hin.
  unfold create_bucket_metadata, mkdir. mred.
  rewrite bool_decide_eq_false_2; [done|].
  intros Hd. apply Hin. apply (get_user_buckets_elem user_id bucket_name st), Hd.
Qed.

Lemma forallb_has_char (P : ascii → bool) s c :
  forallb P (list_ascii_of_string s) = true → Str.has_char c s = true → P c = true.
Proof.
  induction s as [|c' s IH]; simpl; [done|].
  intros [Hc Hs]%andb_true_iff [->%Ascii.eqb_eq|H]%orb_true_iff; auto.
Qed.

Lemma validate_bucket_name_chars bucket_name c :
  _validate_bucket_name bucket_name = true →
  Str.has_char c bucket_name = true → Str.has_char c allowed_chars = true.
Proof.
  unfold _validate_bucket_name. destruct (_ || _); [done|].
  apply (forallb_has_char (λ c, Str.has_char c allowed_chars)).
Qed.

(** X10.  [create_bucket] succeeds exactly when the name is valid and the
    user has no bucket of that name.  It then adds the bucket to the
    buckets of the user: the new listing holds the new bucket once and the
    former buckets as often as before, in whatever order the directory is
    read.  It returns the description of the bucket with no file, and
    touches neither the buckets of other users nor the JSON files nor the
    stored bytes; the name holds no slash and no dot, so that the bucket
    directory is a child of the directory of the user.  When it fails the
    state is unchanged. *)
Theorem create_bucket_spec now st user_id bucket_name :
  let r := create_bucket now user_id bucket_name st in
  (r.1.1.1 = true ↔
     _validate_bucket_name bucket_name = true
     ∧ bucket_name ∉ (get_user_buckets user_id st).1)
  ∧ (r.1.1.1 = true →
     r.1.2 = Some (BucketData.mk (user_id +:+ "_" +:+ bucket_name) bucket_name user_id
                     (DT.isoformat now) 0 0)
     ∧ (get_user_buckets user_id r.2).1 ≡ₚ bucket_name :: (get_user_buckets user_id st).1
     ∧ (∀ other, other ≠ user_id →
          (get_user_buckets other r.2).1 = (get_user_buckets other st).1)
     ∧ users r.2 = users st ∧ permissions r.2 = permissions st
     ∧ file_metadata r.2 = file_metadata st ∧ search_index r.2 = search_index st
     ∧ disk r.2 = disk st ∧ writes r.2 = writes st
     ∧ Str.has_char "/" bucket_name = false ∧ Str.has_char "." bucket_name = false)
  ∧ (r.1.1.1 = false → r.2 = st).
Proof.
  cbn zeta. rewrite create_bucket_run. unfold str_in.
  destruct (_validate_bucket_name bucket_name) eqn:Hvalid; cbn [negb fst snd].
  2: { split_and!; [|done..]. split; [done | by intros [? _]]. }
  destruct (bool_decide _) eqn:Hin; cbn [fst snd].
  - apply bool_decide_eq_true in Hin. split_and!; [|done..].
    split; [done | by intros [_ ?]].
  - apply bool_decide_eq_false in Hin. split_and!; [done| |done]. intros _.
    rewrite !get_user_buckets_run. unfold set_dirs. cbn [fst dirs].
    split_and!; try done.
    + rewrite filter_app, fmap_app.
      rewrite filter_cons_True by done. cbn [filter list_filter fmap list_fmap snd].
      symmetry. apply Permutation_cons_append.
    + intros other Hne. rewrite !get_user_buckets_run. cbn [fst dirs].
      rewrite filter_app, fmap_app.
      rewrite (filter_cons_False _ (user_id, bucket_name)) by (cbn; congruence).
      by rewrite filter_nil, app_nil_r.
    + apply not_true_is_false. intros H.
      by apply (validate_bucket_name_chars _ _ Hvalid) in H.
    + apply not_true_is_false. intros H.
      by apply (validate_bucket_name_chars _ _ Hvalid) in H.
Qed.

Example validate_bucket_name_examples :
  _validate_bucket_name "my-bucket_2" = true
  ∧ _validate_bucket_name "" = false
  ∧ _validate_bucket_name "a/b" = false
  ∧ _validate_bucket_name ".." = false
  ∧ _validate_bucket_name "with space" = false
  ∧ _validate_bucket_name
      "0123456789012345678901234567890123456789012345678901234567890123" = false.
Proof. repeat split; reflexivity. Qed.

(** X11.  A bucket is in use as soon as it is created: creating it again
    is refused with the state unchanged, and an upload of a valid file into
    it by the same user goes through when the two JSON writes do. *)
Theorem create_bucket_then secure_filename cfg now st user_id bucket_name
    file_id now' file :
  let st1 := (create_bucket now user_id bucket_name st).2 in
  (create_bucket now user_id bucket_name st).1.1.1 = true →
  Str.truthy (filename file) = true →
  (_validate_file secure_filename cfg file).1 = true →
  next_write st = IoOk → second_write st = IoOk →
  create_bucket now' user_id bucket_name st1
  = (false, "Bucket already exists", None, st1)
  ∧ (upload_file secure_filename cfg file_id now' user_id bucket_name file st1).1.1.1
    = true.
Proof.
  cbn zeta. rewrite (create_bucket_run now st).
  destruct (_validate_bucket_name bucket_name) eqn:Hvalid; cbn [negb]; [|done].
  destruct (str_in _ _) eqn:Hin; [done|]. cbn [fst snd].
  intros _ Hname Hfile Hw1 Hw2.
  set (st1 := set_dirs _ st).
  assert (Hmem : bucket_name ∈ (get_user_buckets user_id st1).1).
  { apply get_user_buckets_elem. cbn. apply elem_of_app. right. left. }
  split.
  - rewrite create_bucket_run, Hvalid. cbn [negb]. unfold str_in.
    by rewrite bool_decide_eq_true_2.
  - pose proof (upload_file_metadata_step secure_filename cfg file_id now' user_id
                  bucket_name file st1 Hname Hmem Hfile) as [Hr _].
    cbn zeta in Hr. rewrite Hr.
    rewrite bool_decide_eq_true_2; [done|]. by split.
Qed.

Lemma create_bucket_then_witness :
  let st1 := (create_bucket demo_now alice_id "photos" demo).2 in
  let file := {| filename := "cat.png"; content_length := 3; data := "png" |} in
  (get_user_buckets alice_id st1).1 = ["docs"; "photos"]
  ∧ (upload_file Werkzeug.secure_filename Config new_file_id demo_now alice_id "photos"
       file st1).1.1.1 = true.
Proof.
  split; [reflexivity|].
  apply (create_bucket_then Werkzeug.secure_filename Config demo_now demo alice_id
           "photos" new_file_id demo_now
           {| filename := "cat.png"; content_length := 3; data := "png" |});
    reflexivity.
Defined.

(** ** Reading and deleting a file ([download_file], [delete_file]) *)

Lemma download_file_run user_id file_id st :
  download_file user_id file_id st =
    (match dict_get file_id (file_metadata st) with
     | None => (false, "File not found", None)
     | Some m =>
         if negb (_check_bucket_access user_id (FileInfo.bucket_id m) "view" st).1 then
           (false, "Access denied", None)
         else if negb (dict_mem (FileInfo.file_path m) (disk st)) then
           (false, "File not found on disk", None)
         else (true, "File found", Some (FileInfo.file_path m))
     end, st).
Proof.
  unfold download_file, get_file_metadata. mred.
  destruct (dict_get file_id (file_metadata st)) as [m|]; [|done].
  rewrite (surjective_pairing (_check_bucket_access _ _ _ _)).
  rewrite check_bucket_access_state.
  destruct ((_check_bucket_access _ _ _ _).1); cbn [negb]; [|done].
  unfold exists_file. mred.
  by destruct (dict_mem _ _).
Qed.

(** X12.  [download_file] hands out a path only to a user who may view
    the bucket of the file: the owner named by the prefix of the bucket
    identifier, or a user with a permission record of level view, upload or
    full.  The path is the one of the metadata record, a file is stored
    under it, and nothing is changed. *)
Theorem download_file_authorized user_id file_id st :
  let r := download_file user_id file_id st in
  r.1.1.1 = true →
  ∃ m, (get_file_metadata file_id st).1 = Some m
    ∧ r.1 = (true, "File found", Some (FileInfo.file_path m))
    ∧ is_Some (dict_get (FileInfo.file_path m) (disk st))
    ∧ (owner_prefix_is (FileInfo.bucket_id m) user_id = true
       ∨ ∃ p, (get_permission (FileInfo.bucket_id m) user_id st).1 = Some p
              ∧ Permission.permission_level p ∈ ["view"; "upload"; "full"])
    ∧ r.2 = st.
Proof.
  cbn zeta. rewrite download_file_run. cbn [fst snd].
  unfold get_file_metadata, get_permission. mred. cbn [fst].
  destruct (dict_get file_id (file_metadata st)) as [m|]; [|done].
  destruct ((_check_bucket_access _ _ _ _).1) eqn:Hacc; cbn [negb]; [|done].
  destruct (dict_mem _ _) eqn:Hmem; cbn [negb]; [|done]. intros _.
  exists m. split_and!; try done.
  - by apply dict_mem_true.
  - rewrite check_bucket_access_run in Hacc. cbn [fst] in Hacc. unfold owner_prefix_is.
    destruct (bool_decide (length _ = 2%nat)); cbn [negb andb] in *; [|done].
    destruct (Str.eqb (nth 0 _ "") user_id); [by left|]. right.
    destruct (dict_get _ (permissions st)) as [p|]; [|done].
    exists p. split; [done|]. cbn in Hacc. by apply bool_decide_eq_true in Hacc.
Qed.

Lemma download_file_authorized_witness :
  (download_file bob_id "f2" demo).1
  = (true, "File found", Some (path_join (bucket_path alice_id "docs") "f2.pdf"))
  ∧ ∃ p, (get_permission alice_docs bob_id demo).1 = Some p
         ∧ Permission.permission_level p = "upload".
Proof.
  destruct (download_file_authorized bob_id "f2" demo eq_refl)
    as (m & Hm & Hr & _ & Hwho & _).
  injection Hm as <-. split; [exact Hr|].
  destruct Hwho as [Hown|(p & Hp & _)]; [discriminate Hown|].
  exists p. split; [exact Hp|]. by injection Hp as <-.
Defined.

(** X13.  What is uploaded can be downloaded: after a successful
    [upload_file] by a user whose identifier holds no underscore,
    [download_file] by the same user finds the new file, and the path it
    returns holds the uploaded bytes. *)
Theorem upload_then_download secure_filename cfg file_id now user_id bucket_name
    file st :
  Str.has_char "_" user_id = false →
  let r := upload_file secure_filename cfg file_id now user_id bucket_name file st in
  r.1.1.1 = true →
  ∃ path,
    download_file user_id file_id r.2 = (true, "File found", Some path, r.2)
    ∧ dict_get path (disk r.2) = Some (data file).
Proof.
  intros Huid. cbn zeta.
  destruct (Str.truthy (filename file)) eqn:Hname.
  2: { unfold upload_file. by rewrite Hname. }
  destruct (decide (bucket_name ∈ (get_user_buckets user_id st).1)) as [Hmem|Hmem].
  2: { unfold upload_file. rewrite Hname. cbn [negb]. unfold bind at 1.
       rewrite get_user_buckets_run. cbn [fst] in *. unfold str_in.
       rewrite get_user_buckets_run in Hmem. cbn [fst] in Hmem.
       by rewrite bool_decide_eq_false_2. }
  destruct ((_validate_file secure_filename cfg file).1) eqn:Hvalid.
  2: { intros Hr. by rewrite (proj1 (upload_file_invalid secure_filename cfg file_id now
                                      user_id bucket_name file st Hvalid)) in Hr. }
  pose proof (upload_file_metadata_step secure_filename cfg file_id now user_id
                bucket_name file st Hname Hmem Hvalid) as Hstep.
  cbn zeta in Hstep. destruct Hstep as (Hr & Hdisk & Hmeta & _ & _ & _ & Hperm).
  rewrite Hr. destruct (bool_decide _) eqn:Hboth; [|done]. intros _.
  apply bool_decide_eq_true in Hboth as [Hw1 Hw2]. rewrite Hw1 in Hmeta.
  set (record := upload_record secure_filename cfg file_id now user_id bucket_name file)
    in *.
  exists (FileInfo.file_path record).
  rewrite download_file_run, Hmeta, dict_get_set_eq.
  rewrite check_bucket_access_owner by (by apply owner_prefix_is_own).
  cbn [negb]. unfold dict_mem. rewrite Hdisk, dict_get_set_eq. done.
Qed.

Lemma upload_then_download_witness :
  let file := {| filename := "My Notes.TXT"; content_length := 5; data := "hello" |} in
  let r := upload_file Werkzeug.secure_filename Config new_file_id demo_now alice_id "docs"
             file demo in
  ∃ path,
    download_file alice_id new_file_id r.2 = (true, "File found", Some path, r.2)
    ∧ dict_get path (disk r.2) = Some "hello".
Proof.
  apply (upload_then_download Werkzeug.secure_filename Config new_file_id demo_now
           alice_id "docs"
           {| filename := "My Notes.TXT"; content_length := 5; data := "hello" |} demo);
    reflexivity.
Defined.

Lemma delete_file_run user_id file_id st :
  delete_file user_id file_id st =
    match dict_get file_id (file_metadata st) with
    | None => (false, "File not found", st)
    | Some m =>
        if negb (_check_bucket_access user_id (FileInfo.bucket_id m) "full" st).1 then
          (false, "Insufficient permissions to delete file", st)
        else
          (true, "File deleted successfully",
           (delete_file_metadata file_id
              (set_disk (dict_del (FileInfo.file_path m) (disk st)) st)).2)
    end.
Proof.
  unfold delete_file, get_file_metadata. mred.
  destruct (dict_get file_id (file_metadata st)) as [m|]; [|done].
  rewrite (surjective_pairing (_check_bucket_access _ _ _ _)).
  rewrite check_bucket_access_state.
  destruct ((_check_bucket_access _ _ _ _).1); cbn [negb]; [|done].
  unfold exists_file, unlink. mred.
  destruct (dict_mem (FileInfo.file_path m) (disk st)) eqn:Hmem.
  - by destruct (delete_file_metadata _ _).
  - rewrite (dict_del_absent _ _ Hmem).
    replace (set_disk (disk st) st) with st by by destruct st.
    by destruct (delete_file_metadata _ _).
Qed.

(** X14.  [delete_file] goes through exactly when the file has a metadata
    record and the user has full access to its bucket; the outcome of the
    JSON writes plays no part in the answer.  It then removes the stored
    bytes and, when the writes go through, the metadata record and the
    search-index entry of the file, and nothing else; users, permissions and
    bucket directories are never touched.  A refusal changes nothing. *)
Theorem delete_file_spec user_id file_id st :
  let r := delete_file user_id file_id st in
  (r.1.1 = true ↔
     ∃ m, (get_file_metadata file_id st).1 = Some m
          ∧ (_check_bucket_access user_id (FileInfo.bucket_id m) "full" st).1 = true)
  ∧ (r.1.1 = true →
     ∃ m, (get_file_metadata file_id st).1 = Some m
       ∧ disk r.2 = dict_del (FileInfo.file_path m) (disk st)
       ∧ users r.2 = users st ∧ permissions r.2 = permissions st ∧ dirs r.2 = dirs st
       ∧ (all_writes_ok st →
          file_metadata r.2 = dict_del file_id (file_metadata st)
          ∧ search_index r.2 = dict_del file_id (search_index st)))
  ∧ (r.1.1 = false → r.2 = st).
Proof.
  cbn zeta. rewrite delete_file_run. unfold get_file_metadata. mred. cbn [fst].
  destruct (dict_get file_id (file_metadata st)) as [m|]; cbn [fst snd].
  2: { split_and!; [|done..]. split; [done | by intros (? & ? & _)]. }
  destruct ((_check_bucket_access _ _ _ _).1) eqn:Hacc; cbn [negb fst snd].
  2: { split_and!; [|done..]. split; [done|]. intros (m' & [= <-] & H). congruence. }
  split_and!; [| |done].
  - split; [|done]. intros _. by exists m.
  - intros _. exists m. split; [done|].
    set (st1 := set_disk _ st).
    destruct (delete_file_metadata_frame file_id st1) as (Hu & Hp & Hd & Hk).
    cbn zeta in *. rewrite Hu, Hp, Hd, Hk. split_and!; try done.
    intros Hok.
    destruct (delete_file_metadata_ok file_id st1 Hok) as (Hm & Hs & _). done.
Qed.

(** X15.  A deleted file is gone for everyone: after a [delete_file] that
    went through, with its JSON writes, the file has no metadata record and
    no search-index entry, and [download_file] answers "File not found" to
    every user. *)
Theorem delete_then_download user_id file_id st :
  let r := delete_file user_id file_id st in
  r.1.1 = true → all_writes_ok st →
  (get_file_metadata file_id r.2).1 = None
  ∧ dict_get file_id (search_index r.2) = None
  ∧ ∀ other, download_file other file_id r.2 = (false, "File not found", None, r.2).
Proof.
  cbn zeta. rewrite delete_file_run.
  destruct (dict_get file_id (file_metadata st)) as [m|]; [|done].
  destruct ((_check_bucket_access _ _ _ _).1); cbn [negb fst snd]; [|done].
  intros _ Hok. set (st1 := set_disk _ st).
  destruct (delete_file_metadata_ok file_id st1 Hok) as (Hm & Hs & _).
  cbn zeta in *. unfold get_file_metadata. mred. cbn [fst].
  rewrite Hm, Hs, !dict_get_del_eq. split_and!; [done..|].
  intros other. by rewrite download_file_run, Hm, dict_get_del_eq.
Qed.

Lemma delete_then_download_witness :
  let r := delete_file alice_id "f2" demo in
  r.1.1 = true
  ∧ download_file bob_id "f2" r.2 = (false, "File not found", None, r.2)
  ∧ (download_file bob_id "f2" demo).1.1.1 = true.
Proof.
  split; [reflexivity|]. split; [|reflexivity].
  apply (delete_then_download alice_id "f2" demo eq_refl). constructor.
Defined.

(** X16.  Renaming does not move a file: after a successful [rename_file],
    [download_file] gives every user the answer it gave before, with the
    same path. *)
Theorem rename_then_download user_id file_id new_name other st :
  let r := rename_file user_id file_id new_name st in
  r.1.1 = true →
  (download_file other file_id r.2).1 = (download_file other file_id st).1.
Proof.
  cbn zeta. destruct (rename_file user_id file_id new_name st) as [res st'] eqn:Hrun.
  cbn [fst snd]. intros Hok.
  destruct (rename_file_success _ _ _ _ _ _ Hrun Hok)
    as (_ & (m & Hm & _ & Hmeta) & _ & _ & Hperm & _ & Hdisk).
  rewrite !download_file_run. cbn [fst].
  rewrite Hmeta, dict_get_set_eq, Hm, Hdisk. cbn [FileInfo.bucket_id FileInfo.file_path
    FileInfo.set_file_name].
  rewrite !check_bucket_access_run. cbn [fst]. by rewrite Hperm.
Qed.

Lemma rename_then_download_witness :
  let r := rename_file alice_id "f1" "  summary.pdf " demo in
  (FileInfo.file_name <$> dict_get "f1" (file_metadata r.2)) = Some "summary.pdf"
  ∧ (download_file bob_id "f1" r.2).1 = (download_file bob_id "f1" demo).1.
Proof.
  split; [reflexivity|].
  apply (rename_then_download alice_id "f1" "  summary.pdf " bob_id demo). reflexivity.
Defined.

(** ** Deleting a bucket: the physical store ([delete_bucket]) *)

Lemma dict_get_filter_key {V} (P : string → Prop) `{!∀ k, Decision (P k)} k (d : dict V) :
  dict_get k (filter (λ kv, P kv.1) d) = if decide (P k) then dict_get k d else None.
Proof.
  unfold dict in *.
  induction d as [|[k' v] d IH]; [by destruct (decide (P k))|].
  destruct (decide (P k')) as [Hk'|Hk'].
  - rewrite filter_cons_True by done. simpl.
    destruct (Str.eqb k' k) eqn:E; [|done].
    apply str_eqb_true in E as ->. by destruct (decide (P k)).
  - rewrite filter_cons_False by done. rewrite IH. simpl.
    destruct (Str.eqb k' k) eqn:E; [|done].
    apply str_eqb_true in E as ->. by destruct (decide (P k)).
Qed.

Lemma upload_file_missing_bucket secure_filename cfg file_id now user_id bucket_name
    file st :
  bucket_name ∉ (get_user_buckets user_id st).1 →
  ∃ m, upload_file secure_filename cfg file_id now user_id bucket_name file st
       = (false, m, None, st).
Proof.
  intros Hgone. unfold upload_file.
  destruct (Str.truthy (filename file)); cbn [negb]; [|by eexists].
  unfold bind at 1. rewrite get_user_buckets_run in *. cbn [fst] in *. unfold str_in.
  rewrite bool_decide_eq_false_2 by done. by eexists.
Qed.

(** X17.  After a successful [delete_bucket] the bucket directory is gone
    and so is every stored file below it; the other bucket directories and
    the files outside it are as before, whatever becomes of the JSON
    writes; users and permissions are untouched; and an upload into the
    deleted bucket is refused without any change. *)
Theorem delete_bucket_physical user_id bucket_name st :
  let r := delete_bucket user_id bucket_name st in
  let inside path :=
    Str.startswith path (bucket_path user_id bucket_name +:+ "/") in
  r.1.1 = true →
  (bucket_name ∉ (get_user_buckets user_id r.2).1)
  ∧ (∀ d, d ≠ (user_id, bucket_name) → (d ∈ dirs r.2 ↔ d ∈ dirs st))
  ∧ (∀ path, inside path = true → dict_get path (disk r.2) = None)
  ∧ (∀ path, inside path = false → dict_get path (disk r.2) = dict_get path (disk st))
  ∧ users r.2 = users st ∧ permissions r.2 = permissions st
  ∧ ∀ secure_filename cfg file_id now file,
      let r' := upload_file secure_filename cfg file_id now user_id bucket_name file r.2 in
      r'.1.1.1 = false ∧ r'.2 = r.2.
Proof.
  cbn zeta. rewrite delete_bucket_run.
  destruct (str_in _ _); cbn [negb fst snd]; [|done]. intros _.
  rewrite delete_bucket_metadata_run. cbn [snd].
  set (st1 := (rmtree user_id bucket_name st).2).
  match goal with |- context [for_each ?l ?b st1] => 
    destruct (for_each_delete_frame l st1) as (Hu & Hp & Hd & Hk);
    set (st2 := (for_each l b st1).2) in * end.
  cbn zeta in *.
  assert (Hdirs : dirs st2 = filter (λ d, d ≠ (user_id, bucket_name)) (dirs st))
    by (by rewrite Hd).
  assert (Hdisk : disk st2 =
                  filter (λ kv, ¬ Str.startswith kv.1
                                    (bucket_path user_id bucket_name +:+ "/")) (disk st))
    by (by rewrite Hk).
  assert (Hgone : bucket_name ∉ (get_user_buckets user_id st2).1).
  { rewrite get_user_buckets_elem, Hdirs, list_elem_of_filter. by intros [? _]. }
  split_and!; try done.
  - intros d Hne. rewrite Hdirs, list_elem_of_filter. naive_solver.
  - intros path Hin. rewrite Hdisk.
    pose proof (dict_get_filter_key
                  (λ k, ¬ Str.startswith k (bucket_path user_id bucket_name +:+ "/"))
                  path (disk st)) as Hf.
    etrans; [exact Hf|].
    destruct (decide _) as [Hn|]; [|done]. by rewrite Hin in Hn.
  - intros path Hout. rewrite Hdisk.
    pose proof (dict_get_filter_key
                  (λ k, ¬ Str.startswith k (bucket_path user_id bucket_name +:+ "/"))
                  path (disk st)) as Hf.
    etrans; [exact Hf|].
    destruct (decide _) as [|Hn]; [done|]. destruct Hn. rewrite Hout. intros Hf'. exact Hf'.
  - intros secure_filename cfg file_id now file.
    destruct (upload_file_missing_bucket secure_filename cfg file_id now user_id
                bucket_name file st2 Hgone) as [m ->]. done.
Qed.

Lemma delete_bucket_physical_witness :
  let r := delete_bucket alice_id "docs" demo in
  disk r.2 = [] ∧ dirs r.2 = [(bob_id, "inbox")]
  ∧ dict_get (path_join (bucket_path alice_id "docs") "f1.pdf") (disk r.2) = None.
Proof.
  split; [reflexivity|]. split; [reflexivity|].
  apply (delete_bucket_physical alice_id "docs" demo eq_refl). reflexivity.
Defined.

(** ** Search: what is found ([Database.search_files], [search_files]) *)

Lemma db_search_files_run cfg now st query user_id filters :
  db_search_files cfg now query user_id filters st =
    (omap (λ '(file_id, search_data),
             if search_match cfg now st query user_id filters file_id search_data
             then Some (Hit.merge (dict_get file_id (file_metadata st)) search_data)
             else None)
       (search_index st), st).
Proof.
  unfold db_search_files. unfold bind at 1 2. unfold _read_json at 1 2, gets.
  cbn [load SEARCH_INDEX_FILE FILE_METADATA_FILE].
  unfold bind.
  change (_get_accessible_bucket_ids user_id st)
    with ((_get_accessible_bucket_ids user_id st).1, st).
  cbn iota. unfold ret. f_equal.
  apply list_omap_ext, Forall2_same_length_lookup_2; [done|].
  intros i [f1 s1] [f2 s2] H1 H2. simplify_eq. unfold search_match.
  destruct (str_in _ _); cbn [negb andb]; [|done].
  destruct (Str.truthy query); cbn [negb andb orb].
  - destruct (Str.contains _ _); cbn [negb andb]; [|done].
    destruct (filters_given filters); [|done]. by destruct (_apply_filters _ _ _ _ _).
  - destruct (filters_given filters); [|done]. by destruct (_apply_filters _ _ _ _ _).
Qed.

Lemma search_files_elem cfg now st user_id query filters h :
  h ∈ Enriched.hit <$> (search_files cfg now user_id query filters st).1 ↔
  ∃ file_id search_data,
    (file_id, search_data) ∈ search_index st
    ∧ search_match cfg now st query user_id filters file_id search_data = true
    ∧ h = Hit.merge (dict_get file_id (file_metadata st)) search_data.
Proof.
  rewrite search_files_hits, db_search_files_run. cbn [fst].
  rewrite list_elem_of_omap. split.
  - intros ([f s] & Hin & Hh). exists f, s. destruct (search_match _ _ _ _ _ _ _ _);
      naive_solver.
  - intros (f & s & Hin & Hm & ->). exists (f, s). by rewrite Hm.
Qed.

Lemma search_match_intro cfg now st query user_id filters file_id search_data :
  SearchData.bucket_id search_data ∈ (_get_accessible_bucket_ids user_id st).1 →
  (query ≠ "" →
   Str.contains (Str.lower query) (Str.lower (SearchData.file_name search_data)) = true) →
  (∀ f, filters = Some f → f ≠ [] →
        _apply_filters cfg now search_data (dict_get file_id (file_metadata st)) f = true) →
  search_match cfg now st query user_id filters file_id search_data = true.
Proof.
  intros Hacc Hquery Hfilters.
  unfold search_match, str_in. rewrite bool_decide_eq_true_2 by done. cbn [andb].
  apply andb_true_iff. split.
  - destruct query; [done|]. cbn [Str.truthy negb orb]. by apply Hquery.
  - destruct filters as [[|kv f]|]; cbn [filters_given]; [done| |done].
    apply (Hfilters (kv :: f)); [reflexivity | discriminate].
Qed.

(** X18.  The search is complete: every entry of the index whose bucket
    is accessible to the user, whose file name holds the query (compared
    without regard to case; an empty query holds everywhere) and which
    passes the filters given, is among the results of [search_files]. *)
Theorem search_files_complete cfg now st user_id query filters file_id search_data :
  (file_id, search_data) ∈ search_index st →
  SearchData.bucket_id search_data ∈ (_get_accessible_bucket_ids user_id st).1 →
  (query ≠ "" →
   Str.contains (Str.lower query) (Str.lower (SearchData.file_name search_data)) = true) →
  (∀ f, filters = Some f → f ≠ [] →
        _apply_filters cfg now search_data (dict_get file_id (file_metadata st)) f = true) →
  Hit.merge (dict_get file_id (file_metadata st)) search_data
  ∈ Enriched.hit <$> (search_files cfg now user_id query filters st).1.
Proof.
  intros Hin Hacc Hquery Hfilters. apply search_files_elem.
  exists file_id, search_data. split_and!; [done| |done].
  by apply search_match_intro.
Qed.

Lemma search_files_complete_witness :
  Hit.merge (dict_get "f2" (file_metadata demo)) (demo_entry "myreport.pdf" "2024-03-05T10:00:00")
  ∈ Enriched.hit <$>
      (search_files Config demo_now bob_id "REPORT" (Some [("date_range", "week")]) demo).1.
Proof.
  apply (search_files_complete Config demo_now demo bob_id "REPORT"
           (Some [("date_range", "week")]) "f2"
           (demo_entry "myreport.pdf" "2024-03-05T10:00:00")).
  - apply list_elem_of_further, list_elem_of_here.
  - apply (bool_decide_unpack _). reflexivity.
  - intros _. reflexivity.
  - intros f [= <-] _. reflexivity.
Defined.

(** X19.  What is uploaded is found: after a successful [upload_file]
    the search of the uploader, with any query that the stored file name
    holds (the empty one among them) and no filter, returns the new file
    with the fields of its metadata record. *)
Theorem upload_then_search secure_filename cfg file_id now user_id bucket_name
    file st now' query :
  let r := upload_file secure_filename cfg file_id now user_id bucket_name file st in
  let record := upload_record secure_filename cfg file_id now user_id bucket_name file in
  r.1.1.1 = true →
  (query ≠ "" →
   Str.contains (Str.lower query) (Str.lower (FileInfo.file_name record)) = true) →
  r.1.2 = Some record
  ∧ Hit.merge (Some record) (search_entry_of record)
    ∈ Enriched.hit <$> (search_files cfg now' user_id query None r.2).1.
Proof.
  cbn zeta.
  destruct (Str.truthy (filename file)) eqn:Hname.
  2: { unfold upload_file. by rewrite Hname. }
  destruct (decide (bucket_name ∈ (get_user_buckets user_id st).1)) as [Hmem|Hmem].
  2: { destruct (upload_file_missing_bucket secure_filename cfg file_id now user_id
                   bucket_name file st Hmem) as [m ->]. done. }
  destruct ((_validate_file secure_filename cfg file).1) eqn:Hvalid.
  2: { intros Hr. by rewrite (proj1 (upload_file_invalid secure_filename cfg file_id now
                                      user_id bucket_name file st Hvalid)) in Hr. }
  pose proof (upload_file_metadata_step secure_filename cfg file_id now user_id
                bucket_name file st Hname Hmem Hvalid) as Hstep.
  cbn zeta in Hstep. destruct Hstep as (Hr & _ & Hmeta & Hindex & Hdirs & _).
  rewrite Hr. destruct (bool_decide _) eqn:Hboth; [|done]. intros _ Hquery.
  apply bool_decide_eq_true in Hboth as [Hw1 Hw2]. rewrite Hw1 in Hmeta.
  rewrite Hw2 in Hindex.
  set (record := upload_record secure_filename cfg file_id now user_id bucket_name file)
    in *.
  split; [done|].
  match goal with |- context [search_files _ _ _ _ _ ?s] => set (st' := s) in * end.
  replace (Some record) with (dict_get file_id (file_metadata st'))
    by (by rewrite Hmeta, dict_get_set_eq).
  apply search_files_elem. exists file_id, (search_entry_of record).
  split_and!; [| |done].
  - rewrite Hindex. apply dict_get_Some_elem, dict_get_set_eq.
  - apply search_match_intro; [|done|done].
    apply get_accessible_bucket_ids_elem. left. exists bucket_name. split; [|done].
    rewrite Hdirs. by apply get_user_buckets_elem.
Qed.

Lemma upload_then_search_witness :
  let file := {| filename := "My Notes.TXT"; content_length := 5; data := "hello" |} in
  let r := upload_file Werkzeug.secure_filename Config new_file_id demo_now alice_id "docs"
             file demo in
  Some "My_Notes.TXT"
  ∈ (λ e, (λ _, Hit.file_name (Enriched.hit e)) <$> Hit.file_id (Enriched.hit e))
    <$> (search_files Config demo_now alice_id "notes" None r.2).1.
Proof.
  cbn zeta.
  destruct (upload_then_search Werkzeug.secure_filename Config new_file_id demo_now
              alice_id "docs"
              {| filename := "My Notes.TXT"; content_length := 5; data := "hello" |}
              demo demo_now "notes" eq_refl ltac:(reflexivity)) as [_ Hin].
  apply list_elem_of_fmap in Hin as (e & He & Hin).
  apply list_elem_of_fmap. exists e. split; [|done]. by rewrite <- He.
Defined.

Lemma truthy_lower s : Str.truthy (Str.lower s) = Str.truthy s.
Proof. by destruct s. Qed.

(** X20.  The search does not tell upper case from lower case in the
    query: two queries with the same lower-case form give the same results
    in the same order, for every user, filter set and state. *)
Theorem search_case_insensitive cfg now st user_id query1 query2 filters :
  Str.lower query1 = Str.lower query2 →
  search_files cfg now user_id query1 filters st
  = search_files cfg now user_id query2 filters st.
Proof.
  intros Hlower.
  assert (Htruthy : Str.truthy query1 = Str.truthy query2)
    by (by rewrite <- (truthy_lower query1), Hlower, truthy_lower).
  assert (Hdb : db_search_files cfg now query1 user_id filters st
                = db_search_files cfg now query2 user_id filters st).
  { rewrite !db_search_files_run. f_equal.
    apply list_omap_ext, Forall2_same_length_lookup_2; [done|].
    intros i [f1 s1] [f2 s2] H1 H2. simplify_eq.
    unfold search_match. by rewrite Hlower, Htruthy. }
  unfold search_files, bind. rewrite Hdb.
  destruct (db_search_files cfg now query2 user_id filters st) as [results st1].
  destruct (_enrich_search_results cfg now results st1) as [enriched st2].
  unfold ret, _sort_search_results. by rewrite Hlower, Htruthy.
Qed.

Lemma search_case_insensitive_witness :
  search_files Config demo_now bob_id "RePort" None demo
  = search_files Config demo_now bob_id "report" None demo.
Proof.
  apply (search_case_insensitive Config demo_now demo bob_id "RePort" "report" None).
  reflexivity.
Defined.

Lemma sublist_omap {A B} (f g : A → option B) l :
  (∀ x y, f x = Some y → g x = Some y) → omap f l `sublist_of` omap g l.
Proof.
  intros Hfg. induction l as [|x l IH]; csimpl; [done|].
  destruct (f x) as [y|] eqn:E.
  - rewrite (Hfg _ _ E). by constructor.
  - destruct (g x); [by constructor | done].
Qed.

(** X21.  A query and filters only narrow a search: the results of
    [Database.search_files] for any query and any filters are a sublist, in
    the order of the index, of its results for the empty query without
    filters. *)
Theorem search_only_narrows cfg now st user_id query filters :
  (db_search_files cfg now query user_id filters st).1
  `sublist_of` (db_search_files cfg now "" user_id None st).1.
Proof.
  rewrite !db_search_files_run. cbn [fst]. apply sublist_omap.
  intros [f s] h. unfold search_match. cbn [Str.truthy negb orb filters_given].
  destruct (str_in _ _); cbn [andb]; [|done].
  by destruct (_ && _).
Qed.

(** ** Search: the facets ([_generate_search_metadata]) *)

Lemma dict_total_set k v (d : dict Z) :
  dict_total (dict_set k v d) = dict_total d - default 0 (dict_get k d) + v.
Proof.
  induction d as [|[k' v'] d IH]; simpl; [lia|].
  destruct (Str.eqb k' k); simpl; lia.
Qed.

Lemma count_up_total k d : dict_total (count_up k d) = dict_total d + 1.
Proof. unfold count_up. rewrite dict_total_set. lia. Qed.

Lemma incr_total k d d' : incr k d = Some d' → dict_total d' = dict_total d + 1.
Proof.
  unfold incr. destruct (dict_get k d) as [v|] eqn:E; [|done].
  intros [= <-]. rewrite dict_total_set, E. simpl. lia.
Qed.

Lemma incr_keys k d :
  k ∈ dict_keys d → ∃ d', incr k d = Some d' ∧ dict_keys d' = dict_keys d.
Proof.
  intros Hk. unfold incr. destruct (dict_get k d) as [v|] eqn:E.
  - eexists. split; [done|]. rewrite dict_keys_set. unfold dict_mem. by rewrite E.
  - by apply dict_get_None_keys in E.
Qed.

Lemma facets_loop_totals acc results :
  dict_keys (Facets.size_breakdown acc) = ["small"; "medium"; "large"] →
  dict_keys (Facets.date_breakdown acc) = ["today"; "week"; "month"; "older"] →
  Forall (λ e, Enriched.size_category e ∈ ["small"; "medium"; "large"]) results →
  ∃ acc', facets_loop acc results = Some acc'
    ∧ dict_total (Facets.file_types acc')
      = dict_total (Facets.file_types acc) + Z.of_nat (length results)
    ∧ dict_total (Facets.size_breakdown acc')
      = dict_total (Facets.size_breakdown acc) + Z.of_nat (length results)
    ∧ dict_total (Facets.date_breakdown acc')
      = dict_total (Facets.date_breakdown acc) + Z.of_nat (length results)
    ∧ dict_total (Facets.bucket_breakdown acc')
      = dict_total (Facets.bucket_breakdown acc) + Z.of_nat (length results)
    ∧ Facets.total_size acc'
      = Facets.total_size acc
        + foldr (λ e sum, Hit.size (Enriched.hit e) + sum) 0 results.
Proof.
  intros Hsize Hdate Hall. revert acc Hsize Hdate.
  induction Hall as [|e results He Hall IH]; intros acc Hsize Hdate.
  - exists acc. cbn. split_and!; [done|lia..].
  - cbn [facets_loop]. unfold facets_step.
    destruct (incr_keys (Enriched.size_category e) (Facets.size_breakdown acc))
      as (sb & Hsb & Hsbk); [by rewrite Hsize|].
    rewrite Hsb. cbn [mbind option_bind].
    match goal with |- context [incr ?k (Facets.date_breakdown acc)] =>
      destruct (incr_keys k (Facets.date_breakdown acc)) as (db & Hdb & Hdbk)
    end.
    { rewrite Hdate. repeat case_match; rewrite !elem_of_cons; auto. }
    rewrite Hdb. cbn [mbind option_bind].
    match goal with |- context [facets_loop ?a results] =>
      destruct (IH a) as (acc' & Hloop & H1 & H2 & H3 & H4 & H5)
    end.
    { cbn [Facets.size_breakdown]. congruence. }
    { cbn [Facets.date_breakdown]. congruence. }
    exists acc'. split; [done|].
    cbn [Facets.file_types Facets.size_breakdown Facets.date_breakdown
         Facets.bucket_breakdown Facets.total_size] in H1, H2, H3, H4, H5.
    rewrite count_up_total in H1, H4.
    rewrite (incr_total _ _ _ Hsb) in H2. rewrite (incr_total _ _ _ Hdb) in H3.
    cbn [length foldr]. split_and!; lia.
Qed.

Lemma enrich_one_size_category cfg now h st :
  Enriched.size_category (enrich_one cfg now h st).1
  = get_file_size_category cfg (Hit.size h).
Proof. unfold enrich_one. repeat case_match; done. Qed.

Lemma get_file_size_category_cases cfg size :
  get_file_size_category cfg size ∈ ["small"; "medium"; "large"].
Proof.
  unfold get_file_size_category. repeat case_match; rewrite !elem_of_cons; auto.
Qed.

Lemma enrich_search_results_size_category cfg now results st :
  Forall (λ e, Enriched.size_category e ∈ ["small"; "medium"; "large"])
    (_enrich_search_results cfg now results st).1.
Proof.
  revert st. induction results as [|h results IH]; intros st; [by constructor|].
  cbn [_enrich_search_results]. unfold bind at 1.
  pose proof (enrich_one_size_category cfg now h st) as Hcat.
  destruct (enrich_one cfg now h st) as [e st1]. cbn [fst] in Hcat.
  unfold bind at 1. specialize (IH st1).
  destruct (_enrich_search_results cfg now results st1) as [rest st2].
  cbn [ret fst] in *. constructor; [|done].
  rewrite Hcat. apply get_file_size_category_cases.
Qed.

(** X22.  The facets of a search add up.  On the results of
    [search_files], [_generate_search_metadata] never fails on a missing
    counter; [total_files] is the number of results, and the counts of each
    of the four breakdowns (file type, size, age, bucket) sum to that
    number; [total_size], present when there is a result, is the sum of the
    sizes. *)
Theorem search_metadata_totals cfg now st user_id query filters :
  let results := (search_files cfg now user_id query filters st).1 in
  let n := Z.of_nat (length results) in
  ∃ md, _generate_search_metadata results query filters = Some md
    ∧ SearchMetadata.total_files md = n
    ∧ dict_total (SearchMetadata.file_types md) = n
    ∧ dict_total (SearchMetadata.size_breakdown md) = n
    ∧ dict_total (SearchMetadata.date_breakdown md) = n
    ∧ dict_total (SearchMetadata.bucket_breakdown md) = n
    ∧ SearchMetadata.total_size md
      = if bool_decide (results = []) then None
        else Some (foldr (λ e sum, Hit.size (Enriched.hit e) + sum) 0 results).
Proof.
  cbn zeta.
  assert (Hall : Forall (λ e, Enriched.size_category e ∈ ["small"; "medium"; "large"])
                   (search_files cfg now user_id query filters st).1).
  { unfold search_files, bind.
    destruct (db_search_files cfg now query user_id filters st) as [hits st1].
    pose proof (enrich_search_results_size_category cfg now hits st1) as He.
    destruct (_enrich_search_results cfg now hits st1) as [enriched st2].
    cbn [ret fst] in *. by rewrite sort_search_results_perm. }
  destruct ((search_files cfg now user_id query filters st).1) as [|e results] eqn:Hres.
  - eexists. split; [reflexivity|]. by cbn.
  - rewrite <- Hres in *. unfold _generate_search_metadata.
    rewrite bool_decide_eq_false_2 by (by rewrite Hres).
    destruct (facets_loop_totals facets_init _ eq_refl eq_refl Hall)
      as (acc & -> & H1 & H2 & H3 & H4 & H5).
    cbn [mbind option_bind]. eexists. split; [reflexivity|].
    cbn in H1, H2, H3, H4, H5 |- *. split_and!; try done. f_equal. lia.
Qed.

(** ** The file type that an upload records ([_get_file_type]) *)

Lemma rsplit_dot_dot s a b : Path.rsplit_dot s = Some (a, b) → ∃ r, b = String "." r.
Proof.
  revert a. induction s as [|c s IH]; intros a; simpl; [done|].
  destruct (Path.rsplit_dot s) as [[a' b']|].
  - intros [= <- <-]. by eapply IH.
  - destruct (Ascii.eqb c ".") eqn:E; [|done].
    apply Ascii.eqb_eq in E as ->. intros [= <- <-]. by eexists.
Qed.

Lemma suffix_dot p : Path.suffix p = "" ∨ ∃ r, Path.suffix p = String "." r.
Proof.
  unfold Path.suffix. destruct (Path.rsplit_dot _) as [[a b]|] eqn:E; [|by left].
  destruct (_ && _); [|by left]. right. by eapply rsplit_dot_dot.
Qed.

Lemma contains_has_char c sub s :
  Str.contains (String c sub) s = true → Str.has_char c s = true.
Proof.
  induction s as [|c' s IH]; simpl; [done|].
  intros [H|H]%orb_true_iff.
  - destruct (ascii_dec c c') as [->|Hne]; [|done].
    by rewrite Ascii.eqb_refl.
  - rewrite IH by done. apply orb_true_r.
Qed.

Lemma contains_empty s : Str.contains "" s = true.
Proof. by destruct s. Qed.

(** X23.  The storage manager never records a category of the table as
    the type of a file.  Its loop over [FILE_TYPE_CATEGORIES] takes each
    item as a category with its extensions, while the items are extensions
    with their category; so, for a table whose category names hold no dot,
    the type of a file name with an extension is [other], and that of a
    name without extension is the first extension of the table. *)
Theorem storage_file_type_never_category cfg filename :
  Forall (λ item, Str.has_char "." item.2 = false) (FILE_TYPE_CATEGORIES cfg) →
  _get_file_type cfg filename
  = if Str.truthy (Path.suffix filename) then "other"
    else default "other" (head (dict_keys (FILE_TYPE_CATEGORIES cfg))).
Proof.
  intros Hdot. unfold _get_file_type.
  destruct (suffix_dot filename) as [->|[r ->]]; cbn [Str.truthy Str.lower].
  - destruct (FILE_TYPE_CATEGORIES cfg) as [|[ext cat] table]; [done|].
    cbn. by rewrite decide_True by apply contains_empty.
  - replace (list_find _ _) with (@None (nat * (string * string))); [done|].
    symmetry. apply list_find_None. eapply Forall_impl; [exact Hdot|].
    intros [ext cat] Hcat Hcontains. cbn in *.
    apply contains_has_char in Hcontains.
    change (Str.lower_char ".") with "."%char in Hcontains. congruence.
Qed.

Lemma storage_file_type_never_category_witness :
  _get_file_type Config "holiday.JPG" = "other"
  ∧ get_file_type Config "holiday.JPG" = "image"
  ∧ _get_file_type Config "README" = ".jpg".
Proof.
  assert (Hdot : Forall (λ item : string * string, Str.has_char "." item.2 = false)
                   (FILE_TYPE_CATEGORIES Config))
    by (apply (bool_decide_unpack _); reflexivity).
  split; [|split; [reflexivity|]].
  - apply (storage_file_type_never_category Config "holiday.JPG" Hdot).
  - apply (storage_file_type_never_category Config "README" Hdot).
Defined.

(** ** Dates written and read back ([isoformat], [fromisoformat]) *)

Lemma append_assoc a b c : (a +:+ b) +:+ c = a +:+ (b +:+ c).
Proof. induction a as [|x a IH]; [done|]. rewrite !append_cons. by rewrite IH. Qed.

Lemma append_nil_r a : a +:+ "" = a.
Proof. induction a as [|x a IH]; [done|]. rewrite append_cons. by rewrite IH. Qed.

Lemma digits_S n acc c s :
  DT.digits (S n) acc (String c s) =
    match DT.digit_of c with
    | Some v => DT.digits n (acc * 10 + v) s
    | None => None
    end.
Proof. reflexivity. Qed.

Lemma digits_S_last n acc s :
  DT.digits (S n) acc s =
    match DT.digits n acc s with
    | Some (v, r) => DT.digits 1 v r
    | None => None
    end.
Proof.
  revert acc s. induction n as [|n IH]; intros acc s; [done|].
  destruct s as [|c s]; [done|]. rewrite !digits_S.
  destruct (DT.digit_of c) as [v|]; [apply IH | done].
Qed.

Lemma digit_of_char z : 0 ≤ z < 10 → DT.digit_of (DT.char_of_digit z) = Some z.
Proof.
  intros Hz.
  assert (z = 0 ∨ z = 1 ∨ z = 2 ∨ z = 3 ∨ z = 4 ∨ z = 5 ∨ z = 6 ∨ z = 7 ∨ z = 8 ∨ z = 9)
    as Hcases by lia.
  repeat (destruct Hcases as [->|Hcases]; [reflexivity|]). by subst.
Qed.

Lemma digits_pad n z acc rest :
  0 ≤ z < 10 ^ Z.of_nat n →
  DT.digits n acc (DT.pad n z +:+ rest) = Some (acc * 10 ^ Z.of_nat n + z, rest).
Proof.
  revert z acc rest. induction n as [|n IH]; intros z acc rest Hz.
  - cbn in *. rewrite append_nil. do 2 f_equal. lia.
  - rewrite Nat2Z.inj_succ, Z.pow_succ_r in * by lia.
    rewrite digits_S_last. cbn [DT.pad]. rewrite append_assoc, append_cons, append_nil.
    rewrite IH by (split; [apply Z.div_pos; lia | apply Z.div_lt_upper_bound; lia]).
    cbn [DT.digits]. rewrite digit_of_char by (apply Z.mod_pos_bound; lia).
    do 2 f_equal. pose proof (Z.div_mod z 10). lia.
Qed.

Lemma has_char_append c a b :
  Str.has_char c (a +:+ b) = Str.has_char c a || Str.has_char c b.
Proof.
  induction a as [|x a IH]; [done|]. rewrite append_cons. simpl.
  rewrite IH. by rewrite orb_assoc.
Qed.

Lemma has_char_pad n z : 0 ≤ z → Str.has_char "Z" (DT.pad n z) = false.
Proof.
  revert z. induction n as [|n IH]; intros z Hz; [done|].
  cbn [DT.pad]. rewrite has_char_append, IH by (apply Z.div_pos; lia).
  assert (0 ≤ z mod 10 < 10) as Hm by (apply Z.mod_pos_bound; lia).
  assert (z mod 10 = 0 ∨ z mod 10 = 1 ∨ z mod 10 = 2 ∨ z mod 10 = 3 ∨ z mod 10 = 4
          ∨ z mod 10 = 5 ∨ z mod 10 = 6 ∨ z mod 10 = 7 ∨ z mod 10 = 8 ∨ z mod 10 = 9)
    as Hcases by lia.
  repeat (destruct Hcases as [->|Hcases]; [reflexivity|]). by rewrite Hcases.
Qed.

Lemma replace_Z_id s : Str.has_char "Z" s = false → Str.replace_Z s = s.
Proof.
  induction s as [|c s IH]; [done|]. simpl.
  intros [Hc Hs]%orb_false_iff. rewrite Hc. by rewrite IH.
Qed.

Lemma days_in_month_le y m : DT.days_in_month y m ≤ 31.
Proof.
  unfold DT.days_in_month. destruct (_ && _); [lia|].
  generalize (Z.to_nat m). intros k.
  do 13 (destruct k as [|k]; [cbn; lia|]). cbn. destruct k; cbn; lia.
Qed.

Lemma fromisoformat_isoformat d :
  DT.valid d = true → DT.fromisoformat (DT.isoformat d) = Some (d, false).
Proof.
  intros Hvalid. pose proof Hvalid as Hv. unfold DT.valid in Hv.
  repeat (apply andb_true_iff in Hv as [Hv ?]).
  pose proof (days_in_month_le (DT.year d) (DT.month d)).
  destruct d as [y mo dd h mi s us]. cbn [DT.year DT.month DT.day DT.hour DT.minute
    DT.second DT.microsecond] in *.
  unfold DT.isoformat, DT.fromisoformat.
  cbn [DT.year DT.month DT.day DT.hour DT.minute DT.second DT.microsecond].
  rewrite digits_pad by (cbn; lia). cbn [mbind option_bind].
  rewrite append_cons, append_nil. cbn [DT.expect]. rewrite Ascii.eqb_refl.
  cbn [mbind option_bind].
  rewrite digits_pad by (cbn; lia). cbn [mbind option_bind].
  rewrite append_cons, append_nil. cbn [DT.expect]. rewrite Ascii.eqb_refl.
  cbn [mbind option_bind].
  rewrite digits_pad by (cbn; lia). cbn [mbind option_bind].
  rewrite append_cons, append_nil.
  rewrite digits_pad by (cbn; lia). cbn [mbind option_bind].
  rewrite append_cons, append_nil. cbn [DT.opt_field]. rewrite Ascii.eqb_refl.
  rewrite digits_pad by (cbn; lia). cbn [mbind option_bind].
  rewrite append_cons, append_nil. cbn [DT.opt_field]. rewrite Ascii.eqb_refl.
  rewrite digits_pad by (cbn; lia). cbn [mbind option_bind].
  replace (0 * 10 ^ Z.of_nat 4 + y) with y by lia.
  replace (0 * 10 ^ Z.of_nat 2 + mo) with mo by lia.
  replace (0 * 10 ^ Z.of_nat 2 + dd) with dd by lia.
  replace (0 * 10 ^ Z.of_nat 2 + h) with h by lia.
  replace (0 * 10 ^ Z.of_nat 2 + mi) with mi by lia.
  replace (0 * 10 ^ Z.of_nat 2 + s) with s by lia.
  cbn [default from_option]. unfold id.
  destruct (us =? 0) eqn:Hus.
  - apply Z.eqb_eq in Hus as ->. cbn [DT.opt_fraction mbind option_bind].
    rewrite Hvalid. done.
  - rewrite append_cons, append_nil. cbn [DT.opt_fraction].
    rewrite <- (append_nil_r (DT.pad 6 us)).
    rewrite digits_pad by (cbn; lia).
    replace (0 * 10 ^ Z.of_nat 6 + us) with us by lia.
    cbn [mbind option_bind]. rewrite Hvalid. done.
Qed.

Lemma isoformat_no_Z d : DT.valid d = true → Str.has_char "Z" (DT.isoformat d) = false.
Proof.
  intros Hv. unfold DT.valid in Hv.
  repeat (apply andb_true_iff in Hv as [Hv ?]).
  unfold DT.isoformat. destruct (DT.microsecond d =? 0);
    rewrite !has_char_append, !has_char_pad by lia; reflexivity.
Qed.

(** X24.  The upload date of a file is read back as the instant it was
    written: for a valid clock value, [fromisoformat] undoes [isoformat], so
    the age that the search computes for a file stored by [upload_file] is
    the number of whole days elapsed since the upload, never the fallback
    999, and the [today] filter passes exactly on the calendar day of the
    upload. *)
Theorem upload_date_round_trip secure_filename cfg file_id uploaded user_id bucket_name
    file now :
  DT.valid uploaded = true →
  let upload_date :=
    FileInfo.upload_date
      (upload_record secure_filename cfg file_id uploaded user_id bucket_name file) in
  DT.fromisoformat upload_date = Some (uploaded, false)
  ∧ _get_days_ago now upload_date = DT.sub_days now uploaded
  ∧ _check_date_range now upload_date "today" = DT.same_date uploaded now.
Proof.
  intros Hvalid. cbn zeta. cbn [upload_record FileInfo.upload_date].
  pose proof (fromisoformat_isoformat uploaded Hvalid) as Hparse.
  pose proof (replace_Z_id _ (isoformat_no_Z uploaded Hvalid)) as HZ.
  split; [done|]. unfold _get_days_ago, _check_date_range.
  rewrite HZ, Hparse. split; [done|].
  destruct (DT.isoformat uploaded); [discriminate Hparse | done].
Qed.

Lemma upload_date_round_trip_witness :
  let file := {| filename := "a.txt"; content_length := 1; data := "x" |} in
  let upload_date :=
    FileInfo.upload_date
      (upload_record Werkzeug.secure_filename Config new_file_id (DT.mk 2024 2 29 23 59 59 5)
         alice_id "docs" file) in
  upload_date = "2024-02-29T23:59:59.000005"
  ∧ _get_days_ago demo_now upload_date = 8.
Proof.
  split; [reflexivity|].
  destruct (upload_date_round_trip Werkzeug.secure_filename Config new_file_id
              (DT.mk 2024 2 29 23 59 59 5) alice_id "docs"
              {| filename := "a.txt"; content_length := 1; data := "x" |} demo_now eq_refl)
    as (_ & Hdays & _).
  rewrite Hdays. reflexivity.
Defined.

(** ** Recent files and storage statistics ([get_recent_files], [get_storage_stats]) *)

(** X25.  [get_recent_files] returns the most recent files of the user:
    its result, followed by the files it leaves out, is the list of the
    metadata records of the user in descending order of upload date.  It
    has [limit] records, or all of them when there are fewer; a negative
    [limit] leaves out that many of the oldest records instead. *)
Theorem get_recent_files_most_recent user_id limit st :
  let recent := (get_recent_files user_id limit st).1 in
  let files := (get_files_by_user user_id st).1 in
  (∃ rest, recent ++ rest ≡ₚ files
           ∧ sorted_desc Str.leb FileInfo.upload_date (recent ++ rest))
  ∧ length recent
    = (if limit <? 0 then (length files - Z.to_nat (- limit))%nat
       else (Z.to_nat limit `min` length files)%nat)
  ∧ (get_recent_files user_id limit st).2 = st.
Proof.
  cbn zeta. unfold get_recent_files, bind.
  change (get_files_by_user user_id st) with ((get_files_by_user user_id st).1, st).
  cbn iota. unfold ret. cbn [fst snd].
  set (files := (get_files_by_user user_id st).1).
  set (sorted := sorted_reverse Str.leb FileInfo.upload_date files).
  assert (Hperm : sorted ≡ₚ files) by apply sorted_reverse_perm.
  assert (Hsorted : sorted_desc Str.leb FileInfo.upload_date sorted)
    by (apply sorted_reverse_sorted; [apply str_leb_total | apply str_leb_trans]).
  assert (Hlen : length sorted = length files) by (by rewrite Hperm).
  unfold slice_to. split_and!; [| |done].
  - destruct (limit <? 0).
    + exists (drop (length sorted - Z.to_nat (- limit)) sorted).
      by rewrite take_drop.
    + exists (drop (Z.to_nat limit) sorted). by rewrite take_drop.
  - destruct (limit <? 0); rewrite length_take; lia.
Qed.

Example get_recent_files_demo :
  FileInfo.file_id <$> (get_recent_files alice_id 2 demo).1 = ["f3"; "f2"]
  ∧ FileInfo.file_id <$> (get_recent_files alice_id (-1) demo).1 = ["f3"; "f2"]
  ∧ (get_recent_files bob_id 2 demo).1 = [].
Proof. repeat split; reflexivity. Qed.

Lemma dict_total_fst_set k (v : Z * Z) (d : dict (Z * Z)) :
  dict_total (prod_map id fst <$> d) - (default (0, 0) (dict_get k d)).1 + v.1
  = dict_total (prod_map id fst <$> dict_set k v d).
Proof.
  induction d as [|[k' [c s]] d IH]; csimpl; [lia|].
  destruct (Str.eqb k' k); csimpl; lia.
Qed.

Lemma dict_total_snd_set k (v : Z * Z) (d : dict (Z * Z)) :
  dict_total (prod_map id snd <$> d) - (default (0, 0) (dict_get k d)).2 + v.2
  = dict_total (prod_map id snd <$> dict_set k v d).
Proof.
  induction d as [|[k' [c s]] d IH]; csimpl; [lia|].
  destruct (Str.eqb k' k); csimpl; lia.
Qed.

Lemma add_file_type_totals files (acc : dict (Z * Z)) :
  dict_total (prod_map id fst <$> foldl add_file_type acc files)
  = dict_total (prod_map id fst <$> acc) + Z.of_nat (length files)
  ∧ dict_total (prod_map id snd <$> foldl add_file_type acc files)
    = dict_total (prod_map id snd <$> acc) + sum_sizes files.
Proof.
  revert acc. induction files as [|f files IH]; intros acc.
  - unfold sum_sizes. cbn [foldl foldr length]. split; lia.
  - cbn [foldl]. destruct (IH (add_file_type acc f)) as [-> ->].
    unfold add_file_type.
    destruct (dict_get (FileInfo.file_type f) acc) as [[count size]|] eqn:E.
    + rewrite <- dict_total_fst_set, <- dict_total_snd_set, E.
      change (sum_sizes (f :: files)) with (FileInfo.size f + sum_sizes files).
      cbn [length default from_option id fst snd]. split; lia.
    + rewrite <- dict_total_fst_set, <- dict_total_snd_set, E.
      change (sum_sizes (f :: files)) with (FileInfo.size f + sum_sizes files).
      cbn [length default from_option id fst snd]. split; lia.
Qed.

(** X26.  The statistics of [get_storage_stats] add up: the counts of the
    file-type breakdown sum to [total_files], the number of metadata records
    of the user, and its sizes sum to [total_size], the sum of their sizes;
    [bucket_count] is the number of bucket directories of the user. *)
Theorem get_storage_stats_totals cfg user_id st :
  let stats := (get_storage_stats cfg user_id st).1 in
  let files := (get_files_by_user user_id st).1 in
  let counts := prod_map id fst <$> StorageStats.file_types stats in
  let sizes := prod_map id snd <$> StorageStats.file_types stats in
  StorageStats.total_files stats = Z.of_nat (length files)
  ∧ StorageStats.total_size stats = sum_sizes files
  ∧ dict_total counts = StorageStats.total_files stats
  ∧ dict_total sizes = StorageStats.total_size stats
  ∧ StorageStats.bucket_count stats = Z.of_nat (length (get_user_buckets user_id st).1)
  ∧ (get_storage_stats cfg user_id st).2 = st.
Proof.
  cbn zeta. unfold get_storage_stats, bind.
  change (get_files_by_user user_id st) with ((get_files_by_user user_id st).1, st).
  cbn iota.
  change (get_user_buckets user_id st) with ((get_user_buckets user_id st).1, st).
  cbn iota. unfold ret. cbn [fst snd StorageStats.total_files StorageStats.total_size
    StorageStats.file_types StorageStats.bucket_count].
  destruct (add_file_type_totals (get_files_by_user user_id st).1 []) as [H1 H2].
  rewrite H1, H2. cbn. split_and!; (done || lia).
Qed.

Example get_storage_stats_demo :
  let stats := (get_storage_stats Config alice_id demo).1 in
  StorageStats.total_files stats = 3 ∧ StorageStats.total_size stats = 6144
  ∧ StorageStats.file_types stats = [("other", (3, 6144))]
  ∧ StorageStats.bucket_count stats = 1.
Proof. repeat split; reflexivity. Qed.

(** ** Sharing gives access *)

Lemma share_bucket_frame cfg now st owner_id bucket_id email level :
  let st' := (share_bucket cfg now owner_id bucket_id email level st).2 in
  file_metadata st' = file_metadata st ∧ search_index st' = search_index st
  ∧ dirs st' = dirs st ∧ disk st' = disk st ∧ users st' = users st.
Proof.
  cbn zeta. rewrite share_bucket_run. unfold share_outcome.
  repeat (case_match; try done).
Qed.

(** X27.  A share takes effect at once: after a successful [share_bucket]
    with one of the levels view, upload and full, the user named by the
    e-mail address holds that level on the bucket, the storage manager lets
    that user view the bucket, and [download_file] serves that user every
    file of the bucket that is on disk. *)
Theorem share_grants_access cfg now st owner_id bucket_id email level :
  let r := share_bucket cfg now owner_id bucket_id email level st in
  r.1.1 = true →
  level ∈ ["view"; "upload"; "full"] →
  ∃ u, (get_user_by_email email st).1 = Some u
    ∧ (check_permission_level (User.user_id u) bucket_id r.2).1 = level
    ∧ (_check_bucket_access (User.user_id u) bucket_id "view" r.2).1 = true
    ∧ ∀ file_id m,
        (get_file_metadata file_id st).1 = Some m →
        FileInfo.bucket_id m = bucket_id →
        is_Some (dict_get (FileInfo.file_path m) (disk st)) →
        download_file (User.user_id u) file_id r.2
        = (true, "File found", Some (FileInfo.file_path m), r.2).
Proof.
  cbn zeta. intros Hok Hlevel.
  destruct (share_bucket_frame cfg now st owner_id bucket_id email level)
    as (Hmeta & _ & _ & Hdisk & _). cbn zeta in *.
  assert (Hnofail : ¬ (share_bucket cfg now owner_id bucket_id email level st).1.1 = false)
    by (by rewrite Hok).
  rewrite share_bucket_fails_iff in Hnofail.
  destruct (share_bucket cfg now owner_id bucket_id email level st) as [res st'] eqn:Hrun.
  cbn [fst snd] in *.
  destruct (share_bucket_success _ _ _ _ _ _ _ _ _ Hrun Hok) as (u & Hu & _ & Hperm & _).
  exists u. split; [done|].
  assert (Hne : User.user_id u ≠ owner_id) by (intros Heq; apply Hnofail; eauto 10).
  assert (Hown : owner_prefix_is bucket_id owner_id = true).
  { apply not_false_iff_true. intros Hf. apply Hnofail. auto. }
  assert (Hpre : owner_prefix_is bucket_id (User.user_id u) = false).
  { apply not_true_is_false. intros Hpre. apply Hne.
    unfold owner_prefix_is in Hown, Hpre.
    apply andb_true_iff in Hown as [_ Ho%str_eqb_true].
    apply andb_true_iff in Hpre as [_ Hp%str_eqb_true]. congruence. }
  assert (Hget : ∃ p, dict_get (permission_id bucket_id (User.user_id u)) (permissions st')
                      = Some p ∧ Permission.permission_level p = level).
  { rewrite Hperm, dict_get_set_eq. eexists. split; [done|]. by case_match. }
  destruct Hget as (p & Hget & Hp).
  assert (Hview : (_check_bucket_access (User.user_id u) bucket_id "view" st').1 = true).
  { rewrite check_bucket_access_run. cbn [fst]. unfold owner_prefix_is in Hown, Hpre.
    apply andb_true_iff in Hown as [Hlen _]. rewrite Hlen in Hpre |- *.
    cbn [negb andb] in *.
    rewrite Hpre, Hget. cbn. rewrite Hp. by apply bool_decide_eq_true. }
  split_and!; [|done|].
  - rewrite check_permission_level_run. cbn [fst]. by rewrite Hpre, Hget.
  - intros file_id m Hm Hb Hfile. unfold get_file_metadata in Hm. mred. cbn [fst] in Hm.
    rewrite download_file_run, Hmeta, Hm, Hb, Hview, Hdisk. cbn [negb].
    apply dict_mem_true in Hfile. by rewrite Hfile.
Qed.

Lemma share_grants_access_witness :
  let bucket := alice_id +:+ "_docs" in
  let r := share_bucket Config demo_now alice_id bucket "bob@example.com" "view" demo in
  (check_permission_level bob_id bucket r.2).1 = "view"
  ∧ (download_file bob_id "f3" r.2).1.1.1 = true.
Proof.
  cbn zeta.
  destruct (share_grants_access Config demo_now demo alice_id (alice_id +:+ "_docs")
              "bob@example.com" "view" eq_refl
              ltac:(rewrite !elem_of_cons; auto))
    as (u & Hu & Hlevel & _ & Hdown).
  injection Hu as <-. split; [exact Hlevel|].
  exact (f_equal (λ x, x.1.1.1) (Hdown "f3" _ eq_refl eq_refl ltac:(by eexists))).
Defined.

(** ** Registering a user ([create_user]) *)

Lemma create_user_run user_id now email password_hash st :
  create_user user_id now email password_hash st =
    match (get_user_by_email email st).1 with
    | Some _ => (None, st)
    | None =>
        let user_data := User.mk email password_hash user_id (DT.isoformat now) in
        let st' := set_writes (tail (writes st)) st in
        match next_write st with
        | IoOk => (Some user_id, set_users (dict_set user_id user_data (users st)) st')
        | IoOpenError => (None, st')
        | IoDumpError => (None, set_users [] st')
        end
    end.
Proof.
  unfold create_user. rewrite get_user_by_email_run. cbn [fst]. mred.
  destruct (list_find _ _) as [[i u]|]; cbn [fmap option_fmap option_map]; [done|].
  unfold _write_json. cbn [store USERS_FILE]. by destruct (next_write st).
Qed.

Lemma list_find_set_new (P : User.t → Prop) `{!∀ u, Decision (P u)} k v (d : dict User.t) :
  list_find P (dict_values d) = None → P v →
  snd <$> list_find P (dict_values (dict_set k v d)) = Some v.
Proof.
  unfold dict_values. intros Hnone Hv. induction d as [|[k' v'] d IH]; csimpl.
  - by rewrite decide_True.
  - csimpl in Hnone. destruct (decide (P v')) as [|Hv']; [done|].
    destruct (list_find P d.*2) as [[i u]|] eqn:E; [done|].
    destruct (Str.eqb k' k); csimpl.
    + by rewrite decide_True.
    + rewrite decide_False by done. specialize (IH eq_refl).
      destruct (list_find P (dict_set k v d).*2) as [[j w]|]; by simplify_eq/=.
Qed.

Lemma emails_set_new k v (d : dict User.t) :
  User.email v ∉ User.email <$> dict_values d →
  NoDup (User.email <$> dict_values d) →
  NoDup (User.email <$> dict_values (dict_set k v d)).
Proof.
  unfold dict_values. induction d as [|[k' v'] d IH]; csimpl.
  - intros _ _. apply NoDup_singleton.
  - rewrite not_elem_of_cons, !NoDup_cons. intros [Hne Hnin] [Hv' Hnd].
    destruct (Str.eqb k' k); csimpl.
    + apply NoDup_cons. done.
    + apply NoDup_cons. split; [|by apply IH].
      intros (u & Hu & Hin)%list_elem_of_fmap. apply Hv'.
      apply list_elem_of_fmap in Hin as ([k1 u1] & -> & Hin).
      apply dict_elem_set_inv in Hin as [[-> ->]|Hin]; [done|].
      apply list_elem_of_fmap. exists u1. split; [done|].
      apply list_elem_of_fmap. by exists (k1, u1).
Qed.

(** X28.  [create_user] never registers an e-mail address twice.  It
    returns an identifier exactly when no user has the address and the
    write of the users file goes through; the new user is then found both
    by identifier and by address.  When the addresses of the users file are
    pairwise distinct they remain so, whatever the outcome; a refusal leaves
    the state unchanged, unless it is the write that failed. *)
Theorem create_user_spec user_id now email password_hash st :
  let r := create_user user_id now email password_hash st in
  let user_data := User.mk email password_hash user_id (DT.isoformat now) in
  (is_Some r.1 ↔ (get_user_by_email email st).1 = None ∧ next_write_ok st)
  ∧ (is_Some r.1 →
     r.1 = Some user_id
     ∧ (get_user_by_id user_id r.2).1 = Some user_data
     ∧ (get_user_by_email email r.2).1 = Some user_data)
  ∧ (NoDup (User.email <$> dict_values (users st)) →
     NoDup (User.email <$> dict_values (users r.2)))
  ∧ (r.1 = None ∧ next_write_ok st → r.2 = st).
Proof.
  cbn zeta. rewrite create_user_run. unfold next_write_ok.
  rewrite (get_user_by_email_run email st). cbn [fst].
  destruct (list_find _ (dict_values (users st))) as [[i u]|] eqn:Hfind;
    cbn [fmap option_fmap option_map fst snd].
  { split_and!; [|by intros [? ?]|done|done].
    split; [by intros [? ?] | by intros [? _]]. }
  cbn zeta. destruct (next_write st); cbn [fst snd].
  - split_and!.
    + split; [done | by eexists].
    + intros _. split_and!; [done| |].
      * unfold get_user_by_id. mred. cbn. apply dict_get_set_eq.
      * rewrite get_user_by_email_run. cbn [fst users set_users].
        by apply list_find_set_new.
    + intros Hnd. cbn [users set_users]. apply emails_set_new; [|done].
      apply list_find_None in Hfind. rewrite Forall_forall in Hfind.
      intros (u & Hu & Hin)%list_elem_of_fmap. by apply (Hfind u).
    + by intros [? _].
  - split_and!; [|by intros [? ?]|done|by intros [_ ?]].
    split; [by intros [? ?] | by intros [_ ?]].
  - split_and!; [|by intros [? ?]| |by intros [_ ?]].
    + split; [by intros [? ?] | by intros [_ ?]].
    + intros _. cbn. apply NoDup_nil_2.
Qed.

Example create_user_demo :
  let carol_id := "c3c3c3c3-0000-4000-8000-000000000003" in
  (create_user carol_id demo_now "bob@example.com" "pbkdf2:sha256:cccc" demo).1 = None
  ∧ (create_user carol_id demo_now "Bob@example.com" "pbkdf2:sha256:cccc" demo).1
    = Some carol_id.
Proof. split; reflexivity. Qed.

(** ** Listing a bucket ([get_bucket_files], [StorageManager.get_user_buckets]) *)

Lemma get_bucket_files_run cfg user_id bucket_id st :
  get_bucket_files cfg user_id bucket_id st =
    (if negb (_check_bucket_access user_id bucket_id "view" st).1 then
       (false, "Access denied", [])
     else
       (true, "Files retrieved successfully",
        (λ file_data,
           BucketFile.mk file_data (get_file_size_category cfg (FileInfo.size file_data)))
        <$> (get_files_by_bucket bucket_id st).1), st).
Proof.
  unfold get_bucket_files. unfold bind at 1.
  rewrite (surjective_pairing (_check_bucket_access _ _ _ _)).
  rewrite check_bucket_access_state.
  by destruct ((_check_bucket_access _ _ _ _).1).
Qed.

(** X29.  The listing of buckets and the listing of a bucket agree: for a
    user whose identifier holds no underscore, every bucket that
    [StorageManager.get_user_buckets] reports can be listed by
    [get_bucket_files]; the listing has [file_count] entries, their sizes
    sum to [total_size], each is a file of that bucket and carries the size
    category of its size. *)
Theorem bucket_listing_agrees cfg user_id st b :
  Str.has_char "_" user_id = false →
  b ∈ (sm_get_user_buckets user_id st).1.2 →
  let r := get_bucket_files cfg user_id (BucketInfo.bucket_id b) st in
  r.1.1.1 = true
  ∧ BucketInfo.file_count b = Z.of_nat (length r.1.2)
  ∧ BucketInfo.total_size b = sum_sizes (BucketFile.file <$> r.1.2)
  ∧ (∀ entry, entry ∈ r.1.2 →
       FileInfo.bucket_id (BucketFile.file entry) = BucketInfo.bucket_id b
       ∧ BucketFile.size_category entry
         = get_file_size_category cfg (FileInfo.size (BucketFile.file entry)))
  ∧ r.2 = st.
Proof.
  intros Huid. rewrite sm_get_user_buckets_run. cbn [fst snd].
  intros (bucket_name & -> & _)%list_elem_of_fmap. cbn zeta.
  cbn [BucketInfo.bucket_id BucketInfo.file_count BucketInfo.total_size].
  rewrite get_bucket_files_run.
  rewrite check_bucket_access_owner by (by apply owner_prefix_is_own).
  cbn [negb fst snd]. split_and!; try done.
  - by rewrite length_fmap.
  - rewrite <- list_fmap_compose. f_equal.
    induction ((get_files_by_bucket _ st).1) as [|f files IH]; [done|].
    rewrite fmap_cons. by rewrite <- IH.
  - intros entry (f & -> & Hf)%list_elem_of_fmap. split; [|done].
    unfold get_files_by_bucket in Hf. mred. cbn [fst] in Hf.
    by apply list_elem_of_filter in Hf as [? _].
Qed.

Lemma bucket_listing_agrees_witness :
  let b := BucketInfo.mk alice_docs "docs" 3 6144 true in
  (sm_get_user_buckets alice_id demo).1.2 = [b]
  ∧ length (get_bucket_files Config alice_id alice_docs demo).1.2 = 3%nat.
Proof.
  split; [reflexivity|].
  destruct (bucket_listing_agrees Config alice_id demo
              (BucketInfo.mk alice_docs "docs" 3 6144 true) eq_refl
              ltac:(apply list_elem_of_here)) as (_ & Hcount & _).
  cbn [BucketInfo.file_count BucketInfo.bucket_id] in Hcount. lia.
Defined.

(** ** Search: the suggestions ([_generate_search_suggestions]) *)

Lemma count_up_get k t d :
  default 0 (dict_get t (count_up k d))
  = default 0 (dict_get t d) + (if decide (k = t) then 1 else 0).
Proof.
  unfold count_up. destruct (decide (k = t)) as [->|Hne].
  - rewrite dict_get_set_eq. done.
  - rewrite dict_get_set_ne by done. lia.
Qed.

Lemma count_types_get (types : list string) t acc :
  default 0 (dict_get t (foldl (λ d k, count_up k d) acc types))
  = default 0 (dict_get t acc) + Z.of_nat (length (filter (λ k, k = t) types)).
Proof.
  revert acc. induction types as [|k types IH]; intros acc; [cbn; lia|].
  cbn [foldl]. rewrite IH, count_up_get.
  destruct (decide (k = t)) as [->|Hne].
  - rewrite filter_cons_True by done. cbn [length]. lia.
  - rewrite filter_cons_False by done. lia.
Qed.

Lemma count_types_keys (types : list string) t acc :
  t ∈ dict_keys (foldl (λ d k, count_up k d) acc types) ↔ t ∈ dict_keys acc ∨ t ∈ types.
Proof.
  revert acc. induction types as [|k types IH]; intros acc; cbn [foldl].
  - rewrite elem_of_nil. naive_solver.
  - rewrite IH. unfold count_up. rewrite dict_keys_set, elem_of_cons.
    destruct (dict_mem k acc) eqn:E.
    + apply dict_mem_true in E as [v Hv]. apply dict_get_Some_elem in Hv.
      assert (k ∈ dict_keys acc).
      { apply list_elem_of_fmap. by exists (k, v). }
      naive_solver.
    + rewrite elem_of_app, list_elem_of_singleton. naive_solver.
Qed.

Lemma count_types_ok (types : list string) acc :
  dict_ok acc → dict_ok (foldl (λ d k, count_up k d) acc types).
Proof.
  revert acc. induction types as [|k types IH]; intros acc Hok; [done|].
  cbn [foldl]. apply IH. by apply dict_ok_set.
Qed.

Lemma max_key_from_max best best_value (d : dict Z) :
  ∃ v, (max_key_from best best_value d = best ∧ v = best_value
        ∨ (max_key_from best best_value d, v) ∈ d)
    ∧ best_value ≤ v
    ∧ ∀ k' v', (k', v') ∈ d → v' ≤ v.
Proof.
  revert best best_value. induction d as [|[k1 v1] d IH]; intros best best_value.
  - exists best_value. split_and!; [by left | lia | by intros ? ? ?%elem_of_nil].
  - cbn [max_key_from]. destruct (best_value <? v1) eqn:E.
    + apply Z.ltb_lt in E. destruct (IH k1 v1) as (v & Hk & Hle & Hall).
      exists v. split_and!; [|lia|].
      * right. destruct Hk as [[-> ->]|Hk]; [left | by right].
      * intros k' v' [[= -> ->]|Hin]%elem_of_cons; [done | by eapply Hall].
    + apply Z.ltb_ge in E. destruct (IH best best_value) as (v & Hk & Hle & Hall).
      exists v. split_and!; [|lia|].
      * destruct Hk as [[-> ->]|Hk]; [by left | right; by right].
      * intros k' v' [[= -> ->]|Hin]%elem_of_cons; [lia | by eapply Hall].
Qed.

Lemma max_key_max (d : dict Z) :
  d ≠ [] →
  ∃ k v, max_key d = Some k ∧ (k, v) ∈ d ∧ ∀ k' v', (k', v') ∈ d → v' ≤ v.
Proof.
  destruct d as [|[k0 v0] d]; [done|]. intros _. cbn [max_key].
  destruct (max_key_from_max k0 v0 d) as (v & Hk & Hle & Hall).
  exists (max_key_from k0 v0 d), v. split_and!; [done| |].
  - destruct Hk as [[-> ->]|Hk]; [left | by right].
  - intros k' v' [[= -> ->]|Hin]%elem_of_cons; [done | by eapply Hall].
Qed.

Lemma foldl_count_types (results : list Enriched.t) (acc : dict Z) :
  foldl (λ file_types file_data,
           count_up (Hit.file_type (Enriched.hit file_data)) file_types) acc results
  = foldl (λ d k, count_up k d) acc ((λ e, Hit.file_type (Enriched.hit e)) <$> results).
Proof.
  revert acc. induction results as [|e results IH]; intros acc; [done|].
  cbn [foldl fmap list_fmap]. apply IH.
Qed.

(** X30.  When the results of a search have files of more than one type,
    the first suggestion of [_generate_search_suggestions] is to filter by
    a type that occurs most often among them; there are never more than
    three suggestions. *)
Theorem search_suggestions_most_common results query filters :
  let types := (λ e, Hit.file_type (Enriched.hit e)) <$> results in
  let suggestions := _generate_search_suggestions results query filters in
  (∃ a b, a ∈ types ∧ b ∈ types ∧ a ≠ b) →
  ∃ t, t ∈ types
    ∧ (∀ t', length (filter (λ k, k = t') types) ≤ length (filter (λ k, k = t) types))%nat
    ∧ head suggestions = Some ("Filter by '" +:+ t +:+ "' files to narrow results")
    ∧ (length suggestions ≤ 3)%nat.
Proof.
  cbn zeta. intros (a & b & Ha & Hb & Hab).
  set (types := (λ e, Hit.file_type (Enriched.hit e)) <$> results) in *.
  unfold _generate_search_suggestions.
  assert (Hfold : foldl (λ file_types file_data,
                           count_up (Hit.file_type (Enriched.hit file_data)) file_types)
                    [] results
                  = foldl (λ d k, count_up k d) [] types).
  { apply foldl_count_types. }
  rewrite Hfold. set (file_types := foldl (λ d k, count_up k d) [] types).
  assert (Hne : results ≠ []) by (intros ->; by apply elem_of_nil in Ha).
  rewrite (bool_decide_eq_false_2 (results = [])) by done.
  rewrite (bool_decide_eq_true_2 (results ≠ [])) by done. cbn [andb app].
  assert (Hok : dict_ok file_types) by (apply count_types_ok, NoDup_nil_2).
  assert (Hlen : (1 <? length file_types)%nat = true).
  { apply Nat.ltb_lt.
    assert (Hka : a ∈ dict_keys file_types) by (apply count_types_keys; by right).
    assert (Hkb : b ∈ dict_keys file_types) by (apply count_types_keys; by right).
    unfold dict_keys in Hka, Hkb. rewrite <- (length_fmap fst).
    destruct (file_types.*1) as [|x [|y l]]; cbn [length]; [|exfalso|lia].
    - by apply elem_of_nil in Hka.
    - apply list_elem_of_singleton in Hka, Hkb. congruence. }
  rewrite Hlen.
  destruct (max_key_max file_types) as (t & v & Hmax & Hin & Hall).
  { intros Hnil. by rewrite Hnil in Hlen. }
  rewrite Hmax. cbn [default from_option id].
  assert (Hcount : ∀ t', default 0 (dict_get t' file_types)
                         = Z.of_nat (length (filter (λ k, k = t') types))).
  { intros t'. unfold file_types. rewrite count_types_get. cbn. lia. }
  exists t. split_and!.
  - assert (Hk : t ∈ dict_keys file_types).
    { apply list_elem_of_fmap. by exists (t, v). }
    apply count_types_keys in Hk as [Hk|Hk]; [by apply elem_of_nil in Hk | done].
  - intros t'. apply Nat2Z.inj_le. rewrite <- !Hcount.
    rewrite (dict_elem_get _ _ _ Hok Hin). cbn [default from_option id].
    destruct (dict_get t' file_types) as [v'|] eqn:E.
    + apply (Hall t' v'). by apply dict_get_Some_elem.
    + cbn. pose proof (Hcount t) as Ht. rewrite (dict_elem_get _ _ _ Hok Hin) in Ht.
      cbn in Ht. lia.
  - by destruct (20 <? length results)%nat.
  - rewrite length_take. lia.
Qed.

Lemma search_suggestions_most_common_witness :
  let e t :=
    Enriched.mk (Hit.mk None None None None "n" t 1 "" "" "") "small" None None None None in
  head (_generate_search_suggestions [e "code"; e "image"; e "image"] "" None)
  = Some "Filter by 'image' files to narrow results".
Proof.
  cbn zeta.
  destruct (search_suggestions_most_common
              [Enriched.mk (Hit.mk None None None None "n" "code" 1 "" "" "") "small" None
                 None None None;
               Enriched.mk (Hit.mk None None None None "n" "image" 1 "" "" "") "small" None
                 None None None;
               Enriched.mk (Hit.mk None None None None "n" "image" 1 "" "" "") "small" None
                 None None None] "" None) as (t & _ & _ & Hhead & _).
  - exists "code", "image". split_and!; [| |done].
    + apply list_elem_of_here.
    + apply list_elem_of_further, list_elem_of_here.
  - reflexivity.
Defined.
